(** * people-power-radio: the table parser, the data transformer, the
      date/station selection and the audio transport of [script.js]

    A shallow embedding of the functions of [script.js] that carry the
    application logic, followed by the properties established about them.

    Conventions of the embedding.
    - A JavaScript string is a [string]; each character stands for one
      code unit below 256.  The parser and the transformer only ever
      compare characters against the quote, the comma, the line feed,
      digits, signs and white space.
    - A JavaScript value that is either a string or [undefined] is an
      [option string]; [prop_key] is the conversion the language applies
      when such a value is used as a property name or stored in a DOM
      string attribute.
    - A JavaScript object used as a dictionary is a [gmap string _] of its
      own properties, read and written as a plain object is: a read under
      a name that the object inherits from [Object.prototype] yields the
      inherited value, and an assignment to [__proto__] writes no own
      property (it is ignored for a text and replaces the prototype for an
      object).
    - The map library is a collaborator too; it throws on a position with
      a coordinate that is not a number.
    - The audio element, the map and the console are collaborators: their
      properties written by the script are fields of the state, the calls
      made to them are recorded as an ordered list of [Effect]s. *)

From Stdlib Require Import Ascii String DecimalString Floats.
From stdpp Require Import gmap strings list fin_maps.

Set Warnings "-inexact-float".
Open Scope string_scope.

(** ** Strings and property keys *)

(** [String(v)] for a value that is a string or [undefined]. *)
Definition prop_key (v : option string) : string :=
  match v with
  | Some s => s
  | None => "undefined"
  end.

(** Truthiness of a value that is a string or [undefined]. *)
Definition truthy (v : option string) : bool :=
  match v with
  | Some s => negb (String.eqb s "")
  | None => false
  end.

(** [v || d] where [v] is a string or [undefined] and [d] a string. *)
Definition or_default (v : option string) (d : string) : string :=
  if truthy v then prop_key v else d.

(** ** Plain objects

    The objects of the script are plain objects, made by [{}]: their
    prototype is [Object.prototype].  A map holds their own properties.
    The names below are those that every plain object inherits (ECMA-262,
    with its annex for browsers): a read of one of them on an object that
    has no own property of the name yields the inherited value, a
    function, or the prototype itself for [__proto__], and never
    [undefined]. *)
Definition inherited_names : list string :=
  ["constructor"; "hasOwnProperty"; "isPrototypeOf"; "propertyIsEnumerable";
   "toLocaleString"; "toString"; "valueOf"; "__proto__";
   "__defineGetter__"; "__defineSetter__"; "__lookupGetter__"; "__lookupSetter__"].

Definition inherited (name : string) : bool :=
  bool_decide (name ∈ inherited_names).

(** [thisObject[name] = value] for a string [value]: an own property is
    written, but for the name [__proto__], whose inherited setter ignores
    a value that is not an object. *)
Definition assign_text (name value : string) (thisObject : gmap string string)
  : gmap string string :=
  if String.eqb name "__proto__" then thisObject else <[name := value]> thisObject.

(** ** Tabular parser *)

Module Csv.

Definition quote : ascii := "034"%char.
Definition comma : ascii := ","%char.
Definition newline : ascii := "010"%char.

(** The loop of [csvSplit], started at any position of the row with the
    loop variables [result], [inQuotes] and [currentField]. *)
Fixpoint csvSplit_loop (row : string) (result : list string)
         (inQuotes : bool) (currentField : string) : list string :=
  match row with
  | EmptyString => result ++ [currentField]
  | String char rest =>
      if Ascii.eqb char quote then
        csvSplit_loop rest result (negb inQuotes) currentField
      else if Ascii.eqb char comma && negb inQuotes then
        csvSplit_loop rest (result ++ [currentField]) inQuotes ""
      else
        csvSplit_loop rest result inQuotes (currentField ++ String char "")
  end.

Definition csvSplit (row : string) : list string :=
  csvSplit_loop row [] false "".

(** [s.split(sep)] for a one-character separator: never empty. *)
Fixpoint split (sep : ascii) (s : string) : list string :=
  match s with
  | EmptyString => [""]
  | String c rest =>
      if Ascii.eqb c sep then "" :: split sep rest
      else match split sep rest with
           | field :: fields => String c field :: fields
           | [] => [String c ""]
           end
  end.

(** The inner loop of [csvToObjects]: [thisObject[propertyNames[j]] = row[j]]
    for the columns of [row] from index [j] on.  A column beyond the
    header has the name [propertyNames[j] = undefined]. *)
Fixpoint fill (propertyNames : list string) (j : nat) (row : list string)
         (thisObject : gmap string string) : gmap string string :=
  match row with
  | [] => thisObject
  | value :: rest =>
      fill propertyNames (S j) rest
           (assign_text (prop_key (propertyNames !! j)) value thisObject)
  end.

Definition csvToObjects (csv : string) : list (gmap string string) :=
  let csvRows := split newline csv in
  let propertyNames := csvSplit (hd "" csvRows) in
  map (fun csvRow => fill propertyNames 0 (csvSplit csvRow) ∅) (tl csvRows).

End Csv.

(** ** Numbers read from text

    [parseFloat] (ECMA-262, 19.2.4) skips leading white space, takes the
    longest prefix of what remains that is a [StrDecimalLiteral] and
    returns its value, or [NaN] when there is no such prefix.  The value is
    kept exact, as sign, decimal digits and power of ten; the rounding of
    that value to a binary64 is not modelled. *)

Inductive Number :=
| NaN
| Infinity (negative : bool)
| Decimal (negative : bool) (digits : N) (exponent : Z).

Definition isNaN (x : Number) : bool :=
  match x with NaN => true | _ => false end.

Module Text.

(** White space and line terminators among the code units below 256:
    TAB, LF, VT, FF, CR, SP and NBSP. *)
Definition is_space (c : ascii) : bool :=
  let n := nat_of_ascii c in
  ((9 <=? n)%nat && (n <=? 13)%nat) || (n =? 32)%nat || (n =? 160)%nat.

Definition is_digit (c : ascii) : bool :=
  let n := nat_of_ascii c in (48 <=? n)%nat && (n <=? 57)%nat.

Fixpoint trimStart (s : string) : string :=
  match s with
  | String c rest => if is_space c then trimStart rest else s
  | EmptyString => ""
  end.

Fixpoint trimEnd (s : string) : string :=
  match s with
  | String c rest =>
      let rest' := trimEnd rest in
      if is_space c && String.eqb rest' "" then "" else String c rest'
  | EmptyString => ""
  end.

Definition trim (s : string) : string := trimEnd (trimStart s).

(** [s.startsWith(p)], returning what follows [p]. *)
Fixpoint strip_prefix (p s : string) : option string :=
  match p, s with
  | EmptyString, _ => Some s
  | String a p', String b s' =>
      if Ascii.eqb a b then strip_prefix p' s' else None
  | String _ _, EmptyString => None
  end.

(** [s.replace(pat, rep)] with a string pattern: the first occurrence. *)
Fixpoint replace (pat rep s : string) : string :=
  match strip_prefix pat s with
  | Some after => rep ++ after
  | None =>
      match s with
      | String c rest => String c (replace pat rep rest)
      | EmptyString => ""
      end
  end.

(** The longest run of decimal digits at the start of [s], and the rest. *)
Fixpoint span_digits (s : string) : string * string :=
  match s with
  | String c rest =>
      if is_digit c then
        let '(ds, after) := span_digits rest in (String c ds, after)
      else ("", s)
  | EmptyString => ("", "")
  end.

Fixpoint digits_value_from (acc : N) (ds : string) : N :=
  match ds with
  | String c rest =>
      digits_value_from (10 * acc + (N_of_ascii c - 48))%N rest
  | EmptyString => acc
  end.

Definition digits_value (ds : string) : N := digits_value_from 0 ds.

(** [ExponentPart], when one starts [s]: its value and what follows. *)
Definition exponent_part (s : string) : option (Z * string) :=
  match s with
  | String c rest =>
      if Ascii.eqb c "e" || Ascii.eqb c "E" then
        let '(negative, unsigned) :=
          match rest with
          | String sign rest' =>
              if Ascii.eqb sign "-" then (true, rest')
              else if Ascii.eqb sign "+" then (false, rest')
              else (false, rest)
          | EmptyString => (false, rest)
          end in
        let '(ds, after) := span_digits unsigned in
        if String.eqb ds "" then None
        else
          let e := Z.of_N (digits_value ds) in
          Some (if negative then (- e)%Z else e, after)
      else None
  | EmptyString => None
  end.

Definition optional_exponent (s : string) : Z * string :=
  match exponent_part s with
  | Some r => r
  | None => (0%Z, s)
  end.

(** The longest [StrUnsignedDecimalLiteral] that starts [s]: its value
    with the given sign, and the text it leaves unread. *)
Definition unsigned_literal (negative : bool) (s : string)
  : option (Number * string) :=
  match strip_prefix "Infinity" s with
  | Some after => Some (Infinity negative, after)
  | None =>
      let '(int, after_int) := span_digits s in
      match strip_prefix "." after_int with
      | Some after_dot =>
          let '(frac, after_frac) := span_digits after_dot in
          if String.eqb int "" && String.eqb frac "" then None
          else
            let '(e, after) := optional_exponent after_frac in
            Some (Decimal negative (digits_value (int ++ frac))
                          (e - Z.of_nat (String.length frac)),
                  after)
      | None =>
          if String.eqb int "" then None
          else
            let '(e, after) := optional_exponent after_int in
            Some (Decimal negative (digits_value int) e, after)
      end
  end.

(** The longest [StrDecimalLiteral] that starts [s]. *)
Definition decimal_literal (s : string) : option (Number * string) :=
  match strip_prefix "-" s with
  | Some rest => unsigned_literal true rest
  | None =>
      match strip_prefix "+" s with
      | Some rest => unsigned_literal false rest
      | None => unsigned_literal false s
      end
  end.

End Text.

(** [parseFloat(v)] for [v] a string or [undefined]. *)
Definition parseFloat (v : option string) : Number :=
  match Text.decimal_literal (Text.trimStart (prop_key v)) with
  | Some (x, _) => x
  | None => NaN
  end.

(** The whole of [s], up to surrounding white space, is one decimal
    literal: the texts that denote a number and nothing else. *)
Definition numeric_text (s : string) : bool :=
  match Text.decimal_literal (Text.trimStart s) with
  | Some (_, after) => String.eqb (Text.trimStart after) ""
  | None => false
  end.

(** ** Data transformer *)

(** The tabs of the spreadsheet, as the script lists them. *)
Definition sheetTabs : list string :=
  ["Master"; "Feb22"; "Feb23"; "Feb24"; "Feb25"].

Module Station.
Record t := {
  id : option string;
  name : option string;
  lat : Number;
  lng : Number;
  description : option string;
  icon : option string
}.
End Station.

Module Entry.
Record t := { description : string; audioUrl : string }.
End Entry.

(** The [stations] object of a date: a plain object whose keys are
    station identifiers taken from the sheet.  Its own properties are
    entries.  Its prototype is [Object.prototype] until an entry is
    assigned to the name [__proto__], which makes that entry the
    prototype. *)
Module Stations.

Record t := { own : gmap string Entry.t; prototype : option Entry.t }.

Definition empty : t := {| own := ∅; prototype := None |}.

(** What a read [stations[name]] can yield, besides [undefined]: an entry,
    a text (the [description] or [audioUrl] of an entry that is the
    prototype), or a value inherited from [Object.prototype] (a function,
    or [Object.prototype] itself for [__proto__]). *)
Inductive Value :=
| EntryValue (entry : Entry.t)
| TextValue (text : string)
| BuiltinValue.

(** [stations[name]]. *)
Definition get (stations : t) (name : string) : option Value :=
  match own stations !! name with
  | Some entry => Some (EntryValue entry)
  | None =>
      match prototype stations with
      | Some entry =>
          if String.eqb name "description" then Some (TextValue (Entry.description entry))
          else if String.eqb name "audioUrl" then Some (TextValue (Entry.audioUrl entry))
          else if String.eqb name "__proto__" then Some (EntryValue entry)
          else if inherited name then Some BuiltinValue
          else None
      | None => if inherited name then Some BuiltinValue else None
      end
  end.

(** [stations[name] = entry]. *)
Definition set (name : string) (entry : Entry.t) (stations : t) : t :=
  if String.eqb name "__proto__"
  then {| own := own stations; prototype := Some entry |}
  else {| own := <[name := entry]> (own stations); prototype := prototype stations |}.

(** Truthiness of the value read. *)
Definition present (v : option Value) : bool :=
  match v with
  | Some (EntryValue _) => true
  | Some (TextValue text) => negb (String.eqb text "")
  | Some BuiltinValue => true
  | None => false
  end.

(** [v.description] and [v.audioUrl]: [undefined] on a text and on the
    inherited values. *)
Definition description (v : Value) : option string :=
  match v with
  | EntryValue entry => Some (Entry.description entry)
  | _ => None
  end.

Definition audioUrl (v : Value) : option string :=
  match v with
  | EntryValue entry => Some (Entry.audioUrl entry)
  | _ => None
  end.

End Stations.

Module DateContent.
Record t := {
  title : string;
  context : string;
  stations : Stations.t
}.
End DateContent.

Module Transform.

(** The arrow function mapped over [allSheets.Master]. *)
Definition station_of (station : gmap string string) : Station.t :=
  {| Station.id := station !! "id";
     Station.name := station !! "name";
     Station.lat := parseFloat (station !! "lat");
     Station.lng := parseFloat (station !! "lng");
     Station.description := station !! "description";
     Station.icon := station !! "icon" |}.

(** The body of [dateData.forEach], on the [stations] object of the tab. *)
Definition populate (stations : Stations.t)
           (stationData : gmap string string) : Stations.t :=
  match stationData !! "id" with
  | Some i =>
      if truthy (Some i) && negb (String.eqb (Text.trim i) "") then
        Stations.set i
          {| Entry.description :=
               or_default (stationData !! "description")
                          "No description available";
             Entry.audioUrl :=
               or_default (stationData !! "audioUrl") "#" |}
          stations
      else stations
  | None => stations
  end.

Definition date_content (tabName : string)
           (dateData : list (gmap string string)) : DateContent.t :=
  {| DateContent.title := "February " ++ Text.replace "Feb" "" tabName;
     DateContent.context := "context";
     DateContent.stations := foldl populate Stations.empty dateData |}.

(** The body of [sheetTabs.forEach]; [None] is the [TypeError] of
    calling [forEach] on a tab that was not loaded. *)
Definition add_tab (allSheets : gmap string (list (gmap string string)))
           (dateContent : option (gmap string DateContent.t))
           (tabName : string) : option (gmap string DateContent.t) :=
  match dateContent with
  | Some dc =>
      if String.eqb tabName "Master" then Some dc
      else
        match allSheets !! tabName with
        | Some dateData => Some (<[tabName := date_content tabName dateData]> dc)
        | None => None
        end
  | None => None
  end.

(** [transformSheetData], from the empty [dateContent] the script starts
    with: the new values of the globals [stations] and [dateContent]. *)
Definition transformSheetData
           (allSheets : gmap string (list (gmap string string)))
  : option (list Station.t * gmap string DateContent.t) :=
  match allSheets !! "Master" with
  | Some master =>
      match foldl (add_tab allSheets) (Some ∅) sheetTabs with
      | Some dateContent => Some (map station_of master, dateContent)
      | None => None
      end
  | None => None
  end.

End Transform.

(** ** The page, the audio element and the variables of the player

    The state the handlers read and write.  An element the script tests for
    presence before using it is optional; the others are taken to exist.
    The [.station-item] elements of the document are the items of the
    station list.  A marker belongs to each station of the roster from
    [initializeApplication] on and is named by the station's position. *)

(** [#current-station]: its [data-id] attribute and its text. *)
Record Element := { dataset_id : option string; textContent : string }.

(** One [.station-item] of the station list: its [data-station] attribute,
    the values interpolated into its markup, and whether its class list
    holds [active]. *)
Record StationItem := {
  dataset_station : string;
  item_name : string;
  item_icon : string;
  item_description : string;
  active : bool
}.

(** The values interpolated into the markup of a marker popup. *)
Record PopupContent := {
  popup_name : string;
  popup_description : string;
  popup_station : string
}.

Record Page := {
  selectDate : string;                      (* #selectDate .value *)
  currentStationEl : option Element;        (* window.currentStationEl *)
  stationDescriptionEl : string;            (* window.stationDescriptionEl *)
  infoSection : option string;              (* .info-section h2 *)
  contextTitle : option string;             (* .historical-context h3 *)
  contextText : option string;              (* .historical-context p *)
  stationList : option (list StationItem)   (* .station-list *)
}.

Record Audio := {
  src : string;
  loop : bool;
  volume : float;
  currentTime : float
}.

Record Progress := {
  bar_width : string;       (* progressBar.style.width *)
  handle_left : string;     (* progressHandle.style.left *)
  current_time : string;    (* currentTimeEl.textContent *)
  duration : string         (* durationEl.textContent *)
}.

Record Transport := {
  playBtn : string;           (* playBtn.textContent *)
  window_isPlaying : bool;    (* window.isPlaying *)
  isPlaying : bool;           (* let isPlaying, of initializeAudioPlayer *)
  progress : Progress
}.

(** The three icons of the volume button. *)
Inductive VolumeIcon := IconMuted | IconLow | IconHigh.

Record PanelStyle := { opacity : string; visibility : string; transform : string }.

Record VolumeControl := {
  volumeBtn : VolumeIcon;             (* volumeBtn.textContent *)
  volumeSlider : float;               (* volumeSlider.value, as a number *)
  volumePanel : PanelStyle;           (* #volume-panel .style *)
  volumePanelTimeout : option nat;    (* let volumePanelTimeout *)
  isMuted : bool;                     (* let isMuted *)
  lastVolume : float                  (* let lastVolume *)
}.

Record State := {
  page : Page;
  audio : Audio;
  transport : Transport;
  volumeControl : VolumeControl
}.

(** Field updates. *)

Definition on_page (f : Page -> Page) (s : State) : State :=
  {| page := f (page s); audio := audio s; transport := transport s;
     volumeControl := volumeControl s |}.
Definition on_audio (f : Audio -> Audio) (s : State) : State :=
  {| page := page s; audio := f (audio s); transport := transport s;
     volumeControl := volumeControl s |}.
Definition on_transport (f : Transport -> Transport) (s : State) : State :=
  {| page := page s; audio := audio s; transport := f (transport s);
     volumeControl := volumeControl s |}.
Definition on_volumeControl (f : VolumeControl -> VolumeControl) (s : State) : State :=
  {| page := page s; audio := audio s; transport := transport s;
     volumeControl := f (volumeControl s) |}.

Definition set_selectDate (v : string) (p : Page) : Page :=
  {| selectDate := v; currentStationEl := currentStationEl p;
     stationDescriptionEl := stationDescriptionEl p;
     infoSection := infoSection p; contextTitle := contextTitle p;
     contextText := contextText p; stationList := stationList p |}.
Definition set_currentStationEl (v : option Element) (p : Page) : Page :=
  {| selectDate := selectDate p; currentStationEl := v;
     stationDescriptionEl := stationDescriptionEl p;
     infoSection := infoSection p; contextTitle := contextTitle p;
     contextText := contextText p; stationList := stationList p |}.
Definition set_stationDescriptionEl (v : string) (p : Page) : Page :=
  {| selectDate := selectDate p; currentStationEl := currentStationEl p;
     stationDescriptionEl := v;
     infoSection := infoSection p; contextTitle := contextTitle p;
     contextText := contextText p; stationList := stationList p |}.
Definition set_context (i t c : option string) (p : Page) : Page :=
  {| selectDate := selectDate p; currentStationEl := currentStationEl p;
     stationDescriptionEl := stationDescriptionEl p;
     infoSection := i; contextTitle := t; contextText := c;
     stationList := stationList p |}.
Definition set_stationList (v : option (list StationItem)) (p : Page) : Page :=
  {| selectDate := selectDate p; currentStationEl := currentStationEl p;
     stationDescriptionEl := stationDescriptionEl p;
     infoSection := infoSection p; contextTitle := contextTitle p;
     contextText := contextText p; stationList := v |}.

Definition set_src (v : string) (a : Audio) : Audio :=
  {| src := v; loop := loop a; volume := volume a; currentTime := currentTime a |}.
Definition set_loop (v : bool) (a : Audio) : Audio :=
  {| src := src a; loop := v; volume := volume a; currentTime := currentTime a |}.
Definition set_volume (v : float) (a : Audio) : Audio :=
  {| src := src a; loop := loop a; volume := v; currentTime := currentTime a |}.
Definition set_currentTime (v : float) (a : Audio) : Audio :=
  {| src := src a; loop := loop a; volume := volume a; currentTime := v |}.

Definition set_playBtn (v : string) (t : Transport) : Transport :=
  {| playBtn := v; window_isPlaying := window_isPlaying t;
     isPlaying := isPlaying t; progress := progress t |}.
Definition set_window_isPlaying (v : bool) (t : Transport) : Transport :=
  {| playBtn := playBtn t; window_isPlaying := v;
     isPlaying := isPlaying t; progress := progress t |}.
Definition set_isPlaying (v : bool) (t : Transport) : Transport :=
  {| playBtn := playBtn t; window_isPlaying := window_isPlaying t;
     isPlaying := v; progress := progress t |}.
Definition set_progress (v : Progress) (t : Transport) : Transport :=
  {| playBtn := playBtn t; window_isPlaying := window_isPlaying t;
     isPlaying := isPlaying t; progress := v |}.

Definition set_volumeBtn (v : VolumeIcon) (c : VolumeControl) : VolumeControl :=
  {| volumeBtn := v; volumeSlider := volumeSlider c;
     volumePanel := volumePanel c; volumePanelTimeout := volumePanelTimeout c;
     isMuted := isMuted c; lastVolume := lastVolume c |}.
Definition set_volumeSlider (v : float) (c : VolumeControl) : VolumeControl :=
  {| volumeBtn := volumeBtn c; volumeSlider := v;
     volumePanel := volumePanel c; volumePanelTimeout := volumePanelTimeout c;
     isMuted := isMuted c; lastVolume := lastVolume c |}.
Definition set_volumePanel (v : PanelStyle) (c : VolumeControl) : VolumeControl :=
  {| volumeBtn := volumeBtn c; volumeSlider := volumeSlider c;
     volumePanel := v; volumePanelTimeout := volumePanelTimeout c;
     isMuted := isMuted c; lastVolume := lastVolume c |}.
Definition set_isMuted (v : bool) (c : VolumeControl) : VolumeControl :=
  {| volumeBtn := volumeBtn c; volumeSlider := volumeSlider c;
     volumePanel := volumePanel c; volumePanelTimeout := volumePanelTimeout c;
     isMuted := v; lastVolume := lastVolume c |}.
Definition set_lastVolume (v : float) (c : VolumeControl) : VolumeControl :=
  {| volumeBtn := volumeBtn c; volumeSlider := volumeSlider c;
     volumePanel := volumePanel c; volumePanelTimeout := volumePanelTimeout c;
     isMuted := isMuted c; lastVolume := v |}.

(** The identifier of the selected station: [currentStationEl.dataset.id]. *)
Definition selectedStationId (s : State) : option string :=
  match currentStationEl (page s) with
  | Some el => dataset_id el
  | None => None
  end.

(** ** Handlers as scripts

    A handler runs on a state and ends normally or by throwing; it leaves a
    state and the ordered list of the calls it made to the console, the
    audio element and the map. *)

Inductive Effect :=
| ConsoleLog (text : string)
| ConsoleWarn (text : string)
| ConsoleError (text : string)
| AudioLoad
| AudioPlay
| AudioPause
| AudioOnceError (url : string)
| MapSetView (lat lng : Number) (zoom : nat)
| MarkerOpenPopup (station : nat)
| MarkerSetPopupContent (station : nat) (content : PopupContent)
| ClearTimeout (handle : nat)
| MarkerAddTo (station : nat).

Inductive Completion := Normal | Thrown (error : string).

Definition Script : Type := State -> Completion * State * list Effect.

Definition skip : Script := fun s => (Normal, s, []).
Definition modify (f : State -> State) : Script := fun s => (Normal, f s, []).
Definition emit (e : Effect) : Script := fun s => (Normal, s, [e]).
Definition throw (error : string) : Script := fun s => (Thrown error, s, []).
Definition reading (k : State -> Script) : Script := fun s => k s s.

Definition seq (a b : Script) : Script :=
  fun s =>
    match a s with
    | (Normal, s1, out1) =>
        match b s1 with
        | (c, s2, out2) => (c, s2, (out1 ++ out2)%list)
        end
    | (Thrown error, s1, out1) => (Thrown error, s1, out1)
    end.

Declare Scope script_scope.
Delimit Scope script_scope with script.
Bind Scope script_scope with Script.
(** The end of a listener that has registered a reaction to a promise:
    the rest [a] of the listener, then the [reaction], which runs whether
    [a] ended normally or by an exception.  The listener ends as [a]
    did. *)
Definition reacting (a reaction : Script) : Script :=
  fun s =>
    let '(c, s1, out1) := a s in
    let '(_, s2, out2) := reaction s1 in
    (c, s2, (out1 ++ out2)%list).

Notation "a ;; b" := (seq a b)
  (at level 100, b at level 200, right associativity) : script_scope.
Open Scope script_scope.

Definition completion (r : Completion * State * list Effect) : Completion := r.1.1.
Definition state_after (r : Completion * State * list Effect) : State := r.1.2.
Definition effects (r : Completion * State * list Effect) : list Effect := r.2.

(** [stations.forEach(body)], the body given the position and the element. *)
Fixpoint forEach_from {A} (i : nat) (l : list A) (body : nat -> A -> Script) : Script :=
  match l with
  | [] => skip
  | x :: rest => body i x ;; forEach_from (S i) rest body
  end.

Definition forEach {A} (l : list A) (body : nat -> A -> Script) : Script :=
  forEach_from 0 l body.

(** [l.find(p)], with the position of the element found. *)
Fixpoint find_from {A} (i : nat) (p : A -> bool) (l : list A) : option (nat * A) :=
  match l with
  | [] => None
  | x :: rest => if p x then Some (i, x) else find_from (S i) p rest
  end.

Definition find {A} (p : A -> bool) (l : list A) : option (nat * A) :=
  find_from 0 p l.

(** What the platform answers to [audio.play()]: a promise that is
    fulfilled, a promise that is rejected (the autoplay policy), or no
    promise at all.  The reaction to the promise runs after the handler that
    called [play] has returned. *)
Inductive PlayOutcome := PlayFulfilled | PlayRejected | PlayNoPromise.

(** *** The audio player: [initializeAudioPlayer] *)

Module Player.

Definition resetProgress : Script :=
  modify (on_transport (set_progress
    {| bar_width := "0%"; handle_left := "0px";
       current_time := "0:00"; duration := "0:00" |})).

Definition showVolumePanel : Script :=
  modify (on_volumeControl (set_volumePanel
    {| opacity := "1"; visibility := "visible";
       transform := "translateY(0)" |})) ;;
  reading (fun s =>
    match volumePanelTimeout (volumeControl s) with
    | Some handle => emit (ClearTimeout handle)
    | None => skip
    end).

Definition updateVolumeButton : Script :=
  modify (fun s =>
    let v := volume (audio s) in
    on_volumeControl (set_volumeBtn
      (if isMuted (volumeControl s) || PrimFloat.eqb v 0 then IconMuted
       else if PrimFloat.ltb v 0.5 then IconLow
       else IconHigh)) s).

(** The [click] listener of the volume button: mute and unmute. *)
Definition volumeBtn_click : Script :=
  reading (fun s =>
    if isMuted (volumeControl s) then
      modify (fun s =>
        let last := lastVolume (volumeControl s) in
        on_audio (set_volume (if PrimFloat.ltb 0 last then last else 0.7)) s) ;;
      modify (fun s => on_volumeControl (set_volumeSlider (volume (audio s))) s) ;;
      modify (on_volumeControl (set_isMuted false))
    else
      modify (fun s => on_volumeControl (set_lastVolume (volume (audio s))) s) ;;
      modify (on_audio (set_volume 0)) ;;
      modify (on_volumeControl (set_volumeSlider 0)) ;;
      modify (on_volumeControl (set_isMuted true))) ;;
  updateVolumeButton ;;
  showVolumePanel.

(** The [input] listener of the volume slider, the slider holding [value]. *)
Definition volumeSlider_input (value : float) : Script :=
  modify (on_volumeControl (set_volumeSlider value)) ;;
  modify (on_audio (set_volume value)) ;;
  reading (fun s =>
    if PrimFloat.ltb 0 (volume (audio s)) && isMuted (volumeControl s) then
      modify (on_volumeControl (set_isMuted false))
    else skip) ;;
  updateVolumeButton.

(** The [click] listener of the play button, then the reaction to the
    promise of [play]. *)
Definition playBtn_click (o : PlayOutcome) : Script :=
  reading (fun s =>
    if isPlaying (transport s) then
      emit AudioPause ;;
      modify (on_transport (set_playBtn "Play")) ;;
      modify (fun s => on_transport (set_isPlaying (negb (isPlaying (transport s)))) s)
    else
      emit AudioPlay ;;
      match o with
      | PlayNoPromise => throw "TypeError"
      | _ => skip
      end ;;
      modify (on_transport (set_playBtn "Pause")) ;;
      modify (fun s => on_transport (set_isPlaying (negb (isPlaying (transport s)))) s) ;;
      match o with
      | PlayRejected => emit (ConsoleLog "Audio play failed:")
      | _ => skip
      end).

(** The [ended] listener of the audio element, then the reaction to the
    promise of [play]. *)
Definition audio_ended (o : PlayOutcome) : Script :=
  modify (on_audio (set_currentTime 0)) ;;
  emit AudioPlay ;;
  match o with
  | PlayNoPromise => throw "TypeError"
  | PlayRejected =>
      emit (ConsoleLog "Auto-restart after loop was prevented:") ;;
      modify (on_transport (set_isPlaying false)) ;;
      modify (on_transport (set_playBtn "Play"))
  | PlayFulfilled => skip
  end.

(** The initial values of the variables of [initializeAudioPlayer] and of
    the copy [window.isPlaying] taken when it returns. *)
Definition initializeAudioPlayer : Script :=
  modify (on_transport (set_isPlaying false)) ;;
  modify (on_volumeControl (set_isMuted false)) ;;
  modify (on_volumeControl (set_lastVolume 1)) ;;
  modify (fun s => on_transport (set_window_isPlaying (isPlaying (transport s))) s).

End Player.

(** *** Selection of a date and of a station *)

Section Selection.

(** The globals [stations] and [dateContent], fixed once
    [transformSheetData] has run. *)
Variable stations : list Station.t.
Variable dateContent : gmap string DateContent.t.

(** [dateContent[selectedDateId]?.stations[stationId]].  [dateContent] is a
    plain object: under a name that it inherits and does not own, the
    value read is a function, or the prototype, whose [stations] is
    [undefined], and the read of [stations[stationId]] throws. *)
Inductive Read :=
| ReadThrows
| ReadValue (v : option Stations.Value).

Definition dynamicData_of (selectedDateId : string) (stationId : option string)
  : Read :=
  match dateContent !! selectedDateId with
  | Some dateSpecificContent =>
      ReadValue (Stations.get (DateContent.stations dateSpecificContent)
                              (prop_key stationId))
  | None => if inherited selectedDateId then ReadThrows else ReadValue None
  end.

(** The body of [querySelectorAll('.station-item').forEach]. *)
Definition mark_active (stationId : option string) (item : StationItem) : StationItem :=
  {| dataset_station := dataset_station item;
     item_name := item_name item;
     item_icon := item_icon item;
     item_description := item_description item;
     active := bool_decide (Some (dataset_station item) = stationId) |}.

(** The reaction to the promise of [play] in [selectStation]. *)
Definition autoplay_settled (o : PlayOutcome) : Script :=
  match o with
  | PlayFulfilled =>
      modify (on_transport (set_window_isPlaying true)) ;;
      modify (on_transport (set_playBtn "Pause"))
  | PlayRejected =>
      emit (ConsoleLog "Auto-play was prevented:") ;;
      modify (on_transport (set_window_isPlaying false)) ;;
      modify (on_transport (set_playBtn "Play"))
  | PlayNoPromise => skip
  end.

(** [selectStation].  The map refuses a centre with a coordinate that is
    not a number: [setView] throws (Leaflet's [LatLng]).  The reaction to
    the promise of [play] was registered before that call and runs all the
    same.  [window.resetProgress] is set from
    [initializeAudioPlayer] on, and the [loadstart] event that [load] fires
    runs [resetProgress] once more, to the same effect.  A [textContent]
    set to [undefined] becomes the empty text. *)
Definition selectStation (o : PlayOutcome) (stationId : option string) : Script :=
  reading (fun s =>
    let station := find (fun st => bool_decide (Station.id st = stationId)) stations in
    let selectedDateId := selectDate (page s) in
    match dynamicData_of selectedDateId stationId with
    | ReadThrows => throw "TypeError"
    | ReadValue dynamicData =>
    match station, (if Stations.present dynamicData then dynamicData else None) with
    | Some (position, station), Some dynamicData =>
        emit (ConsoleLog ("Loading station: " ++ prop_key stationId
                          ++ ", Audio: " ++ prop_key (Stations.audioUrl dynamicData))) ;;
        (* window.currentStationEl.dataset.id = stationId, if the element is there *)
        modify (fun s =>
          match currentStationEl (page s) with
          | Some el =>
              on_page (set_currentStationEl
                (Some {| dataset_id := Some (prop_key stationId);
                         textContent := textContent el |})) s
          | None => s
          end) ;;
        modify (on_page (fun p =>
          set_stationList (fmap (map (mark_active stationId)) (stationList p)) p)) ;;
        (* window.currentStationEl.textContent = station.name *)
        reading (fun s =>
          match currentStationEl (page s) with
          | Some el =>
              modify (on_page (set_currentStationEl
                (Some {| dataset_id := dataset_id el;
                         textContent := default "" (Station.name station) |})))
          | None => throw "TypeError"
          end) ;;
        modify (on_page (set_stationDescriptionEl
                           (default "" (Stations.description dynamicData)))) ;;
        modify (on_audio (set_src (prop_key (Stations.audioUrl dynamicData)))) ;;
        modify (on_audio (set_loop true)) ;;
        emit AudioLoad ;;
        Player.resetProgress ;;
        modify (on_audio (set_src (prop_key (Stations.audioUrl dynamicData)))) ;;
        emit AudioLoad ;;
        emit (AudioOnceError (prop_key (Stations.audioUrl dynamicData))) ;;
        modify (on_audio (set_currentTime 0)) ;;
        emit AudioPlay ;;
        reacting
          (if isNaN (Station.lat station) || isNaN (Station.lng station)
           then throw "Error"
           else
             emit (MapSetView (Station.lat station) (Station.lng station) 12) ;;
             emit (MarkerOpenPopup position))
          (autoplay_settled o)
    | _, _ =>
        emit (ConsoleWarn ("No data found for station " ++ prop_key stationId
                           ++ " on date " ++ selectedDateId))
    end
    end).

(** Whether [dateSpecificContent.stations[station.id]] is truthy. *)
Definition has_content (dateSpecificContent : DateContent.t) (station : Station.t) : bool :=
  Stations.present (Stations.get (DateContent.stations dateSpecificContent)
                                 (prop_key (Station.id station))).

(** The decimal text of a count. *)
Definition count_text (n : nat) : string :=
  NilEmpty.string_of_uint (Nat.to_uint n).

(** The body of [stations.forEach] in [changePanelContent].  In the
    texts built for the popup and for the item, a [description] that is
    [undefined] reads [undefined]. *)
Definition render_station (selectedDateId : string)
           (dateSpecificContent : DateContent.t)
           (position : nat) (fullStationData : Station.t) : Script :=
  let stationId := Station.id fullStationData in
  let dynamicData := Stations.get (DateContent.stations dateSpecificContent)
                                  (prop_key stationId) in
  match (if Stations.present dynamicData then dynamicData else None) with
  | None =>
      emit (ConsoleLog ("No dynamic data for station " ++ prop_key stationId
                        ++ " on date " ++ selectedDateId))
  | Some dynamicData =>
      emit (MarkerSetPopupContent position
              {| popup_name := prop_key (Station.name fullStationData);
                 popup_description := prop_key (Stations.description dynamicData);
                 popup_station := prop_key stationId |}) ;;
      modify (on_page (fun p =>
        set_stationList
          (fmap (fun items => (items ++
             [ {| dataset_station := prop_key stationId;
                  item_name := prop_key (Station.name fullStationData);
                  item_icon := prop_key (Station.icon fullStationData);
                  item_description := prop_key (Stations.description dynamicData);
                  active := false |} ])%list)
             (stationList p)) p))
  end.

(** The end of [changePanelContent]: maintain the current station
    selection or select the first station available. *)
Definition maintain_selection (o : PlayOutcome)
           (dateSpecificContent : DateContent.t) : Script :=
  reading (fun s =>
    let currentlySelectedId := selectedStationId s in
    if truthy currentlySelectedId
       && Stations.present (Stations.get (DateContent.stations dateSpecificContent)
                                         (prop_key currentlySelectedId))
    then selectStation o currentlySelectedId
    else if (0 <? length stations)%nat then
      match find (has_content dateSpecificContent) stations with
      | Some (_, firstStationWithData) =>
          selectStation o (Station.id firstStationWithData)
      | None => skip
      end
    else skip).

(** [changePanelContent] from the station list on, when the value read
    as [dateSpecificContent] is one that [dateContent] inherits: its
    [stations] is [undefined], and every read [stations[...]] throws. *)
Definition render_without_stations (selectedDateId : string) : Script :=
  reading (fun s =>
    match stationList (page s) with
    | None => emit (ConsoleError "Station list div not found!")
    | Some _ =>
        modify (on_page (set_stationList (Some []))) ;;
        forEach stations (fun _ _ => throw "TypeError") ;;
        emit (ConsoleLog ("Found " ++ count_text 0
                          ++ " stations with content for " ++ selectedDateId)) ;;
        reading (fun s =>
          if truthy (selectedStationId s) then throw "TypeError"
          else if (0 <? length stations)%nat then throw "TypeError"
          else skip)
    end).

(** [changePanelContent].  Under a name that [dateContent] inherits and
    does not own, the value read is truthy, and its [title], [context]
    and [stations] are [undefined]; a [textContent] set to [undefined]
    becomes the empty text. *)
Definition changePanelContent (o : PlayOutcome) : Script :=
  reading (fun s =>
    let selectedDateId := selectDate (page s) in
    match dateContent !! selectedDateId with
    | None =>
        if inherited selectedDateId then
          emit (ConsoleLog ("Loading content for " ++ selectedDateId ++ ":")) ;;
          modify (on_page (fun p =>
            set_context
              (fmap (fun _ => "Events of " ++ Text.replace "Feb" "February " selectedDateId)
                    (infoSection p))
              (fmap (fun _ => "") (contextTitle p))
              (fmap (fun _ => "") (contextText p))
              p)) ;;
          render_without_stations selectedDateId
        else
          emit (ConsoleWarn ("No content found for date: " ++ selectedDateId)) ;;
          emit (ConsoleLog "Available dateContent:")
    | Some dateSpecificContent =>
        emit (ConsoleLog ("Loading content for " ++ selectedDateId ++ ":")) ;;
        modify (on_page (fun p =>
          set_context
            (fmap (fun _ => "Events of " ++ Text.replace "Feb" "February " selectedDateId)
                  (infoSection p))
            (fmap (fun _ => DateContent.title dateSpecificContent) (contextTitle p))
            (fmap (fun _ => DateContent.context dateSpecificContent) (contextText p))
            p)) ;;
        reading (fun s =>
          match stationList (page s) with
          | None => emit (ConsoleError "Station list div not found!")
          | Some _ =>
              modify (on_page (set_stationList (Some []))) ;;
              forEach stations (render_station selectedDateId dateSpecificContent) ;;
              emit (ConsoleLog ("Found "
                      ++ count_text (length (List.filter (has_content dateSpecificContent) stations))
                      ++ " stations with content for " ++ selectedDateId)) ;;
              maintain_selection o dateSpecificContent
          end)
    end).

(** The [change] event of the date selector: the browser has stored the
    chosen value [date] in the control, then the listener runs. *)
Definition selectDate_change (o : PlayOutcome) (date : string) : Script :=
  modify (on_page (set_selectDate date)) ;;
  changePanelContent o.

(** The body of [stations.forEach] in [initializeApplication]: a marker
    for the station.  The map library refuses a position with a
    coordinate that is not a number: [L.marker] throws (Leaflet's
    [LatLng]). *)
Definition add_marker (position : nat) (station : Station.t) : Script :=
  if isNaN (Station.lat station) || isNaN (Station.lng station)
  then throw "Error"
  else emit (MarkerAddTo position).

(** [initializeApplication]: the markers, the player, the date selector
    with its default, the first rendering. *)
Definition initializeApplication (o : PlayOutcome) : Script :=
  forEach stations add_marker ;;
  Player.initializeAudioPlayer ;;
  modify (on_page (set_selectDate "Feb22")) ;;
  changePanelContent o.

End Selection.

(** ** Vocabulary of the statements *)

(** Whether the character [c] occurs in [s]. *)
Fixpoint occurs (c : ascii) (s : string) : bool :=
  match s with
  | EmptyString => false
  | String c' rest => Ascii.eqb c' c || occurs c rest
  end.

(** A string wrapped in double-quote characters. *)
Definition quoted (s : string) : string :=
  String Csv.quote (s ++ String Csv.quote "").


(** The commas of a row that stand outside the quoted regions, a
    double-quote character opening or closing a region. *)
Fixpoint unquoted_commas (inQuotes : bool) (row : string) : nat :=
  match row with
  | EmptyString => 0
  | String c rest =>
      if Ascii.eqb c Csv.quote then unquoted_commas (negb inQuotes) rest
      else if Ascii.eqb c Csv.comma && negb inQuotes then S (unquoted_commas inQuotes rest)
      else unquoted_commas inQuotes rest
  end.

(** A field value [f] as a row of the table carries it: wrapped in
    double-quote characters, or bare when it holds no comma. *)
Definition written (f w : string) : Prop :=
  w = quoted f \/ (w = f /\ occurs Csv.comma f = false).

(** A field value with each of its double-quote characters written
    twice, the way a table writes a quote inside a wrapped field; and the
    value without its double-quote characters. *)
Fixpoint doubled (f : string) : string :=
  match f with
  | EmptyString => EmptyString
  | String c rest =>
      if Ascii.eqb c Csv.quote then String c (String c (doubled rest))
      else String c (doubled rest)
  end.

Fixpoint without_quotes (f : string) : string :=
  match f with
  | EmptyString => EmptyString
  | String c rest =>
      if Ascii.eqb c Csv.quote then without_quotes rest
      else String c (without_quotes rest)
  end.

(** A field value [f] as a row of the table records it: wrapped in
    double-quote characters, its own quotes doubled, or bare when it holds
    neither a comma nor a quote. *)
Definition recorded (f w : string) : Prop :=
  w = quoted (doubled f)
  \/ (w = f /\ occurs Csv.comma f = false /\ occurs Csv.quote f = false).

(** The names of the header row of a table, and the texts of its data
    rows: the locals [propertyNames] and [csvRows[1..]] of [csvToObjects]. *)
Definition header_names (csv : string) : list string :=
  Csv.csvSplit (hd "" (Csv.split Csv.newline csv)).

Definition data_rows (csv : string) : list string :=
  tl (Csv.split Csv.newline csv).

(** The grammar of numeric text that [parseFloat] reads (ECMA-262, 7.1.4.1). *)

Fixpoint all_digits (s : string) : bool :=
  match s with
  | EmptyString => true
  | String c rest => Text.is_digit c && all_digits rest
  end.

Definition DecimalDigits (s : string) : Prop :=
  s <> "" /\ all_digits s = true.

Definition optional (P : string -> Prop) (s : string) : Prop :=
  s = "" \/ P s.

Inductive ExponentPart : string -> Prop :=
| ExponentPart_intro (indicator : ascii) (sign ds : string) :
    (indicator = "e" \/ indicator = "E")%char ->
    (sign = "" \/ sign = "+" \/ sign = "-") ->
    DecimalDigits ds ->
    ExponentPart (String indicator (sign ++ ds)).

Inductive StrUnsignedDecimalLiteral : string -> Prop :=
| Literal_Infinity :
    StrUnsignedDecimalLiteral "Infinity"
| Literal_int_dot (int frac e : string) :
    DecimalDigits int -> optional DecimalDigits frac -> optional ExponentPart e ->
    StrUnsignedDecimalLiteral (int ++ "." ++ frac ++ e)
| Literal_dot_frac (frac e : string) :
    DecimalDigits frac -> optional ExponentPart e ->
    StrUnsignedDecimalLiteral ("." ++ frac ++ e)
| Literal_int (int e : string) :
    DecimalDigits int -> optional ExponentPart e ->
    StrUnsignedDecimalLiteral (int ++ e).

Inductive StrDecimalLiteral : string -> Prop :=
| Literal_unsigned (u : string) :
    StrUnsignedDecimalLiteral u -> StrDecimalLiteral u
| Literal_plus (u : string) :
    StrUnsignedDecimalLiteral u -> StrDecimalLiteral ("+" ++ u)
| Literal_minus (u : string) :
    StrUnsignedDecimalLiteral u -> StrDecimalLiteral ("-" ++ u).

(** The text [s], white space at its start set aside, begins with a
    decimal literal. *)
Definition begins_with_literal (s : string) : Prop :=
  exists literal rest,
    Text.trimStart s = literal ++ rest /\ StrDecimalLiteral literal.

(** The sheets as [loadAllTabs] assembles them: the table of each tab of
    [sheetTabs], parsed from its text. *)
Definition allSheets_of (texts : list string) : gmap string (list (gmap string string)) :=
  foldl (fun allSheets '(tab, csvText) => <[tab := Csv.csvToObjects csvText]> allSheets)
        ∅ (zip sheetTabs texts).

(** A spreadsheet of two stations, the first with stray letters after its
    latitude.  The first date has content for the first station only, the
    second date for the second station only, the third date for both and
    the fourth date for none. *)
Definition master_text : string :=
  "id,name,lat,lng,description,icon"
  ++ String Csv.newline "s1,DZRH,14.5abc,120.98,News,dzrh.png"
  ++ String Csv.newline "s2,DZBB,14.63,121.04,Talk,dzbb.png".

Definition feb22_text : string :=
  "id,description,audioUrl" ++ String Csv.newline "s1,On air,feb22-1.mp3".

Definition feb23_text : string :=
  "id,description,audioUrl" ++ String Csv.newline "s2,Silenced,feb23-2.mp3".

Definition feb24_text : string :=
  "id,description,audioUrl"
  ++ String Csv.newline "s1,Back on air,feb24-1.mp3"
  ++ String Csv.newline "s2,Seized,feb24-2.mp3".

Definition feb25_text : string := "id,description,audioUrl".

Definition sample_sheets : gmap string (list (gmap string string)) :=
  allSheets_of [master_text; feb22_text; feb23_text; feb24_text; feb25_text].

Definition sample_stations : list Station.t :=
  default [] (fst <$> Transform.transformSheetData sample_sheets).

Definition sample_dateContent : gmap string DateContent.t :=
  default ∅ (snd <$> Transform.transformSheetData sample_sheets).

(** The same sheets with a master sheet whose first station carries the
    identifier [constructor], a name that every plain object inherits. *)
Definition master_text_constructor : string :=
  "id,name,lat,lng,description,icon"
  ++ String Csv.newline "constructor,DZXL,14.60,121.00,Music,dzxl.png"
  ++ String Csv.newline "s1,DZRH,14.5,120.98,News,dzrh.png".

Definition constructor_sheets : gmap string (list (gmap string string)) :=
  allSheets_of [master_text_constructor; feb22_text; feb23_text; feb24_text; feb25_text].

Definition constructor_stations : list Station.t :=
  default [] (fst <$> Transform.transformSheetData constructor_sheets).

Definition constructor_dateContent : gmap string DateContent.t :=
  default ∅ (snd <$> Transform.transformSheetData constructor_sheets).

Definition station_s1 : Station.t :=
  {| Station.id := Some "s1"; Station.name := Some "DZRH";
     Station.lat := Decimal false 145 (-1);
     Station.lng := Decimal false 12098 (-2);
     Station.description := Some "News"; Station.icon := Some "dzrh.png" |}.

Definition station_s2 : Station.t :=
  {| Station.id := Some "s2"; Station.name := Some "DZBB";
     Station.lat := Decimal false 1463 (-2);
     Station.lng := Decimal false 12104 (-2);
     Station.description := Some "Talk"; Station.icon := Some "dzbb.png" |}.

(** The stations that a run selected: the positions in the roster of the
    markers whose popup it opened, in order.  [selectStation] opens the
    popup of the station it selects, and nothing else opens one. *)
Definition selected_by (out : list Effect) : list nat :=
  omap (fun e => match e with MarkerOpenPopup position => Some position | _ => None end) out.

(** The entry that a read [stations[name]] yields, when it yields an
    entry: an own property of the mapping, or its prototype read under
    [__proto__]. *)
Definition filed_entry (stations : Stations.t) (name : string) : option Entry.t :=
  match Stations.get stations name with
  | Some (Stations.EntryValue entry) => Some entry
  | _ => None
  end.

(** The entry that the station mapping of a date holds for the
    identifier [c]: an own property of the mapping. *)
Definition entry_under (dateSpecificContent : DateContent.t) (c : string)
  : option Entry.t :=
  Stations.own (DateContent.stations dateSpecificContent) !! c.

(** The entry for [c] under the date [date] of [dateContent]. *)
Definition entry_on (dateContent : gmap string DateContent.t) (date c : string)
  : option Entry.t :=
  match dateContent !! date with
  | Some dateSpecificContent => entry_under dateSpecificContent c
  | None => None
  end.

(** A read of [c] in the station mapping of a date yields what the
    mapping holds for [c], an entry or nothing: nothing is read through
    the prototype. *)
Definition reads_own (dateSpecificContent : DateContent.t) (c : string) : Prop :=
  Stations.get (DateContent.stations dateSpecificContent) c
  = Stations.EntryValue <$> entry_under dateSpecificContent c.

(** No identifier of the roster is read through the prototype of a
    station mapping, under any date. *)
Definition plain_roster (stations : list Station.t)
           (dateContent : gmap string DateContent.t) : Prop :=
  forall station date dateSpecificContent,
    station ∈ stations ->
    dateContent !! date = Some dateSpecificContent ->
    reads_own dateSpecificContent (prop_key (Station.id station)).

(** Every station of the roster can be placed on the map: its
    coordinates are numbers. *)
Definition has_position (station : Station.t) : Prop :=
  isNaN (Station.lat station) || isNaN (Station.lng station) = false.

Definition placed (stations : list Station.t) : Prop :=
  Forall has_position stations.

(** The station at [position] is the first of the roster, in roster order,
    with an entry in the station mapping of a date. *)
Definition first_with_content (stations : list Station.t)
           (dateSpecificContent : DateContent.t)
           (position : nat) (station : Station.t) : Prop :=
  stations !! position = Some station
  /\ is_Some (entry_under dateSpecificContent (prop_key (Station.id station)))
  /\ forall j earlier,
       j < position -> stations !! j = Some earlier ->
       entry_under dateSpecificContent (prop_key (Station.id earlier)) = None.

(** No station of the roster has an entry under the date [date]. *)
Definition no_station_qualifies (stations : list Station.t)
           (dateContent : gmap string DateContent.t) (date : string) : Prop :=
  forall station, station ∈ stations ->
                  entry_on dateContent date (prop_key (Station.id station)) = None.

(** A run that comes after the output [out] of an earlier part. *)
Definition after_output (out : list Effect) (r : Completion * State * list Effect)
  : Completion * State * list Effect :=
  (completion r, state_after r, (out ++ effects r)%list).

(** The item of the station list for a station with content on a date. *)
Definition rendered_item (dateSpecificContent : DateContent.t) (station : Station.t)
  : option StationItem :=
  let dynamicData := Stations.get (DateContent.stations dateSpecificContent)
                                  (prop_key (Station.id station)) in
  match (if Stations.present dynamicData then dynamicData else None) with
  | Some dynamicData =>
      Some {| dataset_station := prop_key (Station.id station);
              item_name := prop_key (Station.name station);
              item_icon := prop_key (Station.icon station);
              item_description := prop_key (Stations.description dynamicData);
              active := false |}
  | None => None
  end.

(** The page once [changePanelContent] has rendered a date: the texts of
    the context and the station list, made of the stations of the roster
    with content on that date, in roster order. *)
Definition rendered_page (stations : list Station.t)
           (dateSpecificContent : DateContent.t) (s : State) : State :=
  on_page (fun p =>
    set_stationList (Some (omap (rendered_item dateSpecificContent) stations))
      (set_context
         (fmap (fun _ => "Events of " ++ Text.replace "Feb" "February " (selectDate p))
               (infoSection p))
         (fmap (fun _ => DateContent.title dateSpecificContent) (contextTitle p))
         (fmap (fun _ => DateContent.context dateSpecificContent) (contextText p))
         p)) s.

(** The user's actions on the selection: a date chosen in the date
    selector, a request to select a station (a click on a marker, on an
    item of the station list or on the button of a popup). *)
Inductive Event :=
| DateChosen (date : string)
| StationRequested (stationId : option string).

Definition handle (stations : list Station.t) (dateContent : gmap string DateContent.t)
           (o : PlayOutcome) (e : Event) : Script :=
  match e with
  | DateChosen date => selectDate_change stations dateContent o date
  | StationRequested stationId => selectStation stations dateContent o stationId
  end.

(** The states of the running application: the state in which
    [initializeApplication] leaves a page that has its station list and no
    station selected yet, and every state that a user's action leads to
    from there. *)
Inductive Ready (stations : list Station.t) (dateContent : gmap string DateContent.t)
  : State -> Prop :=
| Ready_initial (s0 : State) (o : PlayOutcome) :
    is_Some (stationList (page s0)) ->
    selectedStationId s0 = None ->
    Ready stations dateContent
          (state_after (initializeApplication stations dateContent o s0))
| Ready_after (s : State) (o : PlayOutcome) (e : Event) :
    Ready stations dateContent s ->
    Ready stations dateContent (state_after (handle stations dateContent o e s)).

(** The property kept by every action: the page has its station list,
    and the selected identifier, if any, has an entry under the selected
    date unless no station of the roster has one. *)
Definition selection_consistent (stations : list Station.t)
           (dateContent : gmap string DateContent.t) (s : State) : Prop :=
  is_Some (stationList (page s))
  /\ forall c,
       selectedStationId s = Some c ->
       is_Some (entry_on dateContent (selectDate (page s)) c)
       \/ no_station_qualifies stations dateContent (selectDate (page s)).


(** A player at rest, as [initializeAudioPlayer] leaves it, at a given
    volume. *)
Definition player_at_rest (v : float) : State :=
  {| page := {| selectDate := "Feb22"; currentStationEl := Some {| dataset_id := None; textContent := "" |};
                stationDescriptionEl := ""; infoSection := Some ""; contextTitle := Some "";
                contextText := Some ""; stationList := Some [] |};
     audio := {| src := ""; loop := false; volume := v; currentTime := 0 |};
     transport := {| playBtn := "Play"; window_isPlaying := false; isPlaying := false;
                     progress := {| bar_width := "0%"; handle_left := "0px";
                                    current_time := "0:00"; duration := "0:00" |} |};
     volumeControl := {| volumeBtn := IconHigh; volumeSlider := v;
                         volumePanel := {| opacity := "0"; visibility := "hidden";
                                           transform := "translateY(10px)" |};
                         volumePanelTimeout := None; isMuted := false; lastVolume := 1 |} |}.

(** The sample application once started on a page at rest (the first
    station is selected under the default date), and the same with the
    date selector moved to another date. *)
Definition sample_ready : State :=
  state_after (initializeApplication sample_stations sample_dateContent
                                     PlayRejected (player_at_rest 1)).

Definition sample_on (date : string) : State :=
  on_page (set_selectDate date) sample_ready.

(** The line feeds of a text. *)
Fixpoint line_feeds (s : string) : nat :=
  match s with
  | EmptyString => 0
  | String c rest =>
      if Ascii.eqb c Csv.newline then S (line_feeds rest) else line_feeds rest
  end.

(** *** The date selector: [setupDateSelector]

    The options that [setupDateSelector] appends to the emptied selector,
    one for each tab other than the master tab, in the order of
    [sheetTabs]; the value it then gives the selector is [Feb22]. *)
Record DateOption := { option_value : string; option_text : string }.

Definition setupDateSelector_options : list DateOption :=
  foldl (fun options tabName =>
           if String.eqb tabName "Master" then options
           else (options ++ [ {| option_value := tabName;
                                 option_text := "February " ++ Text.replace "Feb" "" tabName |} ])%list)
        [] sheetTabs.

(** The identifier [c] is the one that a station of the roster carries,
    as a property name. *)
Definition names_a_station (stations : list Station.t) (c : string) : Prop :=
  exists station, station ∈ stations /\ prop_key (Station.id station) = c.

(** What can happen to the transport once the player is set up: a click
    on the play button, or the end of the track, each with the answer of
    the platform to the call of [play] that it makes. *)
Inductive TransportEvent :=
| PlayClicked (o : PlayOutcome)
| TrackEnded (o : PlayOutcome).

Definition transport_handle (e : TransportEvent) : Script :=
  match e with
  | PlayClicked o => Player.playBtn_click o
  | TrackEnded o => Player.audio_ended o
  end.

(** The state after the listeners of the events [es] ran one after the
    other, whether they ended normally or by an exception. *)
Definition after_events (es : list TransportEvent) (s : State) : State :=
  foldl (fun s e => state_after (transport_handle e s)) s es.

(** The label of the play button is the one for the value of the variable
    [isPlaying]. *)
Definition label_follows_flag (s : State) : Prop :=
  playBtn (transport s) = if isPlaying (transport s) then "Pause" else "Play".

(** * Properties *)

(** ** Examples *)

Example csvSplit_quoted :
  Csv.csvSplit ("s1," ++ quoted "Quezon City, Manila" ++ ",14.6")
  = ["s1"; "Quezon City, Manila"; "14.6"].
Proof. reflexivity. Qed.

Example csvToObjects_trailing :
  Csv.csvToObjects ("a,b" ++ String Csv.newline "1,2" ++ String Csv.newline "")
  = [ <["b":="2"]> (<["a":="1"]> ∅) ; <["a":=""]> ∅ ].
Proof. vm_compute. reflexivity. Qed.

Example parseFloat_examples :
  parseFloat (Some "14.5995") = Decimal false 145995 (-4)
  /\ parseFloat (Some "  -120.98e1xyz") = Decimal true 12098 (-1)
  /\ parseFloat (Some "14.5abc") = Decimal false 145 (-1)
  /\ parseFloat (Some ".5") = Decimal false 5 (-1)
  /\ parseFloat (Some "5.") = Decimal false 5 0
  /\ parseFloat (Some "1e") = Decimal false 1 0
  /\ parseFloat (Some "-Infinityx") = Infinity true
  /\ parseFloat (Some ".") = NaN
  /\ parseFloat (Some "abc") = NaN
  /\ parseFloat (Some "") = NaN
  /\ parseFloat None = NaN
  /\ numeric_text "14.5abc" = false
  /\ numeric_text " 14.5 " = true.
Proof. repeat split; reflexivity. Qed.

(** ** Strings *)

Lemma string_app_cons (x : ascii) (a b : string) :
  String x a ++ b = String x (a ++ b).
Proof. reflexivity. Qed.

Lemma string_app_nil_l (a : string) : "" ++ a = a.
Proof. reflexivity. Qed.

Lemma string_app_assoc (a b c : string) : (a ++ b) ++ c = a ++ (b ++ c).
Proof.
  induction a as [|x a IH]; [reflexivity|].
  rewrite !string_app_cons. now rewrite IH.
Qed.

Lemma string_app_nil_r (a : string) : a ++ "" = a.
Proof.
  induction a as [|x a IH]; [reflexivity|].
  rewrite string_app_cons. now rewrite IH.
Qed.

Lemma string_app_snoc (a : string) (c : ascii) (b : string) :
  (a ++ String c "") ++ b = a ++ String c b.
Proof. now rewrite string_app_assoc. Qed.

(** ** The row parser *)

Section CsvSplit.
Import Csv.

(** Characters other than the quote are appended to the field being
    read while the parser is inside a quoted region. *)
Lemma csvSplit_loop_in_quotes (f rest : string) result currentField :
  occurs quote f = false ->
  csvSplit_loop (f ++ rest) result true currentField
  = csvSplit_loop rest result true (currentField ++ f).
Proof.
  revert currentField.
  induction f as [|c f IH]; intros cur Hq.
  - now rewrite string_app_nil_r.
  - rewrite string_app_cons. simpl in *.
    apply orb_false_elim in Hq as [Hc Hq].
    rewrite Hc, andb_false_r, IH by assumption.
    now rewrite string_app_snoc.
Qed.

(** Outside a quoted region the same holds of characters that are
    neither the quote nor the comma. *)
Lemma csvSplit_loop_bare (f rest : string) result currentField :
  occurs quote f = false ->
  occurs comma f = false ->
  csvSplit_loop (f ++ rest) result false currentField
  = csvSplit_loop rest result false (currentField ++ f).
Proof.
  revert currentField.
  induction f as [|c f IH]; intros cur Hq Hc.
  - now rewrite string_app_nil_r.
  - rewrite string_app_cons. simpl in *.
    apply orb_false_elim in Hq as [Hq1 Hq].
    apply orb_false_elim in Hc as [Hc1 Hc].
    rewrite Hq1, Hc1. simpl. rewrite IH by assumption.
    now rewrite string_app_snoc.
Qed.

Lemma csvSplit_loop_written (f w rest : string) result currentField :
  occurs quote f = false ->
  written f w ->
  csvSplit_loop (w ++ rest) result false currentField
  = csvSplit_loop rest result false (currentField ++ f).
Proof.
  intros Hq [-> | [-> Hc]].
  - unfold quoted. rewrite string_app_cons, string_app_assoc.
    simpl csvSplit_loop at 1.
    rewrite csvSplit_loop_in_quotes by assumption.
    rewrite string_app_cons. reflexivity.
  - now apply csvSplit_loop_bare.
Qed.

Lemma csvSplit_loop_row (fs ws : list string) result :
  fs <> [] ->
  Forall (fun f => occurs quote f = false) fs ->
  Forall2 written fs ws ->
  csvSplit_loop (String.concat "," ws) result false "" = (result ++ fs)%list.
Proof.
  intros Hne Hq Hw. revert result Hne Hq.
  induction Hw as [|f w fs ws Hfw Hw IH]; intros result Hne Hq; [done|].
  apply Forall_cons in Hq as [Hqf Hq].
  destruct Hw as [|f' w' fs' ws' Hfw' Hw'].
  - simpl String.concat. rewrite <- (string_app_nil_r w).
    now rewrite (csvSplit_loop_written f w) by assumption.
  - change (String.concat "," (w :: w' :: ws'))
      with (w ++ String comma (String.concat "," (w' :: ws'))).
    rewrite (csvSplit_loop_written f w) by assumption.
    rewrite string_app_nil_l.
    simpl csvSplit_loop at 1.
    rewrite IH by (assumption || done).
    now rewrite <- app_assoc.
Qed.

(** A row written from the fields [fs] is split back into [fs]. *)
Lemma csvSplit_row (fs ws : list string) :
  fs <> [] ->
  Forall (fun f => occurs quote f = false) fs ->
  Forall2 written fs ws ->
  csvSplit (String.concat "," ws) = fs.
Proof. intros. unfold csvSplit. now rewrite (csvSplit_loop_row fs). Qed.

Lemma csvSplit_loop_cons (c : ascii) (rest : string) result inQuotes currentField :
  csvSplit_loop (String c rest) result inQuotes currentField
  = if Ascii.eqb c quote then csvSplit_loop rest result (negb inQuotes) currentField
    else if Ascii.eqb c comma && negb inQuotes
         then csvSplit_loop rest (result ++ [currentField]) inQuotes ""
         else csvSplit_loop rest result inQuotes (currentField ++ String c "").
Proof. reflexivity. Qed.

(** Inside a quoted region, a value whose quotes are doubled adds its
    characters other than the quotes to the field, and the region stays
    open. *)
Lemma csvSplit_loop_doubled (f rest : string) result currentField :
  csvSplit_loop (doubled f ++ rest) result true currentField
  = csvSplit_loop rest result true (currentField ++ without_quotes f).
Proof.
  revert currentField.
  induction f as [|c f IH]; intros cur.
  - simpl. now rewrite string_app_nil_l, string_app_nil_r.
  - simpl doubled. simpl without_quotes.
    destruct (Ascii.eqb c quote) eqn:Hc.
    + rewrite !string_app_cons. rewrite !csvSplit_loop_cons, Hc.
      simpl negb. apply IH.
    + rewrite string_app_cons. rewrite csvSplit_loop_cons, Hc.
      rewrite andb_false_r. rewrite IH. now rewrite string_app_snoc.
Qed.

Lemma without_quotes_id (f : string) :
  occurs quote f = false -> without_quotes f = f.
Proof.
  induction f as [|c f IH]; [reflexivity|]. simpl.
  intros H. apply orb_false_elim in H as [-> H]. now rewrite IH.
Qed.

Lemma csvSplit_loop_recorded (f w rest : string) result currentField :
  recorded f w ->
  csvSplit_loop (w ++ rest) result false currentField
  = csvSplit_loop rest result false (currentField ++ without_quotes f).
Proof.
  intros [-> | (-> & Hc & Hq)].
  - unfold quoted. rewrite string_app_cons, string_app_assoc.
    simpl csvSplit_loop at 1.
    rewrite csvSplit_loop_doubled.
    rewrite string_app_cons. reflexivity.
  - rewrite without_quotes_id by assumption. now apply csvSplit_loop_bare.
Qed.

Lemma csvSplit_loop_recorded_row (fs ws : list string) result :
  fs <> [] ->
  Forall2 recorded fs ws ->
  csvSplit_loop (String.concat "," ws) result false ""
  = (result ++ map without_quotes fs)%list.
Proof.
  intros Hne Hw. revert result Hne.
  induction Hw as [|f w fs ws Hfw Hw IH]; intros result Hne; [done|].
  destruct Hw as [|f' w' fs' ws' Hfw' Hw'].
  - simpl String.concat. rewrite <- (string_app_nil_r w).
    rewrite (csvSplit_loop_recorded f w) by assumption.
    now rewrite string_app_nil_l.
  - change (String.concat "," (w :: w' :: ws'))
      with (w ++ String comma (String.concat "," (w' :: ws'))).
    rewrite (csvSplit_loop_recorded f w) by assumption.
    rewrite string_app_nil_l. simpl csvSplit_loop at 1.
    rewrite IH by discriminate.
    now rewrite <- app_assoc.
Qed.

(** No field handed back by the parser holds a double-quote character. *)
Lemma csvSplit_loop_no_quote (row : string) result inQuotes currentField :
  Forall (fun f => occurs quote f = false) result ->
  occurs quote currentField = false ->
  Forall (fun f => occurs quote f = false)
         (csvSplit_loop row result inQuotes currentField).
Proof.
  revert result inQuotes currentField.
  induction row as [|c row IH]; intros result inQ cur Hres Hcur; simpl.
  - apply Forall_app. split; [assumption | now constructor].
  - destruct (Ascii.eqb c quote) eqn:Hc; [now apply IH|].
    destruct (Ascii.eqb c comma && negb inQ).
    + apply IH; [|reflexivity].
      apply Forall_app. split; [assumption | now constructor].
    + apply IH; [assumption|].
      clear -Hc Hcur. induction cur as [|x cur IHc]; simpl in *.
      * now rewrite Hc.
      * apply orb_false_elim in Hcur as [-> Hcur]. now apply IHc.
Qed.

(** Whatever the row, the parser hands back one field more than the row
    has commas outside its quoted regions. *)
Lemma csvSplit_loop_length (row : string) result inQuotes currentField :
  length (csvSplit_loop row result inQuotes currentField)
  = length result + S (unquoted_commas inQuotes row).
Proof.
  revert result inQuotes currentField.
  induction row as [|c row IH]; intros result inQ cur; simpl.
  - rewrite length_app. simpl. lia.
  - destruct (Ascii.eqb c quote); [apply IH|].
    destruct (Ascii.eqb c comma && negb inQ); rewrite IH; [|reflexivity].
    rewrite length_app. simpl. lia.
Qed.

Lemma csvSplit_field_count (row : string) :
  length (csvSplit row) = S (unquoted_commas false row).
Proof. unfold csvSplit. now rewrite csvSplit_loop_length. Qed.

End CsvSplit.

(** C4, as stated, fails when the wrapped value holds a double-quote
    character of its own before its comma: the quote closes the region and
    the comma splits the field.  The one value [a], quote, [b,c], wrapped in
    quotes, is read as two fields, under a header of one name.  A quote in
    a value that is not wrapped opens a region in the same way: the two
    values [5], quote, and [x] are read as one field, under a header of two
    names. *)
Lemma wrapped_value_with_a_quote_is_split :
  (occurs Csv.comma ("a" ++ String Csv.quote "b,c") = true
   /\ Csv.csvSplit (quoted ("a" ++ String Csv.quote "b,c")) = ["ab"; "c"]
   /\ length (Csv.csvSplit (quoted ("a" ++ String Csv.quote "b,c")))
      <> length (Csv.csvSplit "name"))
  /\ (Csv.csvSplit (("5" ++ String Csv.quote "") ++ ",x") = ["5,x"]
      /\ length (Csv.csvSplit (("5" ++ String Csv.quote "") ++ ",x"))
         <> length (Csv.csvSplit "size,name")).
Proof.
  split; [split; [reflexivity|]; split; [reflexivity|]; vm_compute; lia|].
  split; [reflexivity|]. vm_compute. lia.
Qed.

(** C4, amended.  A row in which every field value that holds a comma or a
    double-quote character is wrapped in double-quote characters, each
    quote of the value being written twice, is split into exactly its
    fields, less their quotes: so into as many fields as the header row
    written in the same way from the same number of names.  Whatever the
    row, the parser hands back one field more than the row has commas
    outside its quoted regions, a double-quote character opening or closing
    a region, and never hands a double-quote character back inside a
    field. *)
Theorem quoted_commas_never_split (names hs fs ws : list string) (row : string) :
  fs <> [] ->
  length names = length fs ->
  Forall2 recorded names hs ->
  Forall2 recorded fs ws ->
  Csv.csvSplit (String.concat "," ws) = map without_quotes fs
  /\ length (Csv.csvSplit (String.concat "," ws))
     = length (Csv.csvSplit (String.concat "," hs))
  /\ length (Csv.csvSplit row) = S (unquoted_commas false row)
  /\ Forall (fun f => occurs Csv.quote f = false) (Csv.csvSplit row).
Proof.
  intros Hne Hlen Hn Hf.
  assert (names <> []) as Hne' by (destruct names, fs; done).
  assert (Csv.csvSplit (String.concat "," ws) = map without_quotes fs) as Hws.
  { unfold Csv.csvSplit. now rewrite (csvSplit_loop_recorded_row fs). }
  assert (Csv.csvSplit (String.concat "," hs) = map without_quotes names) as Hhs.
  { unfold Csv.csvSplit. now rewrite (csvSplit_loop_recorded_row names). }
  split; [exact Hws|]. split.
  - rewrite Hws, Hhs, !length_map. congruence.
  - split; [apply csvSplit_field_count|].
    apply csvSplit_loop_no_quote; [constructor | reflexivity].
Qed.

Lemma quoted_commas_never_split_witness :
  Csv.csvSplit ("s1," ++ quoted ("Quezon City, " ++ String Csv.quote (String Csv.quote "QC"))
                ++ ",14.6")
  = ["s1"; "Quezon City, QC"; "14.6"]
  /\ length (Csv.csvSplit
               ("s1," ++ quoted ("Quezon City, " ++ String Csv.quote (String Csv.quote "QC"))
                ++ ",14.6"))
     = length (Csv.csvSplit "id,name,lat").
Proof.
  pose proof (quoted_commas_never_split
                ["id"; "name"; "lat"] ["id"; "name"; "lat"]
                ["s1"; "Quezon City, " ++ String Csv.quote "QC"; "14.6"]
                ["s1"; quoted ("Quezon City, " ++ String Csv.quote (String Csv.quote "QC"));
                 "14.6"] "") as H.
  destruct H as (H1 & H2 & _).
  - discriminate.
  - reflexivity.
  - repeat constructor; right; repeat split; reflexivity.
  - constructor; [right; repeat split; reflexivity|].
    constructor; [left; reflexivity|].
    constructor; [right; repeat split; reflexivity|]. constructor.
  - split; [exact H1 | exact H2].
Defined.

(** ** Tables *)

Section CsvToObjects.
Import Csv.

Lemma csvSplit_loop_nonempty (row : string) result inQuotes currentField :
  csvSplit_loop row result inQuotes currentField <> [].
Proof.
  revert result inQuotes currentField.
  induction row as [|c row IH]; intros result inQ cur; simpl.
  - destruct result; discriminate.
  - destruct (Ascii.eqb c quote); [apply IH|].
    destruct (Ascii.eqb c comma && negb inQ); apply IH.
Qed.

Lemma csvSplit_nonempty (row : string) : csvSplit row <> [].
Proof. apply csvSplit_loop_nonempty. Qed.

Lemma split_nonempty (sep : ascii) (s : string) : split sep s <> [].
Proof.
  destruct s as [|c s]; simpl; [discriminate|].
  destruct (Ascii.eqb c sep); [discriminate|].
  destruct (split sep s); discriminate.
Qed.

(** A separator at the end of the text adds one empty last piece. *)
Lemma split_trailing (sep : ascii) (s : string) :
  split sep (s ++ String sep "") = (split sep s ++ [""])%list.
Proof.
  induction s as [|c s IH].
  - rewrite string_app_nil_l. simpl. now rewrite Ascii.eqb_refl.
  - rewrite string_app_cons. simpl.
    destruct (Ascii.eqb c sep); [now rewrite IH|].
    rewrite IH. pose proof (split_nonempty sep s) as Hne.
    destruct (split sep s); [done | reflexivity].
Qed.

(** A name that heads none of the columns of the row, from column [j]
    on, keeps the value it had. *)
Lemma fill_lookup_other (propertyNames : list string) (j : nat)
      (row : list string) (thisObject : gmap string string) (k : string) :
  (forall i, i < length row -> prop_key (propertyNames !! (j + i)) <> k) ->
  fill propertyNames j row thisObject !! k = thisObject !! k.
Proof.
  revert j thisObject.
  induction row as [|v row IH]; intros j obj Hk; simpl; [reflexivity|].
  rewrite IH.
  - unfold assign_text. destruct (String.eqb _ "__proto__"); [reflexivity|].
    apply lookup_insert_ne. specialize (Hk 0). rewrite Nat.add_0_r in Hk.
    apply Hk. simpl. lia.
  - intros i Hi. replace (S j + i) with (j + S i) by lia.
    apply Hk. simpl. lia.
Qed.

(** A name takes the value of the last column of the row that it heads. *)
Lemma fill_lookup_last (propertyNames : list string) (j : nat)
      (row : list string) (thisObject : gmap string string)
      (k : string) (i : nat) (v : string) :
  row !! i = Some v ->
  prop_key (propertyNames !! (j + i)) = k ->
  k <> "__proto__" ->
  (forall i', i < i' < length row -> prop_key (propertyNames !! (j + i')) <> k) ->
  fill propertyNames j row thisObject !! k = Some v.
Proof.
  revert j thisObject i.
  induction row as [|x row IH]; intros j obj i Hv Hk Hproto Hlast; [done|].
  destruct i as [|i]; simpl in *.
  - injection Hv as ->. rewrite Nat.add_0_r in Hk.
    rewrite fill_lookup_other.
    + rewrite Hk. unfold assign_text.
      apply String.eqb_neq in Hproto. rewrite Hproto. apply lookup_insert_eq.
    + intros i' Hi'. replace (S j + i') with (j + S i') by lia.
      apply Hlast. lia.
  - apply (IH (S j) _ i); [assumption | | assumption |].
    + now replace (S j + i) with (j + S i) by lia.
    + intros i' Hi'. replace (S j + i') with (j + S i') by lia.
      apply Hlast. lia.
Qed.

(** The name [__proto__] is never written. *)
Lemma fill_lookup_proto (propertyNames : list string) (j : nat)
      (row : list string) (thisObject : gmap string string) :
  fill propertyNames j row thisObject !! "__proto__" = thisObject !! "__proto__".
Proof.
  revert j thisObject.
  induction row as [|v row IH]; intros j obj; simpl; [reflexivity|].
  rewrite IH. unfold assign_text.
  destruct (String.eqb _ "__proto__") eqn:E; [reflexivity|].
  apply String.eqb_neq in E. now apply lookup_insert_ne.
Qed.

Lemma lookup_map {A B} (f : A -> B) (l : list A) (k : nat) :
  map f l !! k = f <$> (l !! k).
Proof.
  revert k. induction l as [|x l IH]; intros [|k]; simpl; try reflexivity.
  apply IH.
Qed.

(** The record of a data row. *)
Lemma csvToObjects_lookup (csv : string) (k : nat) (r : string) :
  data_rows csv !! k = Some r ->
  csvToObjects csv !! k = Some (fill (header_names csv) 0 (csvSplit r) ∅).
Proof.
  intros Hr. unfold csvToObjects. rewrite lookup_map.
  fold (data_rows csv). now rewrite Hr.
Qed.

Lemma header_names_first (csv : string) :
  exists first, header_names csv !! 0 = Some first.
Proof.
  pose proof (csvSplit_nonempty (hd "" (split newline csv))) as Hne.
  unfold header_names. destruct (csvSplit _) as [|first ?]; [done|].
  now exists first.
Qed.

(** The table with one more line feed at its end: the same records,
    then one record, in which the empty text was assigned to the first
    header name. *)
Lemma csvToObjects_trailing_newline (csv : string) (first : string) :
  header_names csv !! 0 = Some first ->
  csvToObjects (csv ++ String newline "")
  = (csvToObjects csv ++ [ assign_text first "" ∅ ])%list.
Proof.
  intros Hfirst. unfold csvToObjects, header_names in *.
  rewrite split_trailing.
  pose proof (split_nonempty newline csv) as Hne.
  destruct (split newline csv) as [|h rows]; [done|].
  simpl hd in *. simpl tl. rewrite map_app. f_equal.
  change (csvSplit "") with [""]. simpl. now rewrite Hfirst.
Qed.

End CsvToObjects.




(** C10, as stated, fails for two names.  Under the header
    [undefined,x,undefined] the row [1,2,3,4] reaches a column beyond the
    header, which is filed under [undefined] too: the record binds
    [undefined] to [4], not to [3], the value of the last column that the
    header names so.  And under the header [__proto__,__proto__] the record
    of the row [1,2] binds [__proto__] to nothing. *)
Lemma duplicate_undefined_or_proto_is_not_last_column :
  (header_names ("undefined,x,undefined" ++ String Csv.newline "1,2,3,4")
   = ["undefined"; "x"; "undefined"]
   /\ Csv.csvSplit "1,2,3,4" !! 2 = Some "3"
   /\ exists record : gmap string string,
        Csv.csvToObjects ("undefined,x,undefined" ++ String Csv.newline "1,2,3,4") !! 0
        = Some record
        /\ record !! "undefined" = Some "4")
  /\ (header_names ("__proto__,__proto__" ++ String Csv.newline "1,2")
      = ["__proto__"; "__proto__"]
      /\ exists record : gmap string string,
           Csv.csvToObjects ("__proto__,__proto__" ++ String Csv.newline "1,2") !! 0
           = Some record
           /\ record !! "__proto__" = None).
Proof.
  split.
  - split; [reflexivity|]. split; [reflexivity|].
    eexists. split; [reflexivity|]. vm_compute. reflexivity.
  - split; [reflexivity|].
    eexists. split; [reflexivity|]. vm_compute. reflexivity.
Qed.

(** C10, amended.  A column of a row is filed under the name that heads it,
    and under the name [undefined] when it lies beyond the header.  When
    several columns of a row are filed under the same name, other than
    [__proto__], the record of the row binds that name to the value of the
    last of those columns, whatever the earlier ones held, and to that
    value only.  The name [__proto__] is bound in no record. *)
Theorem duplicate_header_last_wins
        (csv : string) (k : nat) (r : string) (n : string) (j : nat) (v : string) :
  data_rows csv !! k = Some r ->
  prop_key (header_names csv !! j) = n ->
  Csv.csvSplit r !! j = Some v ->
  (forall j', j < j' < length (Csv.csvSplit r) ->
              prop_key (header_names csv !! j') <> n) ->
  exists record : gmap string string,
    Csv.csvToObjects csv !! k = Some record
    /\ record !! "__proto__" = None
    /\ (n <> "__proto__" ->
        record !! n = Some v /\ (forall v', record !! n = Some v' -> v' = v)).
Proof.
  intros Hr Hn Hv Hlast.
  exists (Csv.fill (header_names csv) 0 (Csv.csvSplit r) ∅).
  split; [apply csvToObjects_lookup; exact Hr|].
  split; [rewrite fill_lookup_proto; apply lookup_empty|].
  intros Hproto.
  assert (Csv.fill (header_names csv) 0 (Csv.csvSplit r) ∅ !! n = Some v) as Hrec.
  { apply (fill_lookup_last _ 0 _ _ n j v); [assumption | exact Hn | exact Hproto |].
    intros j' Hj'. now apply Hlast. }
  split; [exact Hrec|]. intros v' Hv'. congruence.
Qed.

Lemma duplicate_header_last_wins_witness :
  exists record : gmap string string,
    Csv.csvToObjects ("id,name,id" ++ String Csv.newline "s1,DZRH,s2,more") !! 0
    = Some record
    /\ record !! "id" = Some "s2"
    /\ record !! "__proto__" = None.
Proof.
  destruct (duplicate_header_last_wins
              ("id,name,id" ++ String Csv.newline "s1,DZRH,s2,more")
              0 "s1,DZRH,s2,more" "id" 2 "s2") as (record & H1 & H2 & H3).
  - reflexivity.
  - reflexivity.
  - reflexivity.
  - intros j' Hj'. change (length (Csv.csvSplit "s1,DZRH,s2,more")) with 4 in Hj'.
    assert (j' = 3) as -> by lia. vm_compute. discriminate.
  - exists record. split; [exact H1|]. split; [|exact H2].
    apply H3. discriminate.
Defined.

(** ** Numeric text *)

Section ParseFloat.
Import Text.

Lemma strip_prefix_Some (p s after : string) :
  strip_prefix p s = Some after <-> s = p ++ after.
Proof.
  revert s. induction p as [|a p IH]; intros s.
  - rewrite string_app_nil_l. simpl. split; congruence.
  - rewrite string_app_cons. destruct s as [|b s]; simpl; [split; discriminate|].
    destruct (Ascii.eqb_spec a b) as [->|Hne].
    + rewrite IH. split; congruence.
    + split; [discriminate | congruence].
Qed.

Lemma strip_prefix_char (a b : ascii) (s : string) :
  strip_prefix (String a "") (String b s)
  = if Ascii.eqb a b then Some s else None.
Proof. unfold strip_prefix. now destruct (Ascii.eqb a b). Qed.

Lemma span_digits_spec (s : string) :
  s = (span_digits s).1 ++ (span_digits s).2
  /\ all_digits (span_digits s).1 = true.
Proof.
  induction s as [|c s [IH1 IH2]]; simpl; [done|].
  destruct (is_digit c) eqn:Hc; [|done].
  destruct (span_digits s) as [ds after]. simpl in *.
  rewrite string_app_cons, Hc. split; [congruence | assumption].
Qed.

(** The digits at the start of [ds ++ rest] include [ds]. *)
Lemma span_digits_app (ds rest : string) :
  all_digits ds = true ->
  (span_digits (ds ++ rest)).1 = ds ++ (span_digits rest).1.
Proof.
  induction ds as [|c ds IH]; intros Hds.
  - now rewrite !string_app_nil_l.
  - rewrite !string_app_cons. simpl in *.
    apply andb_true_iff in Hds as [Hc Hds]. rewrite Hc.
    specialize (IH Hds). destruct (span_digits (ds ++ rest)). simpl in *.
    now rewrite IH.
Qed.

Lemma eqb_empty_false (c : ascii) (s : string) : String.eqb (String c s) "" = false.
Proof. reflexivity. Qed.

Lemma exponent_part_spec (s : string) (e : Z) (after : string) :
  exponent_part s = Some (e, after) ->
  exists ep, s = ep ++ after /\ ExponentPart ep.
Proof.
  destruct s as [|c rest]; simpl; [discriminate|].
  destruct (Ascii.eqb c "e" || Ascii.eqb c "E") eqn:Hc; [|discriminate].
  assert (c = "e" \/ c = "E")%char as Hind.
  { apply orb_true_iff in Hc as [Hc | Hc]; apply Ascii.eqb_eq in Hc; auto. }
  assert (forall sign unsigned,
             rest = sign ++ unsigned ->
             (sign = "" \/ sign = "+" \/ sign = "-") ->
             (let '(ds, after0) := span_digits unsigned in
              if String.eqb ds "" then None
              else Some (e, after0)) = Some (e, after) ->
             exists ep, String c rest = ep ++ after /\ ExponentPart ep) as Hcore.
  { intros sign unsigned -> Hsign Hparse.
    destruct (span_digits_spec unsigned) as [Hsplit Hds].
    destruct (span_digits unsigned) as [ds after0]. simpl in *.
    destruct ds as [|d ds]; [discriminate|].
    rewrite eqb_empty_false in Hparse. injection Hparse as <-.
    exists (String c (sign ++ String d ds)). split.
    - rewrite string_app_cons, string_app_assoc. now rewrite <- Hsplit.
    - constructor; [assumption | assumption | split; [discriminate | assumption]]. }
  intros Hparse.
  destruct rest as [|sign rest'].
  - apply (Hcore "" ""); [reflexivity | auto |].
    simpl in *. discriminate.
  - destruct (Ascii.eqb_spec sign "-") as [->|Hm].
    + apply (Hcore "-" rest'); [reflexivity | auto |].
      destruct (span_digits rest') as [ds after0].
      destruct (String.eqb ds ""); [discriminate|]. congruence.
    + destruct (Ascii.eqb_spec sign "+") as [->|Hp].
      * apply (Hcore "+" rest'); [reflexivity | auto |].
        destruct (span_digits rest') as [ds after0].
        destruct (String.eqb ds ""); [discriminate|]. congruence.
      * apply (Hcore "" (String sign rest')); [reflexivity | auto |].
        destruct (span_digits (String sign rest')) as [ds after0].
        destruct (String.eqb ds ""); [discriminate|]. congruence.
Qed.

Lemma optional_exponent_spec (s : string) :
  exists ep, s = ep ++ (optional_exponent s).2 /\ optional ExponentPart ep.
Proof.
  unfold optional_exponent.
  destruct (exponent_part s) as [[e after]|] eqn:He.
  - destruct (exponent_part_spec _ _ _ He) as (ep & Hs & Hep).
    exists ep. split; [assumption | now right].
  - exists "". split; [reflexivity | now left].
Qed.

(** What the parser reads is a literal of the grammar. *)
Lemma unsigned_literal_sound (negative : bool) (s : string) x after :
  unsigned_literal negative s = Some (x, after) ->
  exists literal, s = literal ++ after /\ StrUnsignedDecimalLiteral literal.
Proof.
  unfold unsigned_literal.
  destruct (strip_prefix "Infinity" s) as [after0|] eqn:Hinf.
  { intros [= <- <-]. apply strip_prefix_Some in Hinf.
    exists "Infinity". split; [assumption | constructor]. }
  destruct (span_digits_spec s) as [Hs Hint].
  destruct (span_digits s) as [int after_int]. simpl in Hs, Hint.
  destruct (strip_prefix "." after_int) as [after_dot|] eqn:Hdot.
  - apply strip_prefix_Some in Hdot.
    destruct (span_digits_spec after_dot) as [Hd Hfrac].
    destruct (span_digits after_dot) as [frac after_frac]. simpl in Hd, Hfrac.
    destruct (optional_exponent_spec after_frac) as (ep & Hep & Hopt).
    destruct (optional_exponent after_frac) as [e after1]. simpl in Hep.
    destruct int as [|i int].
    + destruct frac as [|f frac]; [discriminate|].
      simpl. intros [= <- <-].
      exists ("." ++ String f frac ++ ep). split.
      * rewrite Hs, Hdot, Hd, Hep, string_app_nil_l.
        now rewrite !string_app_assoc.
      * constructor; [split; [discriminate | assumption] | assumption].
    + simpl. intros [= <- <-].
      exists (String i int ++ "." ++ frac ++ ep). split.
      * rewrite Hs, Hdot, Hd, Hep. now rewrite !string_app_assoc.
      * constructor; [split; [discriminate | assumption] | | assumption].
        destruct frac; [now left | right; split; [discriminate | assumption]].
  - destruct int as [|i int]; [discriminate|].
    destruct (optional_exponent_spec after_int) as (ep & Hep & Hopt).
    destruct (optional_exponent after_int) as [e after1]. simpl in Hep.
    simpl. intros [= <- <-].
    exists (String i int ++ ep). split.
    + rewrite Hs, Hep. now rewrite !string_app_assoc.
    + constructor; [split; [discriminate | assumption] | assumption].
Qed.

(** A text that begins with digits is read. *)
Lemma unsigned_literal_digits (negative : bool) (ds rest : string) :
  DecimalDigits ds ->
  is_Some (unsigned_literal negative (ds ++ rest)).
Proof.
  intros [Hne Hds]. unfold unsigned_literal.
  destruct (strip_prefix "Infinity" (ds ++ rest)); [done|].
  pose proof (span_digits_app ds rest Hds) as Hint.
  destruct (span_digits (ds ++ rest)) as [int after_int]. simpl in Hint.
  assert (String.eqb int "" = false) as Hint'.
  { subst int. destruct ds; [done | reflexivity]. }
  destruct (strip_prefix "." after_int) as [after_dot|].
  - destruct (span_digits after_dot) as [frac after_frac].
    rewrite Hint'. cbn [andb].
    destruct (optional_exponent after_frac). done.
  - rewrite Hint'. destruct (optional_exponent after_int). done.
Qed.

Lemma DecimalDigits_first (ds : string) :
  DecimalDigits ds -> exists d ds', ds = String d ds' /\ is_digit d = true.
Proof.
  intros [Hne Hds]. destruct ds as [|d ds']; [done|].
  simpl in Hds. apply andb_true_iff in Hds as [Hd _]. eauto.
Qed.

(** A text that begins with a point and digits is read. *)
Lemma unsigned_literal_dot (negative : bool) (frac rest : string) :
  DecimalDigits frac ->
  is_Some (unsigned_literal negative ("." ++ frac ++ rest)).
Proof.
  intros Hfrac.
  destruct (DecimalDigits_first _ Hfrac) as (d & frac' & -> & Hd).
  destruct Hfrac as [_ Hfrac].
  pose proof (span_digits_app (String d frac') rest Hfrac) as Hspan.
  remember (String d frac' ++ rest) as body eqn:Hbody.
  unfold unsigned_literal.
  destruct (strip_prefix "Infinity" ("." ++ body)); [done|].
  change (span_digits ("." ++ body)) with ("", String "." body).
  cbv beta iota.
  change (strip_prefix "." (String "." body)) with (Some body).
  cbv beta iota.
  destruct (span_digits body) as [frac1 after_frac].
  simpl in Hspan. subst frac1.
  rewrite string_app_cons, eqb_empty_false, andb_false_r.
  destruct (optional_exponent after_frac). done.
Qed.

(** The parser reads every text that begins with a literal. *)
Lemma unsigned_literal_complete (negative : bool) (literal rest : string) :
  StrUnsignedDecimalLiteral literal ->
  is_Some (unsigned_literal negative (literal ++ rest)).
Proof.
  intros [ | int frac e Hint _ _ | frac e Hfrac _ | int e Hint _ ].
  - unfold unsigned_literal.
    replace (strip_prefix "Infinity" ("Infinity" ++ rest)) with (Some rest); [done|].
    symmetry. now apply strip_prefix_Some.
  - rewrite string_app_assoc. now apply unsigned_literal_digits.
  - rewrite !string_app_assoc. now apply unsigned_literal_dot.
  - rewrite string_app_assoc. now apply unsigned_literal_digits.
Qed.

(** No unsigned literal begins with a sign. *)
Lemma unsigned_literal_no_sign (literal : string) :
  StrUnsignedDecimalLiteral literal ->
  forall rest, strip_prefix "-" (literal ++ rest) = None
               /\ strip_prefix "+" (literal ++ rest) = None.
Proof.
  assert (forall ds rest, DecimalDigits ds ->
            strip_prefix "-" (ds ++ rest) = None
            /\ strip_prefix "+" (ds ++ rest) = None) as Hdigits.
  { intros ds rest Hds.
    destruct (DecimalDigits_first _ Hds) as (d & ds' & -> & Hd).
    rewrite string_app_cons, !strip_prefix_char.
    destruct (Ascii.eqb_spec "-" d) as [<-|_]; [discriminate|].
    destruct (Ascii.eqb_spec "+" d) as [<-|_]; [discriminate|]. done. }
  intros [ | int frac e Hint _ _ | frac e Hfrac _ | int e Hint _ ] rest.
  - done.
  - rewrite string_app_assoc. now apply Hdigits.
  - done.
  - rewrite string_app_assoc. now apply Hdigits.
Qed.

Lemma decimal_literal_sound (s : string) x after :
  decimal_literal s = Some (x, after) ->
  exists literal, s = literal ++ after /\ StrDecimalLiteral literal.
Proof.
  unfold decimal_literal.
  destruct (strip_prefix "-" s) as [rest|] eqn:Hminus.
  { intros H. apply strip_prefix_Some in Hminus.
    destruct (unsigned_literal_sound _ _ _ _ H) as (u & -> & Hu).
    exists ("-" ++ u). split; [now rewrite string_app_assoc | now constructor]. }
  destruct (strip_prefix "+" s) as [rest|] eqn:Hplus.
  { intros H. apply strip_prefix_Some in Hplus.
    destruct (unsigned_literal_sound _ _ _ _ H) as (u & -> & Hu).
    exists ("+" ++ u). split; [now rewrite string_app_assoc | now constructor]. }
  intros H. destruct (unsigned_literal_sound _ _ _ _ H) as (u & -> & Hu).
  exists u. split; [reflexivity | now constructor].
Qed.

Lemma decimal_literal_complete (literal rest : string) :
  StrDecimalLiteral literal ->
  is_Some (decimal_literal (literal ++ rest)).
Proof.
  intros [u Hu | u Hu | u Hu]; unfold decimal_literal.
  - destruct (unsigned_literal_no_sign u Hu rest) as [-> ->].
    now apply unsigned_literal_complete.
  - rewrite string_app_assoc.
    change (strip_prefix "-" ("+" ++ u ++ rest)) with (@None string).
    change (strip_prefix "+" ("+" ++ u ++ rest)) with (Some (u ++ rest)).
    now apply unsigned_literal_complete.
  - rewrite string_app_assoc.
    change (strip_prefix "-" ("-" ++ u ++ rest)) with (Some (u ++ rest)).
    now apply unsigned_literal_complete.
Qed.

(** [parseFloat] yields a number exactly for the texts that begin with a
    decimal literal, whatever follows the literal. *)
Lemma parseFloat_NaN_iff (v : option string) :
  isNaN (parseFloat v) = true <-> ~ begins_with_literal (prop_key v).
Proof.
  unfold parseFloat, begins_with_literal.
  destruct (decimal_literal (trimStart (prop_key v))) as [[x after]|] eqn:Hparse.
  - destruct (decimal_literal_sound _ _ _ Hparse) as (literal & Hs & Hlit).
    split.
    + intros Hnan. exfalso. revert Hnan.
      clear -Hparse. unfold decimal_literal, unsigned_literal in Hparse.
      repeat match type of Hparse with
             | context [match ?c with _ => _ end] => destruct c
             end; try discriminate; injection Hparse as <- _; discriminate.
    + intros Hno. exfalso. apply Hno. now exists literal, after.
  - split; [|reflexivity]. intros _ (literal & rest & Hs & Hlit).
    destruct (decimal_literal_complete literal rest Hlit) as [r Hr].
    rewrite Hs in Hparse. congruence.
Qed.

End ParseFloat.

(** ** The transformer *)

Lemma transformSheetData_stations allSheets stations dateContent :
  Transform.transformSheetData allSheets = Some (stations, dateContent) ->
  exists master,
    allSheets !! "Master" = Some master
    /\ stations = map Transform.station_of master.
Proof.
  unfold Transform.transformSheetData.
  destruct (allSheets !! "Master") as [master|]; [|discriminate].
  destruct (foldl _ _ _); [|discriminate].
  intros [= <- <-]. now exists master.
Qed.

Lemma sample_transformed :
  Transform.transformSheetData sample_sheets = Some (sample_stations, sample_dateContent).
Proof. vm_compute. reflexivity. Qed.

Lemma sample_stations_eq : sample_stations = [station_s1; station_s2].
Proof. vm_compute. reflexivity. Qed.

(** C3, as stated, fails on its own example: the latitude [14.5abc] is not
    numeric text, and the transformer coerces it to 14.5 (145 times ten to
    the power -1), not to NaN. *)
Lemma latitude_14_5abc_is_truncated :
  numeric_text "14.5abc" = false
  /\ (map Station.lat <$> (fst <$> Transform.transformSheetData sample_sheets))
     = Some [Decimal false 145 (-1); Decimal false 1463 (-2)]
  /\ isNaN (Decimal false 145 (-1)) = false.
Proof. split; [reflexivity|]. split; [vm_compute; reflexivity | reflexivity]. Qed.

(** C3, amended.  The latitude and the longitude of every station of the
    roster are what [parseFloat] reads in the fields of its master-table
    record: NaN exactly when the field is absent or does not begin, white
    space at its start set aside, with a decimal literal.  Text that
    follows a leading literal is ignored, so that a field such as
    [14.5abc] is coerced to the value of [14.5]. *)
Theorem coordinate_is_NaN_iff_no_leading_literal
        allSheets stations dateContent (i : nat) (station : Station.t) :
  Transform.transformSheetData allSheets = Some (stations, dateContent) ->
  stations !! i = Some station ->
  exists (master : list (gmap string string)) (record : gmap string string),
    allSheets !! "Master" = Some master
    /\ master !! i = Some record
    /\ Station.lat station = parseFloat (record !! "lat")
    /\ Station.lng station = parseFloat (record !! "lng")
    /\ (isNaN (Station.lat station) = true
        <-> ~ begins_with_literal (prop_key (record !! "lat")))
    /\ (isNaN (Station.lng station) = true
        <-> ~ begins_with_literal (prop_key (record !! "lng"))).
Proof.
  intros Ht Hi.
  destruct (transformSheetData_stations _ _ _ Ht) as (master & Hm & ->).
  rewrite lookup_map in Hi.
  destruct (master !! i) as [record|] eqn:Hrec; [|discriminate].
  injection Hi as <-.
  exists master, record. simpl.
  repeat split; try assumption; try reflexivity; apply parseFloat_NaN_iff.
Qed.

Lemma coordinate_is_NaN_iff_no_leading_literal_witness :
  exists (master : list (gmap string string)) (record : gmap string string),
    sample_sheets !! "Master" = Some master
    /\ master !! 0 = Some record
    /\ Station.lat station_s1 = parseFloat (record !! "lat")
    /\ Station.lng station_s1 = parseFloat (record !! "lng")
    /\ (isNaN (Station.lat station_s1) = true
        <-> ~ begins_with_literal (prop_key (record !! "lat")))
    /\ (isNaN (Station.lng station_s1) = true
        <-> ~ begins_with_literal (prop_key (record !! "lng"))).
Proof.
  apply (coordinate_is_NaN_iff_no_leading_literal
           sample_sheets sample_stations sample_dateContent 0 station_s1).
  - vm_compute. reflexivity.
  - vm_compute. reflexivity.
Defined.

(** ** The audio player *)

(** C6. From a player that is not muted, a click on the volume button
    followed by another one (mute, then unmute) ends normally with the
    audio at the volume it had before when that volume was greater than
    zero, and at the default 0.7 when it was zero. *)
Theorem mute_then_unmute_restores_volume (s : State) :
  isMuted (volumeControl s) = false ->
  completion ((Player.volumeBtn_click ;; Player.volumeBtn_click) s) = Normal
  /\ (PrimFloat.ltb 0 (volume (audio s)) = true ->
      volume (audio (state_after ((Player.volumeBtn_click ;; Player.volumeBtn_click) s)))
      = volume (audio s))
  /\ (volume (audio s) = 0%float \/ volume (audio s) = (-0)%float ->
      volume (audio (state_after ((Player.volumeBtn_click ;; Player.volumeBtn_click) s)))
      = 0.7%float).
Proof.
  destruct s as [pg [sr lp v ct] tr [btn sl pn tm mt lv]].
  simpl. intros ->.
  unfold seq, Player.volumeBtn_click, Player.updateVolumeButton,
    Player.showVolumePanel, seq, reading, modify, emit, skip,
    completion, state_after.
  cbn -[PrimFloat.ltb PrimFloat.eqb].
  destruct tm as [handle|]; cbn -[PrimFloat.ltb PrimFloat.eqb].
  - split; [reflexivity|]. split.
    + intros ->. reflexivity.
    + intros [-> | ->]; reflexivity.
  - split; [reflexivity|]. split.
    + intros ->. reflexivity.
    + intros [-> | ->]; reflexivity.
Qed.

Lemma mute_then_unmute_restores_volume_witness :
  volume (audio (state_after
    ((Player.volumeBtn_click ;; Player.volumeBtn_click) (player_at_rest 0.25))))
  = 0.25%float
  /\ volume (audio (state_after
       ((Player.volumeBtn_click ;; Player.volumeBtn_click) (player_at_rest 0))))
     = 0.7%float.
Proof.
  split.
  - apply (mute_then_unmute_restores_volume (player_at_rest 0.25)); reflexivity.
  - apply (mute_then_unmute_restores_volume (player_at_rest 0)); [reflexivity|].
    left. reflexivity.
Defined.

(** The first click mutes: the volume goes to zero and the volume it had
    is remembered. *)
Lemma mute_remembers_volume (s : State) :
  isMuted (volumeControl s) = false ->
  volume (audio (state_after (Player.volumeBtn_click s))) = 0%float
  /\ lastVolume (volumeControl (state_after (Player.volumeBtn_click s))) = volume (audio s)
  /\ isMuted (volumeControl (state_after (Player.volumeBtn_click s))) = true.
Proof.
  destruct s as [pg [sr lp v ct] tr [btn sl pn tm mt lv]].
  simpl. intros ->.
  unfold seq, Player.volumeBtn_click, Player.updateVolumeButton,
    Player.showVolumePanel, seq, reading, modify, emit, skip, state_after.
  cbn -[PrimFloat.ltb PrimFloat.eqb].
  destruct tm; cbn -[PrimFloat.ltb PrimFloat.eqb]; auto.
Qed.

(** C7 fails on the play button.  A click on the play button of a player
    that is not playing, answered by a rejected promise, ends normally
    with the player flagged as playing and the button labelled [Pause]:
    the reaction to the rejection only writes to the console. *)
Theorem rejected_toggle_shows_playing (s : State) :
  isPlaying (transport s) = false ->
  completion (Player.playBtn_click PlayRejected s) = Normal
  /\ isPlaying (transport (state_after (Player.playBtn_click PlayRejected s))) = true
  /\ playBtn (transport (state_after (Player.playBtn_click PlayRejected s))) = "Pause"
  /\ effects (Player.playBtn_click PlayRejected s)
     = [AudioPlay; ConsoleLog "Audio play failed:"].
Proof.
  destruct s as [pg au [pb wp ip pr] vc]. simpl. intros ->.
  repeat split.
Qed.

Lemma rejected_toggle_shows_playing_witness :
  isPlaying (transport (state_after
    (Player.playBtn_click PlayRejected (player_at_rest 1)))) = true
  /\ playBtn (transport (state_after
       (Player.playBtn_click PlayRejected (player_at_rest 1)))) = "Pause".
Proof.
  destruct (rejected_toggle_shows_playing (player_at_rest 1)) as (_ & H1 & H2 & _);
    [reflexivity|].
  split; [exact H1 | exact H2].
Defined.

(** The sibling path of the end of a track does settle into the paused
    state when the platform rejects the restart. *)
Lemma rejected_restart_shows_paused (s : State) :
  completion (Player.audio_ended PlayRejected s) = Normal
  /\ isPlaying (transport (state_after (Player.audio_ended PlayRejected s))) = false
  /\ playBtn (transport (state_after (Player.audio_ended PlayRejected s))) = "Play".
Proof. destruct s as [pg au [pb wp ip pr] vc]. repeat split. Qed.

(** ** Selection of a station *)

Section SelectStation.
Variable stations : list Station.t.
Variable dateContent : gmap string DateContent.t.

Lemma find_from_None {A} (p : A -> bool) (l : list A) (i : nat) :
  find_from i p l = None <-> Forall (fun x => p x = false) l.
Proof.
  revert i. induction l as [|x l IH]; intros i; simpl.
  - split; [constructor | reflexivity].
  - destruct (p x) eqn:Hx.
    + split; [discriminate|]. intros H. apply Forall_cons in H as [H _]. congruence.
    + rewrite IH. split; [now constructor|]. intros H. now apply Forall_cons in H as [_ H].
Qed.

Lemma find_from_Some {A} (p : A -> bool) (l : list A) (i k : nat) (x : A) :
  find_from i p l = Some (k, x) <->
  exists j, k = i + j /\ l !! j = Some x /\ p x = true
            /\ forall j' y, j' < j -> l !! j' = Some y -> p y = false.
Proof.
  revert i. induction l as [|y l IH]; intros i; simpl.
  - split; [discriminate|]. intros (j & _ & Hj & _). discriminate.
  - destruct (p y) eqn:Hy.
    + split.
      * intros [= <- <-]. exists 0. repeat split; [lia | assumption | intros; lia].
      * intros (j & -> & Hj & Hx & Hfirst). destruct j as [|j].
        -- injection Hj as <-. now rewrite Nat.add_0_r.
        -- specialize (Hfirst 0 y). rewrite Hfirst in Hy; [discriminate | lia | reflexivity].
    + rewrite IH. split.
      * intros (j & -> & Hj & Hx & Hfirst). exists (S j).
        repeat split; [lia | assumption | assumption |].
        intros [|j'] z Hlt Hz; [injection Hz as <-; assumption|].
        apply (Hfirst j'); [lia | assumption].
      * intros (j & -> & Hj & Hx & Hfirst). destruct j as [|j].
        -- injection Hj as <-. congruence.
        -- exists j. repeat split; [lia | assumption | assumption |].
           intros j' z Hlt Hz. apply (Hfirst (S j')); [lia | assumption].
Qed.

(** A request that names no station of the roster, or a station for which
    the read under the selected date yields nothing truthy, only warns. *)
Lemma selectStation_ignored (o : PlayOutcome) (stationId : option string) (s : State)
      (v : option Stations.Value) :
  dynamicData_of dateContent (selectDate (page s)) stationId = ReadValue v ->
  find (fun st => bool_decide (Station.id st = stationId)) stations = None
  \/ Stations.present v = false ->
  selectStation stations dateContent o stationId s
  = (Normal, s,
     [ConsoleWarn ("No data found for station " ++ prop_key stationId
                   ++ " on date " ++ selectDate (page s))]).
Proof.
  intros Hread H. unfold selectStation, reading. cbv zeta. rewrite Hread.
  destruct H as [-> | ->]; [reflexivity|].
  destruct (find _ stations) as [[position station]|]; reflexivity.
Qed.

(** Under a selected date that [dateContent] inherits and does not own,
    the request throws before it has done anything. *)
Lemma selectStation_read_throws (o : PlayOutcome) (stationId : option string) (s : State) :
  dynamicData_of dateContent (selectDate (page s)) stationId = ReadThrows ->
  selectStation stations dateContent o stationId s = (Thrown "TypeError", s, []).
Proof.
  intros Hread. unfold selectStation, reading. cbv zeta. now rewrite Hread.
Qed.

(** The three ways of a request: it only warns, it throws at the read
    under the selected date, or it has found a station of the roster and a
    truthy value under the selected date. *)
Lemma selectStation_cases (o : PlayOutcome) (stationId : option string) (s : State) :
  selectStation stations dateContent o stationId s
  = (Normal, s,
     [ConsoleWarn ("No data found for station " ++ prop_key stationId
                   ++ " on date " ++ selectDate (page s))])
  \/ selectStation stations dateContent o stationId s = (Thrown "TypeError", s, [])
  \/ exists position station dynamicData,
       find (fun st => bool_decide (Station.id st = stationId)) stations
       = Some (position, station)
       /\ dynamicData_of dateContent (selectDate (page s)) stationId
          = ReadValue (Some dynamicData)
       /\ Stations.present (Some dynamicData) = true.
Proof.
  destruct (dynamicData_of dateContent (selectDate (page s)) stationId)
    as [|v] eqn:Hread.
  { right. left. now apply selectStation_read_throws. }
  destruct (find (fun st => bool_decide (Station.id st = stationId)) stations)
    as [[position station]|] eqn:Hfind.
  2:{ left. apply (selectStation_ignored o stationId s v Hread). now left. }
  destruct (Stations.present v) eqn:Hpresent.
  2:{ left. apply (selectStation_ignored o stationId s v Hread). now right. }
  destruct v as [dynamicData|]; [|discriminate].
  right. right. now exists position, station, dynamicData.
Qed.

(** A request that names a station of the roster for which the read
    under the selected date yields a truthy value selects it: it becomes
    the selected station and the page and the audio element show it; the
    map shows it when the station has a position, and the request throws
    at the map when it has none. *)
Lemma selectStation_selects (o : PlayOutcome) (stationId : option string) (s : State)
      (position : nat) (station : Station.t) (dynamicData : Stations.Value)
      (el : Element) :
  find (fun st => bool_decide (Station.id st = stationId)) stations
  = Some (position, station) ->
  dynamicData_of dateContent (selectDate (page s)) stationId
  = ReadValue (Some dynamicData) ->
  Stations.present (Some dynamicData) = true ->
  currentStationEl (page s) = Some el ->
  let r := selectStation stations dateContent o stationId s in
  (completion r = if isNaN (Station.lat station) || isNaN (Station.lng station)
                  then Thrown "Error" else Normal)
  /\ currentStationEl (page (state_after r))
     = Some {| dataset_id := Some (prop_key stationId);
               textContent := default "" (Station.name station) |}
  /\ stationDescriptionEl (page (state_after r))
     = default "" (Stations.description dynamicData)
  /\ stationList (page (state_after r))
     = fmap (map (mark_active stationId)) (stationList (page s))
  /\ selectDate (page (state_after r)) = selectDate (page s)
  /\ src (audio (state_after r)) = prop_key (Stations.audioUrl dynamicData)
  /\ loop (audio (state_after r)) = true
  /\ (selected_by (effects r)
      = if isNaN (Station.lat station) || isNaN (Station.lng station)
        then [] else [position])
  /\ (has_position station ->
      In (MapSetView (Station.lat station) (Station.lng station) 12) (effects r)).
Proof.
  intros Hfind Hdyn Hpresent Hel.
  destruct s as [[sd ce de ifs ctt ctx sl] au tr vc].
  cbn [page selectDate currentStationEl] in Hdyn, Hel. subst ce.
  unfold selectStation, reading, has_position. cbv zeta. cbn [page selectDate].
  rewrite Hfind, Hdyn, Hpresent.
  destruct (isNaN (Station.lat station) || isNaN (Station.lng station));
    destruct o; cbn; repeat split; auto 20; discriminate.
Qed.

(** The same request on a page without the element that shows the
    selected station throws, with no station selected. *)
Lemma selectStation_throws (o : PlayOutcome) (stationId : option string) (s : State)
      (position : nat) (station : Station.t) (dynamicData : Stations.Value) :
  find (fun st => bool_decide (Station.id st = stationId)) stations
  = Some (position, station) ->
  dynamicData_of dateContent (selectDate (page s)) stationId
  = ReadValue (Some dynamicData) ->
  Stations.present (Some dynamicData) = true ->
  currentStationEl (page s) = None ->
  let r := selectStation stations dateContent o stationId s in
  completion r = Thrown "TypeError"
  /\ currentStationEl (page (state_after r)) = None
  /\ stationList (page (state_after r))
     = fmap (map (mark_active stationId)) (stationList (page s))
  /\ selectDate (page (state_after r)) = selectDate (page s)
  /\ selected_by (effects r) = [].
Proof.
  intros Hfind Hdyn Hpresent Hel.
  destruct s as [[sd ce de ifs ctt ctx sl] au tr vc].
  cbn [page selectDate currentStationEl] in Hdyn, Hel. subst ce.
  unfold selectStation, reading. cbv zeta. cbn [page selectDate].
  rewrite Hfind, Hdyn, Hpresent.
  cbn; repeat split; auto.
Qed.

(** When the platform rejects the playback that [selectStation] starts,
    the button is labelled [Play] and [window.isPlaying] is false; the
    variable [isPlaying] of the player is not written. *)
Lemma selectStation_rejected_autoplay (stationId : option string) (s : State)
      (position : nat) (station : Station.t) (dynamicData : Stations.Value)
      (el : Element) :
  find (fun st => bool_decide (Station.id st = stationId)) stations
  = Some (position, station) ->
  dynamicData_of dateContent (selectDate (page s)) stationId
  = ReadValue (Some dynamicData) ->
  Stations.present (Some dynamicData) = true ->
  currentStationEl (page s) = Some el ->
  playBtn (transport (state_after
    (selectStation stations dateContent PlayRejected stationId s))) = "Play"
  /\ window_isPlaying (transport (state_after
       (selectStation stations dateContent PlayRejected stationId s))) = false
  /\ isPlaying (transport (state_after
       (selectStation stations dateContent PlayRejected stationId s)))
     = isPlaying (transport s).
Proof.
  intros Hfind Hdyn Hpresent Hel.
  destruct s as [[sd ce de ifs ctt ctx sl] au tr vc].
  cbn [page selectDate currentStationEl] in Hdyn, Hel. subst ce.
  unfold selectStation, reading. cbv zeta. cbn [page selectDate].
  rewrite Hfind, Hdyn, Hpresent.
  destruct (isNaN (Station.lat station) || isNaN (Station.lng station));
    cbn; repeat split.
Qed.

End SelectStation.

(** ** Change of date *)

Section Scripts.

Lemma after_output_nil r : after_output [] r = r.
Proof. now destruct r as [[c s] out]. Qed.

Lemma after_output_after out1 out2 r :
  after_output out1 (after_output out2 r) = after_output (out1 ++ out2) r.
Proof. destruct r as [[c s] out]. unfold after_output. simpl. now rewrite app_assoc. Qed.

Lemma seq_emit (e : Effect) (k : Script) (s : State) :
  (emit e ;; k) s = after_output [e] (k s).
Proof. unfold seq, emit. now destruct (k s) as [[c s'] out]. Qed.

Lemma seq_modify (f : State -> State) (k : Script) (s : State) :
  (modify f ;; k) s = k (f s).
Proof. unfold seq, modify. now destruct (k (f s)) as [[c s'] out]. Qed.

Lemma seq_normal (a k : Script) (s s1 : State) (out1 : list Effect) :
  a s = (Normal, s1, out1) -> (a ;; k) s = after_output out1 (k s1).
Proof. intros H. unfold seq. rewrite H. now destruct (k s1) as [[c s'] out]. Qed.

Lemma seq_thrown (a k : Script) (s s1 : State) (e : string) (out1 : list Effect) :
  a s = (Thrown e, s1, out1) -> (a ;; k) s = (Thrown e, s1, out1).
Proof. intros H. unfold seq. now rewrite H. Qed.

Lemma selected_by_app out1 out2 :
  selected_by (out1 ++ out2) = (selected_by out1 ++ selected_by out2)%list.
Proof. apply omap_app. Qed.

End Scripts.

Section ChangePanelContent.
Variable stations : list Station.t.
Variable dateContent : gmap string DateContent.t.

(** The loop over the roster adds, in roster order, the items of the
    stations with content to the station list and selects nothing. *)
Lemma forEach_render (selectedDateId : string) (dateSpecificContent : DateContent.t)
      (l : list Station.t) (i : nat) (s : State) (items : list StationItem) :
  stationList (page s) = Some items ->
  exists out,
    forEach_from i l (render_station selectedDateId dateSpecificContent) s
    = (Normal,
       on_page (set_stationList
                  (Some (items ++ omap (rendered_item dateSpecificContent) l)%list)) s,
       out)
    /\ selected_by out = [].
Proof.
  revert i s items. induction l as [|x l IH]; intros i s items Hitems.
  - exists []. split; [|reflexivity]. simpl. unfold skip. rewrite app_nil_r.
    destruct s as [[sd ce de ifs ctt ctx sl] au tr vc]. simpl in *. now subst sl.
  - assert (omap (rendered_item dateSpecificContent) (x :: l)
            = match rendered_item dateSpecificContent x with
              | Some item => item :: omap (rendered_item dateSpecificContent) l
              | None => omap (rendered_item dateSpecificContent) l
              end) as -> by reflexivity.
    simpl forEach_from. unfold render_station at 1, rendered_item at 1.
    cbv zeta.
    destruct (if Stations.present
                   (Stations.get (DateContent.stations dateSpecificContent)
                                 (prop_key (Station.id x)))
              then Stations.get (DateContent.stations dateSpecificContent)
                                (prop_key (Station.id x))
              else None)
      as [dynamicData|] eqn:Hx.
    + set (item := {| dataset_station := prop_key (Station.id x);
                      item_name := prop_key (Station.name x);
                      item_icon := prop_key (Station.icon x);
                      item_description := prop_key (Stations.description dynamicData);
                      active := false |}).
      rewrite seq_normal
        with (s1 := on_page (set_stationList (Some (items ++ [item])%list)) s)
             (out1 := [MarkerSetPopupContent i
                         {| popup_name := prop_key (Station.name x);
                            popup_description := prop_key (Stations.description dynamicData);
                            popup_station := prop_key (Station.id x) |}]).
      2:{ rewrite seq_emit. unfold modify, after_output. simpl.
          destruct s as [[sd ce de ifs ctt ctx sl] au tr vc]. simpl in *. now subst sl. }
      destruct (IH (S i) (on_page (set_stationList (Some (items ++ [item])%list)) s)
                   (items ++ [item])%list eq_refl) as (out & Hout & Hsel).
      rewrite Hout. eexists. split.
      * unfold after_output. simpl. rewrite <- app_assoc. simpl.
        destruct s as [[sd ce de ifs ctt ctx sl] au tr vc]. reflexivity.
      * simpl. exact Hsel.
    + destruct (IH (S i) s items Hitems) as (out & Hout & Hsel).
      rewrite seq_emit, Hout. eexists. split; [reflexivity|].
      simpl. exact Hsel.
Qed.

(** With an identifier in the date selector that is no key of
    [dateContent], its own or inherited, the handler only writes to the
    console. *)
Lemma changePanelContent_unknown (o : PlayOutcome) (s : State) :
  dateContent !! selectDate (page s) = None ->
  inherited (selectDate (page s)) = false ->
  changePanelContent stations dateContent o s
  = (Normal, s,
     [ConsoleWarn ("No content found for date: " ++ selectDate (page s));
      ConsoleLog "Available dateContent:"]).
Proof.
  intros H Hi. unfold changePanelContent, reading. cbv zeta. rewrite H, Hi. reflexivity.
Qed.

(** On a known date and a page that has its station list, the handler
    renders the date and then maintains the selection. *)
Lemma changePanelContent_known (o : PlayOutcome) (s : State)
      (dateSpecificContent : DateContent.t) (items : list StationItem) :
  dateContent !! selectDate (page s) = Some dateSpecificContent ->
  stationList (page s) = Some items ->
  exists out,
    selected_by out = []
    /\ changePanelContent stations dateContent o s
       = after_output out
           (maintain_selection stations dateContent o dateSpecificContent
              (rendered_page stations dateSpecificContent s)).
Proof.
  intros Hdate Hlist.
  unfold changePanelContent, reading at 1. cbv zeta. rewrite Hdate.
  rewrite seq_emit, seq_modify. unfold reading at 1.
  destruct s as [[sd ce de ifs ctt ctx sl] au tr vc].
  cbn [page stationList selectDate] in *. subst sl.
  cbn [on_page set_context page stationList].
  rewrite seq_modify. unfold forEach.
  edestruct (forEach_render sd dateSpecificContent stations 0) as (out & Hout & Hsel);
    [|erewrite (seq_normal _ _ _ _ _ Hout)]; [reflexivity|].
  rewrite seq_emit, !after_output_after.
  eexists. split; [|reflexivity].
  rewrite !selected_by_app, Hsel. reflexivity.
Qed.

End ChangePanelContent.

Section Selection.
Variable stations : list Station.t.
Variable dateContent : gmap string DateContent.t.

Lemma state_after_after_output out r : state_after (after_output out r) = state_after r.
Proof. reflexivity. Qed.

Lemma completion_after_output out r : completion (after_output out r) = completion r.
Proof. reflexivity. Qed.

Lemma effects_after_output out r :
  effects (after_output out r) = (out ++ effects r)%list.
Proof. reflexivity. Qed.

Lemma dynamicData_of_known (date : string) (dateSpecificContent : DateContent.t)
      (stationId : option string) :
  dateContent !! date = Some dateSpecificContent ->
  dynamicData_of dateContent date stationId
  = ReadValue (Stations.get (DateContent.stations dateSpecificContent)
                            (prop_key stationId)).
Proof. intros H. unfold dynamicData_of. now rewrite H. Qed.

(** Where nothing is read through the prototype, the value read is
    truthy exactly when the mapping holds an entry. *)
Lemma present_reads_own (dateSpecificContent : DateContent.t) (c : string) :
  reads_own dateSpecificContent c ->
  Stations.present (Stations.get (DateContent.stations dateSpecificContent) c)
  = bool_decide (is_Some (entry_under dateSpecificContent c)).
Proof.
  unfold reads_own. intros ->.
  destruct (entry_under dateSpecificContent c) as [e|]; reflexivity.
Qed.

Lemma has_content_true (dateSpecificContent : DateContent.t) (station : Station.t) :
  reads_own dateSpecificContent (prop_key (Station.id station)) ->
  has_content dateSpecificContent station = true
  <-> is_Some (entry_under dateSpecificContent (prop_key (Station.id station))).
Proof.
  intros Hown. unfold has_content. rewrite present_reads_own by assumption.
  apply bool_decide_eq_true.
Qed.

Lemma has_content_false (dateSpecificContent : DateContent.t) (station : Station.t) :
  reads_own dateSpecificContent (prop_key (Station.id station)) ->
  has_content dateSpecificContent station = false
  <-> entry_under dateSpecificContent (prop_key (Station.id station)) = None.
Proof.
  intros Hown. unfold has_content. rewrite present_reads_own by assumption.
  rewrite bool_decide_eq_false.
  rewrite <- eq_None_not_Some. reflexivity.
Qed.

(** [stations.find] with the test of the fallback finds the first
    station with content. *)
Lemma find_first_with_content (dateSpecificContent : DateContent.t)
      (position : nat) (station : Station.t) :
  (forall st, st ∈ stations -> reads_own dateSpecificContent (prop_key (Station.id st))) ->
  find (has_content dateSpecificContent) stations = Some (position, station)
  <-> first_with_content stations dateSpecificContent position station.
Proof.
  intros Hown.
  assert (forall j st, stations !! j = Some st ->
                       reads_own dateSpecificContent (prop_key (Station.id st))) as Hown'.
  { intros j st Hj. apply Hown. apply list_elem_of_lookup. now exists j. }
  unfold find, first_with_content. rewrite find_from_Some. split.
  - intros (j & -> & Hj & Hp & Hfirst). simpl.
    split; [assumption|]. split; [apply has_content_true; eauto|].
    intros j' earlier Hlt He. apply has_content_false; eauto.
  - intros (Hj & Hp & Hfirst). exists position.
    split; [reflexivity|]. split; [assumption|].
    split; [apply has_content_true; eauto|].
    intros j' earlier Hlt He. apply has_content_false; eauto.
Qed.

(** The station that [selectStation] finds for the identifier of the
    first station with content is that station. *)
Lemma find_id_of_first (dateSpecificContent : DateContent.t)
      (position : nat) (station : Station.t) :
  first_with_content stations dateSpecificContent position station ->
  find (fun st => bool_decide (Station.id st = Station.id station)) stations
  = Some (position, station).
Proof.
  intros (Hj & Hp & Hfirst). unfold find. apply find_from_Some.
  exists position. split; [reflexivity|]. split; [assumption|].
  split; [now apply bool_decide_eq_true|].
  intros j' earlier Hlt He. apply bool_decide_eq_false. intros Hid.
  specialize (Hfirst j' earlier Hlt He). rewrite Hid in Hfirst.
  rewrite Hfirst in Hp. now destruct Hp.
Qed.

Lemma truthy_Some (c : string) : truthy (Some c) = true <-> c <> "".
Proof.
  simpl. rewrite negb_true_iff. apply String.eqb_neq.
Qed.

(** The three ways in which [changePanelContent] ends. *)

Lemma maintain_selection_keeps (o : PlayOutcome) (dateSpecificContent : DateContent.t)
      (s : State) (c : string) :
  selectedStationId s = Some c ->
  c <> "" ->
  Stations.present (Stations.get (DateContent.stations dateSpecificContent) c) = true ->
  maintain_selection stations dateContent o dateSpecificContent s
  = selectStation stations dateContent o (Some c) s.
Proof.
  intros Hc Hne Hentry. unfold maintain_selection, reading at 1. cbv zeta.
  rewrite Hc. apply truthy_Some in Hne. rewrite Hne.
  change (prop_key (Some c)) with c. rewrite Hentry.
  reflexivity.
Qed.

Lemma maintain_selection_condition (dateSpecificContent : DateContent.t) (s : State) :
  (forall c, selectedStationId s = Some c ->
             Stations.present (Stations.get (DateContent.stations dateSpecificContent) c)
             = false) ->
  truthy (selectedStationId s)
  && Stations.present (Stations.get (DateContent.stations dateSpecificContent)
                                    (prop_key (selectedStationId s))) = false.
Proof.
  intros Hnone. destruct (selectedStationId s) as [c|]; [|reflexivity].
  change (prop_key (Some c)) with c. rewrite (Hnone c eq_refl). apply andb_false_r.
Qed.

Lemma maintain_selection_falls_back (o : PlayOutcome)
      (dateSpecificContent : DateContent.t) (s : State)
      (position : nat) (station : Station.t) :
  truthy (selectedStationId s)
  && Stations.present (Stations.get (DateContent.stations dateSpecificContent)
                                    (prop_key (selectedStationId s))) = false ->
  find (has_content dateSpecificContent) stations = Some (position, station) ->
  maintain_selection stations dateContent o dateSpecificContent s
  = selectStation stations dateContent o (Station.id station) s.
Proof.
  intros Hcond Hfirst. unfold maintain_selection, reading at 1. cbv zeta.
  rewrite Hcond, Hfirst.
  destruct stations; [discriminate | reflexivity].
Qed.

Lemma maintain_selection_none (o : PlayOutcome)
      (dateSpecificContent : DateContent.t) (s : State) :
  truthy (selectedStationId s)
  && Stations.present (Stations.get (DateContent.stations dateSpecificContent)
                                    (prop_key (selectedStationId s))) = false ->
  find (has_content dateSpecificContent) stations = None ->
  maintain_selection stations dateContent o dateSpecificContent s = (Normal, s, []).
Proof.
  intros Hcond Hnone. unfold maintain_selection, reading at 1. cbv zeta.
  rewrite Hcond, Hnone.
  now destruct (0 <? length stations)%nat.
Qed.

Lemma rendered_page_page (dateSpecificContent : DateContent.t) (s : State) :
  selectDate (page (rendered_page stations dateSpecificContent s)) = selectDate (page s)
  /\ currentStationEl (page (rendered_page stations dateSpecificContent s))
     = currentStationEl (page s)
  /\ stationList (page (rendered_page stations dateSpecificContent s))
     = Some (omap (rendered_item dateSpecificContent) stations).
Proof. now destruct s as [[sd ce de ifs ctt ctx sl] au tr vc]. Qed.

End Selection.

(** ** Requests that are ignored *)

(** C5, as stated, fails for the names that a plain object inherits.  The
    station mapping of [Feb22] holds no entry for [constructor], and a
    request for the station of the roster that carries this identifier
    selects it all the same, since the read yields the inherited function.
    And under a selected date that [dateContent] inherits, a request
    throws, whatever the identifier. *)
Lemma inherited_name_is_not_ignored :
  (entry_on constructor_dateContent "Feb22" "constructor" = None
   /\ selectedStationId (player_at_rest 1) = None
   /\ selectedStationId
        (state_after (selectStation constructor_stations constructor_dateContent
                                    PlayFulfilled (Some "constructor") (player_at_rest 1)))
      = Some "constructor"
   /\ src (audio (state_after
                    (selectStation constructor_stations constructor_dateContent
                                   PlayFulfilled (Some "constructor") (player_at_rest 1))))
      = "undefined")
  /\ (sample_dateContent !! "constructor" = None
      /\ completion (selectStation sample_stations sample_dateContent PlayFulfilled
                                   (Some "s9")
                                   (on_page (set_selectDate "constructor") (player_at_rest 1)))
         = Thrown "TypeError").
Proof. vm_compute. repeat split. Qed.

(** C5, amended.  Under a selected date that is a date of [dateContent],
    or no name of it at all, a request to select a station whose
    identifier no station of the roster carries, or for which the station
    mapping of the selected date holds no entry and yields nothing through
    its prototype either, ends normally (nothing is thrown), leaves the
    whole state as it was (the selected station, the highlighting of the
    list, the texts shown, the source of the audio) and does nothing but
    write one warning to the console: no call reaches the audio element or
    the map. *)
Theorem invalid_station_request_is_ignored
        (stations : list Station.t) (dateContent : gmap string DateContent.t)
        (o : PlayOutcome) (stationId : option string) (s : State) :
  (dateContent !! selectDate (page s) = None -> inherited (selectDate (page s)) = false) ->
  (forall station, station ∈ stations -> Station.id station <> stationId)
  \/ (entry_on dateContent (selectDate (page s)) (prop_key stationId) = None
      /\ forall dateSpecificContent,
           dateContent !! selectDate (page s) = Some dateSpecificContent ->
           reads_own dateSpecificContent (prop_key stationId)) ->
  selectStation stations dateContent o stationId s
  = (Normal, s,
     [ConsoleWarn ("No data found for station " ++ prop_key stationId
                   ++ " on date " ++ selectDate (page s))]).
Proof.
  intros Hdate H.
  assert (exists v, dynamicData_of dateContent (selectDate (page s)) stationId = ReadValue v
                    /\ (entry_on dateContent (selectDate (page s)) (prop_key stationId) = None ->
                        (forall dateSpecificContent,
                            dateContent !! selectDate (page s) = Some dateSpecificContent ->
                            reads_own dateSpecificContent (prop_key stationId)) ->
                        Stations.present v = false)) as (v & Hv & Hpresent).
  { unfold dynamicData_of, entry_on.
    destruct (dateContent !! selectDate (page s)) as [dsc|] eqn:Hd.
    - eexists. split; [reflexivity|]. intros Hnone Hown.
      rewrite (present_reads_own dsc _ (Hown dsc eq_refl)), Hnone. reflexivity.
    - rewrite (Hdate eq_refl). exists None. split; [reflexivity|]. reflexivity. }
  apply (selectStation_ignored stations dateContent o stationId s v Hv).
  destruct H as [H | [H Hown]]; [left | right; now apply Hpresent].
  apply find_from_None. apply Forall_forall. intros st Hst.
  apply bool_decide_eq_false. now apply H.
Qed.

Lemma invalid_station_request_is_ignored_witness :
  selectStation sample_stations sample_dateContent PlayFulfilled (Some "s2")
                (player_at_rest 1)
  = (Normal, player_at_rest 1,
     [ConsoleWarn "No data found for station s2 on date Feb22"]).
Proof.
  apply (invalid_station_request_is_ignored
           sample_stations sample_dateContent PlayFulfilled (Some "s2")
           (player_at_rest 1)).
  - vm_compute. discriminate.
  - right. split; [vm_compute; reflexivity|].
    intros dsc Hdsc. vm_compute in Hdsc. injection Hdsc as <-.
    vm_compute. reflexivity.
Defined.




(** The script writes the value of the date selector when it sets the
    default date, and nowhere in the handler of the date change. *)
Lemma changePanelContent_keeps_selectDate
      (stations : list Station.t) (dateContent : gmap string DateContent.t)
      (o : PlayOutcome) (s : State) (dateSpecificContent : DateContent.t)
      (items : list StationItem) :
  dateContent !! selectDate (page s) = Some dateSpecificContent ->
  stationList (page s) = Some items ->
  selectDate (page (state_after (changePanelContent stations dateContent o s)))
  = selectDate (page s).
Proof.
  intros Hdate Hlist.
  destruct (changePanelContent_known stations dateContent o s _ _ Hdate Hlist)
    as (out & _ & ->).
  rewrite state_after_after_output.
  pose proof (rendered_page_page stations dateSpecificContent s) as (Hd & Hel & Hl).
  set (s1 := rendered_page stations dateSpecificContent s) in *.
  unfold maintain_selection, reading at 1. cbv zeta.
  assert (forall v, selectDate (page (state_after (selectStation stations dateContent o v s1)))
                    = selectDate (page s1)) as Hsel.
  { intros v.
    destruct (selectStation_cases stations dateContent o v s1)
      as [-> | [-> | (position & station & dyn & Hfind & Hdyn & Hpresent)]];
      [reflexivity | reflexivity |].
    destruct (currentStationEl (page s1)) as [el|] eqn:Hel1.
    - now destruct (selectStation_selects stations dateContent o v s1 _ _ _ _
                      Hfind Hdyn Hpresent Hel1) as (_ & _ & _ & _ & H & _).
    - now destruct (selectStation_throws stations dateContent o v s1 _ _ _
                      Hfind Hdyn Hpresent Hel1) as (_ & _ & _ & H & _). }
  destruct (_ && _); [now rewrite Hsel|].
  destruct (0 <? length stations)%nat; [|assumption].
  destruct (find _ stations) as [[? ?]|]; [now rewrite Hsel | assumption].
Qed.

(** ** Change of date: which station is selected *)

Section DateChange.
Variable stations : list Station.t.
Variable dateContent : gmap string DateContent.t.

Lemma find_Some_elem {A} (p : A -> bool) (l : list A) (k : nat) (x : A) :
  find p l = Some (k, x) -> x ∈ l.
Proof.
  intros H. apply find_from_Some in H as (j & _ & Hj & _).
  apply list_elem_of_lookup. now exists j.
Qed.

Lemma placed_position (station : Station.t) :
  placed stations -> station ∈ stations ->
  isNaN (Station.lat station) || isNaN (Station.lng station) = false.
Proof. unfold placed. rewrite Forall_forall. intros H Hin. now apply H. Qed.

(** The read of an identifier for which the mapping of a known date holds
    an entry, where nothing is read through the prototype. *)
Lemma dynamicData_of_entry (date : string) (dateSpecificContent : DateContent.t)
      (stationId : option string) (entry : Entry.t) :
  dateContent !! date = Some dateSpecificContent ->
  reads_own dateSpecificContent (prop_key stationId) ->
  entry_under dateSpecificContent (prop_key stationId) = Some entry ->
  dynamicData_of dateContent date stationId
  = ReadValue (Some (Stations.EntryValue entry)).
Proof.
  intros Hdate Hown Hentry.
  rewrite (dynamicData_of_known dateContent _ _ _ Hdate).
  unfold reads_own in Hown. now rewrite Hown, Hentry.
Qed.

(** When the selection is not kept, the end of the handler selects the
    first station with content, or nothing. *)
Lemma maintain_selection_otherwise (o : PlayOutcome)
      (dateSpecificContent : DateContent.t) (s : State) (el : Element) :
  dateContent !! selectDate (page s) = Some dateSpecificContent ->
  currentStationEl (page s) = Some el ->
  (forall st, st ∈ stations -> reads_own dateSpecificContent (prop_key (Station.id st))) ->
  truthy (selectedStationId s)
  && Stations.present (Stations.get (DateContent.stations dateSpecificContent)
                                    (prop_key (selectedStationId s))) = false ->
  (placed stations ->
   completion (maintain_selection stations dateContent o dateSpecificContent s) = Normal)
  /\ (forall position station,
        first_with_content stations dateSpecificContent position station ->
        selectedStationId
          (state_after (maintain_selection stations dateContent o dateSpecificContent s))
        = Some (prop_key (Station.id station))
        /\ (placed stations ->
            selected_by
              (effects (maintain_selection stations dateContent o dateSpecificContent s))
            = [position]))
  /\ ((forall station, station ∈ stations ->
         entry_under dateSpecificContent (prop_key (Station.id station)) = None) ->
      maintain_selection stations dateContent o dateSpecificContent s = (Normal, s, [])).
Proof.
  intros Hdate Hel Hown Hcond.
  assert (forall position station,
             first_with_content stations dateSpecificContent position station ->
             (placed stations ->
              completion (maintain_selection stations dateContent o dateSpecificContent s)
              = Normal)
             /\ selectedStationId
                  (state_after
                     (maintain_selection stations dateContent o dateSpecificContent s))
                = Some (prop_key (Station.id station))
             /\ (placed stations ->
                 selected_by
                   (effects
                      (maintain_selection stations dateContent o dateSpecificContent s))
                 = [position])) as Hfallback.
  { intros position station Hfirst.
    pose proof (proj2 (find_first_with_content stations _ _ _ Hown) Hfirst) as Hfound.
    rewrite (maintain_selection_falls_back _ _ _ _ _ position station Hcond Hfound).
    pose proof (find_id_of_first stations _ _ _ Hfirst) as Hfind.
    pose proof (find_Some_elem _ _ _ _ Hfind) as Hin.
    destruct Hfirst as (_ & [dyn Hdyn] & _).
    pose proof (dynamicData_of_entry _ _ (Station.id station) dyn Hdate
                  (Hown station Hin) Hdyn) as Hread.
    destruct (selectStation_selects stations dateContent o _ s _ _ _ _
                Hfind Hread eq_refl Hel)
      as (Hc & Hcur & _ & _ & _ & _ & _ & Hsel & _).
    split; [|split].
    - intros Hplaced. now rewrite Hc, (placed_position station Hplaced Hin).
    - unfold selectedStationId. now rewrite Hcur.
    - intros Hplaced. now rewrite Hsel, (placed_position station Hplaced Hin). }
  split; [|split].
  - intros Hplaced.
    destruct (find (has_content dateSpecificContent) stations)
      as [[position station]|] eqn:Hfind.
    + apply find_first_with_content in Hfind; [|assumption].
      destruct (Hfallback _ _ Hfind) as (H & _). now apply H.
    + now rewrite maintain_selection_none.
  - intros position station Hfirst.
    now destruct (Hfallback _ _ Hfirst) as (_ & H1 & H2).
  - intros Hnone. apply maintain_selection_none; [assumption|].
    apply find_from_None. apply Forall_forall. intros st Hst.
    apply has_content_false; auto.
Qed.

(** The selection after the handler of the date change has run on a known
    date whose station mapping has no entry for the empty identifier, where
    nothing is read through the prototype of the mapping. *)
Lemma changePanelContent_selection (o : PlayOutcome) (s : State)
        (dateSpecificContent : DateContent.t) (items : list StationItem)
        (el : Element) :
  dateContent !! selectDate (page s) = Some dateSpecificContent ->
  stationList (page s) = Some items ->
  currentStationEl (page s) = Some el ->
  entry_under dateSpecificContent "" = None ->
  (forall st, st ∈ stations -> reads_own dateSpecificContent (prop_key (Station.id st))) ->
  (forall c, dataset_id el = Some c -> reads_own dateSpecificContent c) ->
  (placed stations -> completion (changePanelContent stations dateContent o s) = Normal)
  /\ (forall c,
        dataset_id el = Some c ->
        is_Some (entry_under dateSpecificContent c) ->
        selectedStationId (state_after (changePanelContent stations dateContent o s))
        = Some c)
  /\ (forall position station,
        (forall c, dataset_id el = Some c -> entry_under dateSpecificContent c = None) ->
        first_with_content stations dateSpecificContent position station ->
        selectedStationId (state_after (changePanelContent stations dateContent o s))
        = Some (prop_key (Station.id station))
        /\ (placed stations ->
            selected_by (effects (changePanelContent stations dateContent o s))
            = [position]))
  /\ ((forall c, dataset_id el = Some c -> entry_under dateSpecificContent c = None) ->
      (forall station, station ∈ stations ->
         entry_under dateSpecificContent (prop_key (Station.id station)) = None) ->
      selectedStationId (state_after (changePanelContent stations dateContent o s))
      = dataset_id el
      /\ selected_by (effects (changePanelContent stations dateContent o s)) = []).
Proof.
  intros Hdate Hlist Hel Hblank Hown Hownc.
  destruct (changePanelContent_known stations dateContent o s _ _ Hdate Hlist)
    as (out & Hout & ->).
  rewrite completion_after_output, state_after_after_output, effects_after_output.
  rewrite selected_by_app, Hout. simpl app.
  pose proof (rendered_page_page stations dateSpecificContent s) as (Hd1 & Hel1 & _).
  set (s1 := rendered_page stations dateSpecificContent s) in *.
  rewrite Hel in Hel1. rewrite <- Hd1 in Hdate.
  assert (selectedStationId s1 = dataset_id el) as Hsel1
      by (unfold selectedStationId; now rewrite Hel1).
  assert ((forall c, dataset_id el = Some c -> entry_under dateSpecificContent c = None) ->
          truthy (selectedStationId s1)
          && Stations.present (Stations.get (DateContent.stations dateSpecificContent)
                                            (prop_key (selectedStationId s1))) = false)
    as Hcond.
  { intros Hnone. apply maintain_selection_condition.
    intros c Hc. rewrite Hsel1 in Hc.
    rewrite (present_reads_own _ _ (Hownc c Hc)), (Hnone c Hc). reflexivity. }
  assert (forall c,
             dataset_id el = Some c ->
             is_Some (entry_under dateSpecificContent c) ->
             (placed stations ->
              completion (maintain_selection stations dateContent o dateSpecificContent s1)
              = Normal)
             /\ selectedStationId
                  (state_after
                     (maintain_selection stations dateContent o dateSpecificContent s1))
                = Some c) as Hkeep.
  { intros c Hc [dyn Hdyn].
    assert (c <> "") as Hne by (intros ->; congruence).
    rewrite (maintain_selection_keeps stations dateContent o _ s1 c);
      [|congruence | assumption
       |rewrite (present_reads_own _ _ (Hownc c Hc)), Hdyn; reflexivity].
    destruct (find (fun st => bool_decide (Station.id st = Some c)) stations)
      as [[position station]|] eqn:Hfind.
    - pose proof (dynamicData_of_entry _ _ (Some c) dyn Hdate
                    (Hownc c Hc) Hdyn) as Hread.
      destruct (selectStation_selects stations dateContent o _ s1 _ _ _ _
                  Hfind Hread eq_refl Hel1) as (Hcomp & Hcur & _).
      split.
      + intros Hplaced. rewrite Hcomp.
        now rewrite (placed_position station Hplaced (find_Some_elem _ _ _ _ Hfind)).
      + unfold selectedStationId. now rewrite Hcur.
    - rewrite (selectStation_ignored stations dateContent o (Some c) s1 _
                 (dynamicData_of_known dateContent _ _ _ Hdate)) by now left.
      split; [reflexivity|].
      change (selectedStationId s1 = Some c). congruence. }
  split; [|split; [|split]].
  - intros Hplaced. destruct (dataset_id el) as [c|] eqn:Hc.
    + destruct (entry_under dateSpecificContent c) as [dyn|] eqn:Hdyn.
      * destruct (Hkeep c eq_refl) as (H & _); [rewrite Hdyn; now eexists | now apply H].
      * apply (maintain_selection_otherwise o _ s1 el Hdate Hel1 Hown); [|assumption].
        apply Hcond. intros c' [= <-]. assumption.
    + apply (maintain_selection_otherwise o _ s1 el Hdate Hel1 Hown); [|assumption].
      apply Hcond. intros c' [=].
  - intros c Hc Hentry. now destruct (Hkeep c Hc Hentry) as (_ & H).
  - intros position station Hnone Hfirst.
    now apply (maintain_selection_otherwise o _ s1 el Hdate Hel1 Hown (Hcond Hnone)).
  - intros Hnone Hno.
    destruct (maintain_selection_otherwise o _ s1 el Hdate Hel1 Hown (Hcond Hnone))
      as (_ & _ & H).
    rewrite (H Hno). split; [exact Hsel1 | reflexivity].
Qed.

End DateChange.

(** ** The identifiers that the transformer files under a date *)

Section NoEmptyIdentifier.
Import Transform.

Lemma populate_no_empty (stations : Stations.t)
      (stationData : gmap string string) :
  Stations.own stations !! "" = None ->
  Stations.own (populate stations stationData) !! "" = None.
Proof.
  intros H. unfold populate.
  destruct (stationData !! "id") as [i|]; [|assumption].
  destruct (truthy (Some i)) eqn:Hi; [|assumption].
  destruct (negb _); [|assumption]. simpl. unfold Stations.set.
  destruct (String.eqb i "__proto__"); [assumption|]. simpl.
  apply truthy_Some in Hi. now rewrite lookup_insert_ne.
Qed.

Lemma foldl_populate_no_empty (dateData : list (gmap string string))
      (stations : Stations.t) :
  Stations.own stations !! "" = None ->
  Stations.own (foldl populate stations dateData) !! "" = None.
Proof.
  revert stations. induction dateData as [|r l IH]; intros acc H; [assumption|].
  simpl. apply IH. now apply populate_no_empty.
Qed.

Lemma foldl_add_tab_none allSheets (tabs : list string) :
  foldl (add_tab allSheets) None tabs = None.
Proof. induction tabs as [|x tabs IH]; [reflexivity | exact IH]. Qed.

Lemma foldl_add_tab_no_empty allSheets (tabs : list string)
      (dc0 dc : gmap string DateContent.t) :
  (forall date content, dc0 !! date = Some content ->
                        entry_under content "" = None) ->
  foldl (add_tab allSheets) (Some dc0) tabs = Some dc ->
  forall date content, dc !! date = Some content ->
                       entry_under content "" = None.
Proof.
  revert dc0. induction tabs as [|tab tabs IH]; intros dc0 H0 Hfold.
  - injection Hfold as <-. exact H0.
  - simpl in Hfold. destruct (String.eqb tab "Master"); [now apply (IH dc0)|].
    destruct (allSheets !! tab) as [dateData|].
    + refine (IH _ _ Hfold).
      intros date content Hlook.
      destruct (decide (tab = date)) as [->|Hne].
      * rewrite lookup_insert_eq in Hlook. injection Hlook as <-.
        unfold entry_under. simpl. now apply foldl_populate_no_empty.
      * rewrite lookup_insert_ne in Hlook by assumption. now apply (H0 date).
    + now rewrite foldl_add_tab_none in Hfold.
Qed.

(** No date of the [dateContent] that the transformer builds maps the
    empty identifier. *)
Lemma transformSheetData_no_empty_id allSheets stations dateContent :
  transformSheetData allSheets = Some (stations, dateContent) ->
  forall date content, dateContent !! date = Some content ->
                       entry_under content "" = None.
Proof.
  unfold transformSheetData.
  destruct (allSheets !! "Master") as [master|]; [|discriminate].
  destruct (foldl _ _ _) as [dc|] eqn:Hfold; [|discriminate].
  intros [= <- <-]. apply (foldl_add_tab_no_empty allSheets sheetTabs ∅ dc); [|exact Hfold].
  intros date content Hlook. now rewrite lookup_empty in Hlook.
Qed.

End NoEmptyIdentifier.

(** ** Change of date in the running application *)



(** Nothing is read through the prototype of a mapping that has kept its
    first prototype, under a name that no plain object inherits. *)
Lemma reads_own_plain (dateSpecificContent : DateContent.t) (c : string) :
  inherited c = false ->
  Stations.prototype (DateContent.stations dateSpecificContent) = None ->
  reads_own dateSpecificContent c.
Proof.
  intros Hc Hp. unfold reads_own, entry_under, Stations.get. rewrite Hp, Hc.
  now destruct (Stations.own _ !! c).
Qed.

Lemma sample_placed : placed sample_stations.
Proof. rewrite sample_stations_eq. repeat constructor. Qed.

Lemma sample_prototypes (date : string) (dateSpecificContent : DateContent.t) :
  sample_dateContent !! date = Some dateSpecificContent ->
  Stations.prototype (DateContent.stations dateSpecificContent) = None.
Proof.
  assert (map_Forall (fun _ d => Stations.prototype (DateContent.stations d) = None)
                     sample_dateContent) as H
      by (apply map_Forall_to_list; vm_compute; repeat constructor).
  apply H.
Qed.

Lemma sample_plain : plain_roster sample_stations sample_dateContent.
Proof.
  intros station date dsc Hst Hdate. apply reads_own_plain.
  - rewrite sample_stations_eq in Hst.
    apply elem_of_cons in Hst as [-> | Hst]; [vm_compute; reflexivity|].
    apply elem_of_cons in Hst as [-> | Hst]; [vm_compute; reflexivity|].
    now apply elem_of_nil in Hst.
  - exact (sample_prototypes date dsc Hdate).
Qed.

Example sample_ready_selects_s1 :
  selectedStationId sample_ready = Some "s1"
  /\ selectDate (page sample_ready) = "Feb22".
Proof. vm_compute. split; reflexivity. Qed.



(** ** The selected station across the user's actions *)

Section Invariant.
Variable stations : list Station.t.
Variable dateContent : gmap string DateContent.t.

Lemma seq_assoc (a b c : Script) (s : State) :
  ((a ;; b) ;; c) s = (a ;; (b ;; c)) s.
Proof.
  unfold seq. destruct (a s) as [[[|error] s1] out1]; [|reflexivity].
  destruct (b s1) as [[[|error] s2] out2]; [|reflexivity].
  destruct (c s2) as [[c3 s3] out3]. now rewrite app_assoc.
Qed.

(** What a request to select a station leaves behind, in every case. *)
Lemma selectStation_outcome (o : PlayOutcome) (stationId : option string) (s : State) :
  selectDate (page (state_after (selectStation stations dateContent o stationId s)))
  = selectDate (page s)
  /\ (is_Some (stationList (page s)) ->
      is_Some (stationList
                 (page (state_after (selectStation stations dateContent o stationId s)))))
  /\ (((find (fun st => bool_decide (Station.id st = stationId)) stations = None
        \/ dynamicData_of dateContent (selectDate (page s)) stationId = ReadThrows
        \/ exists v, dynamicData_of dateContent (selectDate (page s)) stationId
                     = ReadValue v
                     /\ Stations.present v = false)
       /\ state_after (selectStation stations dateContent o stationId s) = s)
      \/ ((exists position station dynamicData,
             find (fun st => bool_decide (Station.id st = stationId)) stations
             = Some (position, station)
             /\ dynamicData_of dateContent (selectDate (page s)) stationId
                = ReadValue (Some dynamicData)
             /\ Stations.present (Some dynamicData) = true)
          /\ selectedStationId
               (state_after (selectStation stations dateContent o stationId s))
             = Some (prop_key stationId))
      \/ selectedStationId
           (state_after (selectStation stations dateContent o stationId s))
         = None).
Proof.
  destruct (dynamicData_of dateContent (selectDate (page s)) stationId)
    as [|v] eqn:Hread.
  { rewrite selectStation_read_throws by assumption.
    split; [reflexivity|]. split; [auto|]. left. auto. }
  destruct (find (fun st => bool_decide (Station.id st = stationId)) stations)
    as [[position station]|] eqn:Hfind.
  2:{ rewrite (selectStation_ignored stations dateContent o stationId s v Hread)
        by now left.
      split; [reflexivity|]. split; [auto|]. left. auto. }
  destruct (Stations.present v) eqn:Hpresent.
  2:{ rewrite (selectStation_ignored stations dateContent o stationId s v Hread)
        by now right.
      split; [reflexivity|]. split; [auto|]. left.
      split; [|reflexivity]. right. right. now exists v. }
  destruct v as [dyn|]; [|discriminate].
  destruct (currentStationEl (page s)) as [el|] eqn:Hel.
  - destruct (selectStation_selects stations dateContent o _ s _ _ _ _
                Hfind Hread Hpresent Hel)
      as (_ & Hcur & _ & Hlist & Hdate & _).
    split; [exact Hdate|]. split.
    + rewrite Hlist. intros [items ->]. now eexists.
    + right. left. split; [now exists position, station, dyn|].
      unfold selectedStationId. now rewrite Hcur.
  - destruct (selectStation_throws stations dateContent o _ s _ _ _
                Hfind Hread Hpresent Hel)
      as (_ & Hcur & Hlist & Hdate & _).
    split; [exact Hdate|]. split.
    + rewrite Hlist. intros [items ->]. now eexists.
    + right. right. unfold selectedStationId. now rewrite Hcur.
Qed.

Lemma find_from_elem {A} (p : A -> bool) (l : list A) (i k : nat) (x : A) :
  find_from i p l = Some (k, x) -> x ∈ l /\ p x = true.
Proof.
  intros H. apply find_from_Some in H as (j & _ & Hj & Hp & _).
  split; [|exact Hp]. apply list_elem_of_lookup. now exists j.
Qed.

(** A truthy value read for the identifier of a station of the roster,
    where nothing is read through the prototype, is an entry of the
    selected date. *)
Lemma found_has_entry (stationId : option string) (date : string)
      (position : nat) (station : Station.t) (dynamicData : Stations.Value) :
  plain_roster stations dateContent ->
  find (fun st => bool_decide (Station.id st = stationId)) stations
  = Some (position, station) ->
  dynamicData_of dateContent date stationId = ReadValue (Some dynamicData) ->
  is_Some (entry_on dateContent date (prop_key stationId)).
Proof.
  intros Hplain Hfind Hread.
  apply find_from_elem in Hfind as [Hin Hid]. apply bool_decide_eq_true in Hid.
  unfold dynamicData_of, entry_on in *.
  destruct (dateContent !! date) as [dsc|] eqn:Hdate.
  - pose proof (Hplain station date dsc Hin Hdate) as Hown.
    rewrite Hid in Hown. unfold reads_own in Hown.
    injection Hread as Hread. rewrite Hown in Hread.
    destruct (entry_under dsc (prop_key stationId)); [now eexists | discriminate].
  - destruct (inherited date); discriminate.
Qed.

Lemma selectStation_consistent (o : PlayOutcome) (stationId : option string) (s : State) :
  plain_roster stations dateContent ->
  selection_consistent stations dateContent s ->
  selection_consistent stations dateContent
    (state_after (selectStation stations dateContent o stationId s)).
Proof.
  intros Hplain [Hlist Hsel].
  destruct (selectStation_outcome o stationId s) as (Hdate & Hlist' & Hcases).
  split; [auto|]. intros c Hc. rewrite Hdate.
  destruct Hcases as [[_ Heq] | [[(position & station & dyn & Hfind & Hread & _) Hcur]
                                | Hnone]].
  - rewrite Heq in Hc. now apply Hsel.
  - left. rewrite Hcur in Hc. injection Hc as <-.
    exact (found_has_entry _ _ _ _ _ Hplain Hfind Hread).
  - congruence.
Qed.

(** A request selects nothing but the identifier of a station of the
    roster. *)
Lemma selectStation_names_a_station (o : PlayOutcome) (v : option string) (s : State) :
  (forall c, selectedStationId s = Some c -> names_a_station stations c) ->
  forall c, selectedStationId (state_after (selectStation stations dateContent o v s))
            = Some c ->
            names_a_station stations c.
Proof.
  intros Hs c.
  destruct (selectStation_outcome o v s) as (_ & _ & Hcases).
  destruct Hcases as [[_ ->] | [[(position & station & dyn & Hfind & _) ->] | ->]];
    [apply Hs | | discriminate].
  apply find_from_elem in Hfind as [Hin Hid]. apply bool_decide_eq_true in Hid.
  intros [= <-]. exists station. split; [exact Hin | now rewrite Hid].
Qed.

(** Under a date that [dateContent] inherits and does not own, the handler
    of the date change leaves the date selector and the selected
    identifier as they were, and the page keeps a station list. *)
Lemma changePanelContent_inherited (o : PlayOutcome) (s : State) :
  dateContent !! selectDate (page s) = None ->
  inherited (selectDate (page s)) = true ->
  selectDate (page (state_after (changePanelContent stations dateContent o s)))
  = selectDate (page s)
  /\ selectedStationId (state_after (changePanelContent stations dateContent o s))
     = selectedStationId s
  /\ (is_Some (stationList (page s)) ->
      is_Some (stationList (page (state_after (changePanelContent stations dateContent o s))))).
Proof.
  intros Hd Hi.
  destruct s as [[sd ce de ifs ctt ctx sl] au tr vc].
  cbn [page selectDate] in Hd, Hi.
  unfold changePanelContent, render_without_stations, forEach, reading, selectedStationId,
    seq, modify, emit, skip, throw, state_after.
  cbv zeta. cbn [page selectDate]. rewrite Hd, Hi.
  destruct sl as [items|]; [|cbn; auto].
  destruct stations as [|x l].
  - destruct ce as [[did tc]|]; cbn -[count_text truthy];
      [destruct (truthy did)|]; cbn; repeat split; eauto.
  - cbn. repeat split; eauto.
Qed.

(** The handler of the date change selects nothing but the identifier of
    a station of the roster. *)
Lemma changePanelContent_names_a_station (o : PlayOutcome) (s : State) :
  (forall c, selectedStationId s = Some c -> names_a_station stations c) ->
  forall c, selectedStationId (state_after (changePanelContent stations dateContent o s))
            = Some c ->
            names_a_station stations c.
Proof.
  intros Hs.
  destruct (dateContent !! selectDate (page s)) as [dsc|] eqn:Hdate.
  2:{ destruct (inherited (selectDate (page s))) eqn:Hi.
      - destruct (changePanelContent_inherited o s Hdate Hi) as (_ & -> & _). exact Hs.
      - now rewrite changePanelContent_unknown by assumption. }
  destruct (stationList (page s)) as [items|] eqn:Hitems.
  2:{ unfold changePanelContent, reading. cbv zeta. rewrite Hdate.
      rewrite seq_emit, seq_modify.
      destruct s as [[sd ce de ifs ctt ctx sl] au tr vc].
      cbn in Hitems. subst sl. exact Hs. }
  destruct (changePanelContent_known stations dateContent o s _ _ Hdate Hitems)
    as (out & _ & ->).
  rewrite state_after_after_output.
  pose proof (rendered_page_page stations dsc s) as (_ & Hel1 & _).
  set (s1 := rendered_page stations dsc s) in *.
  assert (forall c, selectedStationId s1 = Some c -> names_a_station stations c) as Hs1.
  { intros c. unfold selectedStationId. rewrite Hel1. apply Hs. }
  unfold maintain_selection, reading. cbv zeta.
  destruct (_ && _); [now apply selectStation_names_a_station|].
  destruct (0 <? length stations)%nat; [|exact Hs1].
  destruct (find _ stations) as [[position station]|]; [|exact Hs1].
  now apply selectStation_names_a_station.
Qed.

Lemma changePanelContent_consistent (o : PlayOutcome) (s : State) :
  plain_roster stations dateContent ->
  is_Some (stationList (page s)) ->
  (forall c, selectedStationId s = Some c -> names_a_station stations c) ->
  selection_consistent stations dateContent
    (state_after (changePanelContent stations dateContent o s)).
Proof.
  intros Hplain Hlist Hnames.
  destruct (dateContent !! selectDate (page s)) as [dsc|] eqn:Hdate.
  2:{ assert (selectDate (page (state_after (changePanelContent stations dateContent o s)))
              = selectDate (page s)
              /\ is_Some (stationList
                            (page (state_after (changePanelContent stations dateContent o s)))))
        as [Hd Hl].
      { destruct (inherited (selectDate (page s))) eqn:Hi.
        - destruct (changePanelContent_inherited o s Hdate Hi) as (H1 & _ & H3). auto.
        - rewrite changePanelContent_unknown by assumption. auto. }
      split; [exact Hl|]. intros c _. right. rewrite Hd. intros station _.
      unfold entry_on. now rewrite Hdate. }
  destruct Hlist as [items Hitems].
  pose proof (changePanelContent_keeps_selectDate stations dateContent o s _ _ Hdate Hitems)
    as Hkeep.
  unfold selection_consistent. rewrite Hkeep. clear Hkeep.
  destruct (changePanelContent_known stations dateContent o s _ _ Hdate Hitems)
    as (out & _ & ->).
  rewrite state_after_after_output.
  pose proof (rendered_page_page stations dsc s) as (Hd1 & Hel1 & Hl1).
  set (s1 := rendered_page stations dsc s) in *.
  assert (dateContent !! selectDate (page s1) = Some dsc) as Hdate1 by congruence.
  assert (forall c, entry_on dateContent (selectDate (page s)) c = entry_under dsc c)
    as Hentry_on by (intros c; unfold entry_on; now rewrite Hdate).
  assert (forall v,
             is_Some (entry_under dsc (prop_key v)) ->
             (find (fun st => bool_decide (Station.id st = v)) stations = None
              \/ dynamicData_of dateContent (selectDate (page s1)) v = ReadThrows
              \/ (exists v', dynamicData_of dateContent (selectDate (page s1)) v
                              = ReadValue v'
                              /\ Stations.present v' = false) ->
              selectedStationId s1 = Some (prop_key v)) ->
             is_Some (stationList
                        (page (state_after (selectStation stations dateContent o v s1))))
             /\ forall c,
                  selectedStationId
                    (state_after (selectStation stations dateContent o v s1)) = Some c ->
                  is_Some (entry_on dateContent (selectDate (page s)) c)
                  \/ no_station_qualifies stations dateContent (selectDate (page s)))
    as Hselect.
  { intros v Hentry Hsame.
    destruct (selectStation_outcome o v s1) as (_ & Hlist' & Hcases).
    split; [apply Hlist'; rewrite Hl1; now eexists|].
    intros c Hc. left. rewrite Hentry_on.
    destruct Hcases as [[Hwhy Heq] | [[_ Hcur] | Hnone]].
    - rewrite Heq in Hc. rewrite (Hsame Hwhy) in Hc. now injection Hc as <-.
    - rewrite Hcur in Hc. now injection Hc as <-.
    - congruence. }
  assert (forall st, st ∈ stations -> reads_own dsc (prop_key (Station.id st))) as Hown
      by (intros st Hst; exact (Hplain st _ _ Hst Hdate)).
  unfold maintain_selection, reading. cbv zeta.
  destruct (truthy (selectedStationId s1)
            && Stations.present (Stations.get (DateContent.stations dsc)
                                              (prop_key (selectedStationId s1))))
    eqn:Hcond.
  - apply andb_true_iff in Hcond as [Htruthy Hentry].
    destruct (selectedStationId s1) as [c|] eqn:Hc; [|discriminate].
    assert (names_a_station stations c) as (st & Hst & Hid).
    { apply Hnames. rewrite <- Hc. unfold selectedStationId. now rewrite Hel1. }
    change (prop_key (Some c)) with c in Hentry.
    rewrite present_reads_own in Hentry by (rewrite <- Hid; now apply Hown).
    apply bool_decide_eq_true in Hentry.
    apply (Hselect (Some c)); [exact Hentry | reflexivity].
  - assert (is_Some (stationList (page s1))
            /\ ((forall station, station ∈ stations ->
                    entry_under dsc (prop_key (Station.id station)) = None) ->
                forall c, selectedStationId s1 = Some c ->
                is_Some (entry_on dateContent (selectDate (page s)) c)
                \/ no_station_qualifies stations dateContent (selectDate (page s))))
      as [Hl Hnone].
    { split; [rewrite Hl1; now eexists|].
      intros Hno c _. right. intros station Hst. rewrite Hentry_on. now apply Hno. }
    destruct (0 <? length stations)%nat eqn:Hlen.
    + destruct (find (has_content dsc) stations) as [[position station]|] eqn:Hfind.
      * apply find_first_with_content in Hfind; [|exact Hown].
        apply (Hselect (Station.id station)); [now destruct Hfind as (_ & H & _)|].
        intros Hwhy. exfalso.
        pose proof (find_id_of_first stations _ _ _ Hfind) as Hid.
        pose proof (find_Some_elem _ _ _ _ Hid) as Hin.
        destruct Hfind as (_ & [dyn Hdyn] & _).
        pose proof (dynamicData_of_entry dateContent _ _ (Station.id station) dyn Hdate1
                      (Hown station Hin) Hdyn) as Hread.
        destruct Hwhy as [Hwhy | [Hwhy | (v' & Hwhy & Hfalse)]]; try congruence.
        rewrite Hread in Hwhy. injection Hwhy as <-. discriminate.
      * split; [exact Hl|]. apply Hnone.
        intros station Hst. apply find_from_None in Hfind.
        rewrite Forall_forall in Hfind. apply has_content_false; auto.
    + split; [exact Hl|]. apply Hnone.
      intros station Hst. apply Nat.ltb_ge in Hlen.
      destruct stations; [now apply elem_of_nil in Hst | simpl in Hlen; lia].
Qed.

(** The markers change nothing of the state and select no station. *)
Lemma forEach_add_marker (l : list Station.t) (i : nat) (s : State) :
  exists c out,
    forEach_from i l add_marker s = (c, s, out)
    /\ selected_by out = []
    /\ (c = Normal \/ exists e, c = Thrown e).
Proof.
  revert i. induction l as [|x l IH]; intros i.
  - exists Normal, []. split; [reflexivity|]. split; [reflexivity | now left].
  - simpl forEach_from. unfold add_marker at 1.
    destruct (isNaN (Station.lat x) || isNaN (Station.lng x)).
    + exists (Thrown "Error"), []. split; [reflexivity|].
      split; [reflexivity | right; now eexists].
    + destruct (IH (S i)) as (c & out & Hrun & Hout & Hc).
      rewrite seq_emit, Hrun. exists c, (MarkerAddTo i :: out).
      split; [reflexivity|]. split; [exact Hout | exact Hc].
Qed.

(** The start-up either stops at a marker, the state being as it was, or
    ends as its last step, the first rendering, does. *)
Lemma initializeApplication_cases (o : PlayOutcome) (s0 : State) :
  state_after (initializeApplication stations dateContent o s0) = s0
  \/ exists out s1,
       initializeApplication stations dateContent o s0
       = after_output out (changePanelContent stations dateContent o s1)
       /\ selected_by out = []
       /\ page s1 = set_selectDate "Feb22" (page s0).
Proof.
  unfold initializeApplication.
  destruct (forEach_add_marker stations 0 s0) as (c & out & Hmarkers & Hout & Hc).
  fold (forEach stations add_marker) in Hmarkers.
  destruct Hc as [-> | [e ->]].
  - right. exists out. eexists. split.
    + rewrite (seq_normal _ _ _ _ _ Hmarkers).
      unfold Player.initializeAudioPlayer.
      repeat (rewrite seq_assoc || rewrite seq_modify). reflexivity.
    + split; [exact Hout|].
      destruct s0 as [[sd ce de ifs ctt ctx sl] au tr vc]. reflexivity.
  - left. now rewrite (seq_thrown _ _ _ _ _ _ Hmarkers).
Qed.

Lemma Ready_names_a_station (s : State) :
  Ready stations dateContent s ->
  forall c, selectedStationId s = Some c -> names_a_station stations c.
Proof.
  induction 1 as [s0 o Hlist Hnone | s o e Hready IH].
  - destruct (initializeApplication_cases o s0)
      as [-> | (out & s1 & -> & _ & Hpage)]; [intros c; congruence|].
    rewrite state_after_after_output.
    apply changePanelContent_names_a_station.
    intros c. unfold selectedStationId in *. rewrite Hpage.
    destruct (page s0). cbn in *. congruence.
  - destruct e as [date | stationId]; simpl handle.
    + unfold selectDate_change. rewrite seq_modify.
      apply changePanelContent_names_a_station.
      intros c. destruct s as [[sd ce de ifs ctt ctx sl] au tr vc]. apply IH.
    + now apply selectStation_names_a_station.
Qed.

Lemma Ready_consistent (s : State) :
  plain_roster stations dateContent ->
  Ready stations dateContent s -> selection_consistent stations dateContent s.
Proof.
  intros Hplain Hready.
  induction Hready as [s0 o Hlist Hnone | s o e Hready IH].
  - destruct (initializeApplication_cases o s0)
      as [-> | (out & s1 & -> & _ & Hpage)].
    { split; [exact Hlist|]. intros c Hc. congruence. }
    rewrite state_after_after_output.
    apply changePanelContent_consistent; [exact Hplain | |].
    + rewrite Hpage. destruct (page s0). exact Hlist.
    + intros c. unfold selectedStationId in *. rewrite Hpage.
      destruct (page s0). cbn in *. congruence.
  - pose proof (Ready_names_a_station s Hready) as Hnames.
    destruct e as [date | stationId]; simpl handle.
    + unfold selectDate_change. rewrite seq_modify.
      apply changePanelContent_consistent; [exact Hplain | |].
      * destruct IH as [IH _].
        destruct s as [[sd ce de ifs ctt ctx sl] au tr vc]. exact IH.
      * intros c. destruct s as [[sd ce de ifs ctt ctx sl] au tr vc]. apply Hnames.
    + now apply selectStation_consistent.
Qed.

End Invariant.

Section Retention.
Variable stations : list Station.t.
Variable dateContent : gmap string DateContent.t.

(** A request to select the station that is already the selected one
    leaves it selected. *)
Lemma selectStation_same (o : PlayOutcome) (c : string) (s : State) :
  selectedStationId s = Some c ->
  selectedStationId (state_after (selectStation stations dateContent o (Some c) s))
  = Some c.
Proof.
  intros Hc.
  destruct (selectStation_cases stations dateContent o (Some c) s)
    as [-> | [-> | (position & station & dyn & Hfind & Hdyn & Hpresent)]];
    [exact Hc | exact Hc |].
  destruct (currentStationEl (page s)) as [el|] eqn:Hel.
  - destruct (selectStation_selects stations dateContent o _ s _ _ _ _
                Hfind Hdyn Hpresent Hel) as (_ & Hcur & _).
    unfold selectedStationId. now rewrite Hcur.
  - unfold selectedStationId in Hc. now rewrite Hel in Hc.
Qed.

(** When no station of the roster has an entry under the date that the
    selector holds, and nothing is read through a prototype, the handler
    of the date change selects nothing and leaves the selected identifier
    as it was. *)
Lemma changePanelContent_retains (o : PlayOutcome) (s : State) :
  plain_roster stations dateContent ->
  no_station_qualifies stations dateContent (selectDate (page s)) ->
  selectedStationId (state_after (changePanelContent stations dateContent o s))
  = selectedStationId s.
Proof.
  intros Hplain Hno.
  destruct (dateContent !! selectDate (page s)) as [dsc|] eqn:Hdate.
  2:{ destruct (inherited (selectDate (page s))) eqn:Hi.
      - now destruct (changePanelContent_inherited stations dateContent o s Hdate Hi)
          as (_ & H & _).
      - now rewrite changePanelContent_unknown by assumption. }
  destruct (stationList (page s)) as [items|] eqn:Hitems.
  2:{ unfold changePanelContent, reading. cbv zeta. rewrite Hdate.
      rewrite seq_emit, seq_modify.
      destruct s as [[sd ce de ifs ctt ctx sl] au tr vc].
      cbn in Hitems. subst sl. reflexivity. }
  destruct (changePanelContent_known stations dateContent o s _ _ Hdate Hitems)
    as (out & _ & ->).
  rewrite state_after_after_output.
  pose proof (rendered_page_page stations dsc s) as (Hd1 & Hel1 & _).
  set (s1 := rendered_page stations dsc s) in *.
  assert (selectedStationId s1 = selectedStationId s) as Hsel
      by (unfold selectedStationId; now rewrite Hel1).
  rewrite <- Hsel.
  unfold maintain_selection, reading. cbv zeta.
  destruct (truthy (selectedStationId s1) && _) eqn:Hcond.
  - apply andb_true_iff in Hcond as [Htruthy _].
    destruct (selectedStationId s1) as [c|] eqn:Hc; [|discriminate].
    now apply selectStation_same.
  - assert (find (has_content dsc) stations = None) as ->.
    { apply find_from_None, Forall_forall. intros station Hst.
      apply has_content_false; [exact (Hplain station _ _ Hst Hdate)|].
      specialize (Hno station Hst). unfold entry_on in Hno. now rewrite Hdate in Hno. }
    now destruct (0 <? length stations)%nat.
Qed.

End Retention.

(** C2, as stated, fails: from the started sample application, with the
    first station selected under the first date, choosing the fourth date,
    under which no station has an entry, leads to a state of the running
    application in which the first station is still the selected one
    although the selected date has no entry for it.  And where an
    identifier of the roster is a name that the station mapping inherits,
    the start-up itself selects a station without an entry: in the roster
    [constructor], [s1], with an entry for [s1] alone under [Feb22], it
    selects [constructor]. *)
Lemma stale_selection_after_date_change :
  (Ready sample_stations sample_dateContent
         (state_after (handle sample_stations sample_dateContent PlayRejected
                              (DateChosen "Feb25") sample_ready))
   /\ sample_dateContent !! "Feb25" <> None
   /\ selectDate (page (state_after (handle sample_stations sample_dateContent PlayRejected
                                            (DateChosen "Feb25") sample_ready)))
      = "Feb25"
   /\ selectedStationId
        (state_after (handle sample_stations sample_dateContent PlayRejected
                             (DateChosen "Feb25") sample_ready))
      = Some "s1"
   /\ entry_on sample_dateContent "Feb25" "s1" = None)
  /\ (Ready constructor_stations constructor_dateContent
         (state_after (initializeApplication constructor_stations constructor_dateContent
                                             PlayRejected (player_at_rest 1)))
      /\ selectDate (page (state_after
            (initializeApplication constructor_stations constructor_dateContent
                                   PlayRejected (player_at_rest 1)))) = "Feb22"
      /\ selectedStationId
           (state_after (initializeApplication constructor_stations constructor_dateContent
                                               PlayRejected (player_at_rest 1)))
         = Some "constructor"
      /\ entry_on constructor_dateContent "Feb22" "constructor" = None
      /\ is_Some (entry_on constructor_dateContent "Feb22" "s1")).
Proof.
  split.
  - split.
    + apply Ready_after. unfold sample_ready. apply Ready_initial.
      * now eexists.
      * reflexivity.
    + split; [vm_compute; discriminate|].
      split; [vm_compute; reflexivity|].
      split; vm_compute; reflexivity.
  - split.
    + apply Ready_initial; [now eexists | reflexivity].
    + split; [vm_compute; reflexivity|].
      split; [vm_compute; reflexivity|].
      split; [vm_compute; reflexivity|]. vm_compute. now eexists.
Qed.

(** C2, amended.  Where no identifier of the roster is read through the
    prototype of a station mapping (none is a name that the mapping
    inherits), in every state of the running application, reached from its
    start by any sequence of date changes and station requests: when a
    station identifier is selected, either the station mapping of the
    selected date has an entry for it, or no station of the roster has an
    entry under the selected date.  A change to a date under which no
    station of the roster has an entry keeps the identifier that was
    selected: the selection is not cleared. *)
Theorem selected_station_consistent_when_ready
        (stations : list Station.t) (dateContent : gmap string DateContent.t)
        (s : State) :
  plain_roster stations dateContent ->
  Ready stations dateContent s ->
  (forall c,
      selectedStationId s = Some c ->
      is_Some (entry_on dateContent (selectDate (page s)) c)
      \/ no_station_qualifies stations dateContent (selectDate (page s)))
  /\ (forall o date,
        no_station_qualifies stations dateContent date ->
        selectedStationId
          (state_after (handle stations dateContent o (DateChosen date) s))
        = selectedStationId s).
Proof.
  intros Hplain Hready. split.
  - now destruct (Ready_consistent stations dateContent s Hplain Hready) as [_ H].
  - intros o date Hno. simpl handle. unfold selectDate_change.
    rewrite seq_modify.
    rewrite changePanelContent_retains.
    + now destruct s as [[sd ce de ifs ctt ctx sl] au tr vc].
    + exact Hplain.
    + now destruct s as [[sd ce de ifs ctt ctx sl] au tr vc].
Qed.

Lemma selected_station_consistent_when_ready_witness :
  (is_Some (entry_on sample_dateContent "Feb22" "s1")
   \/ no_station_qualifies sample_stations sample_dateContent "Feb22")
  /\ selectedStationId
       (state_after (handle sample_stations sample_dateContent PlayFulfilled
                            (DateChosen "Feb25") sample_ready))
     = Some "s1".
Proof.
  destruct (selected_station_consistent_when_ready
              sample_stations sample_dateContent sample_ready) as [Hinv Hkeep].
  - exact sample_plain.
  - unfold sample_ready.
    apply Ready_initial; [now eexists | reflexivity].
  - split.
    + apply (Hinv "s1"). vm_compute. reflexivity.
    + rewrite (Hkeep PlayFulfilled "Feb25"); [vm_compute; reflexivity|].
      intros station Hst. rewrite sample_stations_eq in Hst.
      apply elem_of_cons in Hst as [-> | Hst]; [vm_compute; reflexivity|].
      apply elem_of_cons in Hst as [-> | Hst]; [vm_compute; reflexivity|].
      now apply elem_of_nil in Hst.
Defined.

(** * Further properties of the script *)

(** ** Rows and tables *)

Section MoreCsv.
Import Csv.

(** X1. Whatever the row, no field that [csvSplit] hands back holds a
    double-quote character: the quotes only switch the quoted mode.  A
    doubled quote inside a wrapped field, the usual way to write a quote in
    such a field, is therefore dropped and not turned into one quote. *)
Theorem csvSplit_drops_every_quote (row a b : string) :
  Forall (fun f => occurs quote f = false) (csvSplit row)
  /\ (occurs quote a = false -> occurs quote b = false ->
      csvSplit (quoted (a ++ String quote (String quote b))) = [a ++ b]).
Proof.
  split.
  - apply csvSplit_loop_no_quote; [constructor | reflexivity].
  - intros Ha Hb. unfold csvSplit, quoted.
    simpl csvSplit_loop at 1. rewrite string_app_assoc.
    rewrite csvSplit_loop_in_quotes by assumption.
    rewrite !string_app_cons. simpl csvSplit_loop at 1.
    rewrite csvSplit_loop_in_quotes by assumption.
    simpl. now rewrite string_app_nil_l.
Qed.

Lemma csvSplit_drops_every_quote_witness :
  csvSplit (quoted ("Radio " ++ String quote (String quote "Veritas")))
  = ["Radio Veritas"].
Proof.
  apply (csvSplit_drops_every_quote "" "Radio " "Veritas"); reflexivity.
Defined.

Lemma concat_cons_nonempty (w : string) (ws : list string) :
  ws <> [] ->
  String.concat "," (w :: ws) = w ++ String comma (String.concat "," ws).
Proof. destruct ws; [done | reflexivity]. Qed.

(** X2. A double-quote character that is never closed makes the rest of
    the row one field, whatever commas it holds: after the fields [fs] of
    a row, a last field opened by a quote and not closed is read to the
    end of the row. *)
Theorem unclosed_quote_runs_to_the_end (fs ws : list string) (f : string) :
  Forall (fun g => occurs quote g = false) fs ->
  Forall2 written fs ws ->
  occurs quote f = false ->
  csvSplit (String.concat "," (ws ++ [String quote f])) = (fs ++ [f])%list.
Proof.
  intros Hq Hw Hf. unfold csvSplit.
  assert (forall result,
             csvSplit_loop (String.concat "," (ws ++ [String quote f])) result false ""
             = (result ++ fs ++ [f])%list) as H; [|apply (H [])].
  induction Hw as [|g w fs ws Hgw Hw IH]; intros result.
  - simpl. rewrite <- (string_app_nil_r f) at 1.
    rewrite csvSplit_loop_in_quotes by assumption. reflexivity.
  - apply Forall_cons in Hq as [Hg Hq].
    change ((w :: ws) ++ [String quote f])%list with (w :: (ws ++ [String quote f]))%list.
    rewrite concat_cons_nonempty by (destruct ws; discriminate).
    rewrite (csvSplit_loop_written g w) by assumption.
    rewrite string_app_nil_l. simpl csvSplit_loop at 1.
    rewrite IH by assumption. now rewrite <- app_assoc.
Qed.

Lemma unclosed_quote_runs_to_the_end_witness :
  csvSplit ("s1," ++ String quote "Quezon City, Manila,14.6")
  = ["s1"; "Quezon City, Manila,14.6"].
Proof.
  apply (unclosed_quote_runs_to_the_end ["s1"] ["s1"] "Quezon City, Manila,14.6").
  - repeat constructor.
  - constructor; [right; split; reflexivity | constructor].
  - reflexivity.
Defined.

Lemma split_length (s : string) :
  length (split newline s) = S (line_feeds s).
Proof.
  induction s as [|c s IH]; [reflexivity|]. simpl.
  destruct (Ascii.eqb c newline); simpl; [now rewrite IH|].
  pose proof (split_nonempty newline s) as Hne.
  destruct (split newline s); [done | exact IH].
Qed.

Lemma csvToObjects_length (csv : string) :
  length (csvToObjects csv) = line_feeds csv.
Proof.
  unfold csvToObjects. rewrite length_map.
  pose proof (split_length csv) as Hlen.
  destruct (split newline csv); simpl in *; lia.
Qed.

(** X3. [csvToObjects] yields one record for each line feed of the text,
    whether the line feed stands inside a quoted field or not: a text
    without a line feed (a header alone, or the empty text) yields no
    record at all. *)
Theorem one_record_per_line_feed (csv : string) :
  length (csvToObjects csv) = line_feeds csv
  /\ (line_feeds csv = 0 -> csvToObjects csv = []).
Proof.
  pose proof (csvToObjects_length csv) as H.
  split; [exact H|]. intros H0. rewrite H0 in H.
  now destruct (csvToObjects csv).
Qed.

(** X4. In the record of a row that has more columns than the header, the
    columns beyond the header are all filed under the one name
    [undefined], which ends up bound to the value of the last column of
    the row. *)
Theorem columns_beyond_header_go_to_undefined (csv : string) (k : nat) (r : string) :
  data_rows csv !! k = Some r ->
  length (header_names csv) < length (csvSplit r) ->
  exists (record : gmap string string) (v : string),
    csvToObjects csv !! k = Some record
    /\ last (csvSplit r) = Some v
    /\ record !! "undefined" = Some v.
Proof.
  intros Hr Hlen.
  destruct (csvSplit r) as [|x row] eqn:Hrow using rev_ind; [simpl in Hlen; lia|].
  clear IHrow. exists (fill (header_names csv) 0 (csvSplit r) ∅), x.
  split; [now apply csvToObjects_lookup|].
  split; [apply last_snoc|].
  rewrite Hrow. rewrite length_app in Hlen. simpl in Hlen.
  apply (fill_lookup_last _ 0 _ _ _ (length row)).
  - now rewrite lookup_app_r, Nat.sub_diag by lia.
  - simpl. rewrite lookup_ge_None_2 by lia. reflexivity.
  - discriminate.
  - intros i'. rewrite length_app. simpl. lia.
Qed.

Lemma columns_beyond_header_go_to_undefined_witness :
  exists (record : gmap string string) (v : string),
    csvToObjects ("id,name" ++ String newline "s1,DZRH,14.6,120.9") !! 0 = Some record
    /\ last (csvSplit "s1,DZRH,14.6,120.9") = Some v
    /\ record !! "undefined" = Some v.
Proof.
  apply (columns_beyond_header_go_to_undefined
           ("id,name" ++ String newline "s1,DZRH,14.6,120.9") 0 "s1,DZRH,14.6,120.9").
  - reflexivity.
  - vm_compute. lia.
Defined.

Lemma fill_zip (propertyNames : list string) (j : nat) (row : list string)
      (thisObject : gmap string string) :
  NoDup (drop j propertyNames) ->
  "__proto__" ∉ drop j propertyNames ->
  length row <= length (drop j propertyNames) ->
  fill propertyNames j row thisObject
  = list_to_map (zip (drop j propertyNames) row) ∪ thisObject.
Proof.
  revert j thisObject. induction row as [|v row IH]; intros j obj Hnd Hproto Hlen.
  - simpl. rewrite zip_with_nil_r. simpl. now rewrite (left_id_L ∅ (∪)).
  - destruct (drop j propertyNames) as [|n names] eqn:Hdrop; [simpl in Hlen; lia|].
    assert (propertyNames !! j = Some n) as Hj.
    { rewrite <- (Nat.add_0_r j), <- lookup_drop, Hdrop. reflexivity. }
    assert (drop (S j) propertyNames = names) as Hdrop'.
    { pose proof (drop_S _ _ _ Hj) as Hd. rewrite Hdrop in Hd. congruence. }
    simpl fill. rewrite Hj. simpl prop_key.
    apply NoDup_cons in Hnd as [Hn Hnd].
    apply not_elem_of_cons in Hproto as [Hne Hproto].
    unfold assign_text. replace (String.eqb n "__proto__") with false
      by (symmetry; apply String.eqb_neq; congruence).
    rewrite IH; rewrite Hdrop'; [|assumption|assumption|simpl in Hlen; lia].
    simpl. rewrite <- insert_union_l. symmetry. apply insert_union_r.
    apply not_elem_of_list_to_map_1. intros Hin. apply Hn.
    apply list_elem_of_fmap in Hin as ([n' v'] & -> & Hin).
    now apply elem_of_zip_l in Hin.
Qed.

(** X5. When the names of the header are pairwise distinct, none of them
    is [__proto__], and the row is no longer than the header, the record of
    the row is the header and the row zipped column by column: every
    column of the row is one field of the record, under the name that
    heads it. *)
Theorem record_is_header_zipped_with_row (csv : string) (k : nat) (r : string) :
  data_rows csv !! k = Some r ->
  NoDup (header_names csv) ->
  "__proto__" ∉ header_names csv ->
  length (csvSplit r) <= length (header_names csv) ->
  csvToObjects csv !! k = Some (list_to_map (zip (header_names csv) (csvSplit r)))
  /\ size (list_to_map (zip (header_names csv) (csvSplit r)) : gmap string string)
     = length (csvSplit r).
Proof.
  intros Hr Hnd Hproto Hlen. split.
  - rewrite (csvToObjects_lookup csv k r Hr). f_equal.
    rewrite fill_zip by assumption.
    rewrite drop_0. now rewrite (right_id_L ∅ (∪)).
  - rewrite map_size_list_to_map.
    + rewrite length_zip. lia.
    + rewrite <- (zip_with_take_l _ (header_names csv) (csvSplit r)).
      rewrite fst_zip by (rewrite length_take; lia).
      eapply sublist_NoDup; [exact Hnd | apply sublist_take].
Qed.

Lemma record_is_header_zipped_with_row_witness :
  csvToObjects ("id,name,lat" ++ String newline "s1,DZRH") !! 0
  = Some (list_to_map (zip ["id"; "name"; "lat"] ["s1"; "DZRH"])).
Proof.
  apply (record_is_header_zipped_with_row
           ("id,name,lat" ++ String newline "s1,DZRH") 0 "s1,DZRH").
  - reflexivity.
  - vm_compute. repeat constructor; intros H;
      repeat (apply elem_of_cons in H as [H | H]; [discriminate|]);
      now apply elem_of_nil in H.
  - vm_compute. intros H.
    repeat (apply elem_of_cons in H as [H | H]; [discriminate|]).
    now apply elem_of_nil in H.
  - vm_compute. lia.
Defined.

End MoreCsv.

(** ** From the loaded sheets to the roster and the date contents *)

Section MoreTransform.
Import Transform.

Lemma transformSheetData_dateContent allSheets stations dateContent :
  transformSheetData allSheets = Some (stations, dateContent) ->
  exists feb22 feb23 feb24 feb25,
    allSheets !! "Feb22" = Some feb22 /\ allSheets !! "Feb23" = Some feb23
    /\ allSheets !! "Feb24" = Some feb24 /\ allSheets !! "Feb25" = Some feb25
    /\ dateContent
       = <["Feb25" := date_content "Feb25" feb25]>
           (<["Feb24" := date_content "Feb24" feb24]>
              (<["Feb23" := date_content "Feb23" feb23]>
                 (<["Feb22" := date_content "Feb22" feb22]> ∅))).
Proof.
  unfold transformSheetData, sheetTabs.
  destruct (allSheets !! "Master") as [master|]; [|discriminate].
  simpl foldl. unfold add_tab. simpl String.eqb.
  destruct (allSheets !! "Feb22") as [feb22|]; [|discriminate].
  destruct (allSheets !! "Feb23") as [feb23|]; [|discriminate].
  destruct (allSheets !! "Feb24") as [feb24|]; [|discriminate].
  destruct (allSheets !! "Feb25") as [feb25|]; [|discriminate].
  intros [= <- <-]. now exists feb22, feb23, feb24, feb25.
Qed.

Lemma allSheets_of_lookup (master feb22 feb23 feb24 feb25 : string) :
  let allSheets := allSheets_of [master; feb22; feb23; feb24; feb25] in
  allSheets !! "Master" = Some (Csv.csvToObjects master)
  /\ allSheets !! "Feb22" = Some (Csv.csvToObjects feb22)
  /\ allSheets !! "Feb23" = Some (Csv.csvToObjects feb23)
  /\ allSheets !! "Feb24" = Some (Csv.csvToObjects feb24)
  /\ allSheets !! "Feb25" = Some (Csv.csvToObjects feb25).
Proof.
  unfold allSheets_of, sheetTabs. simpl.
  repeat split;
    repeat (rewrite lookup_insert_eq || rewrite lookup_insert_ne by discriminate);
    reflexivity.
Qed.

(** X6. The transformer cannot fail on what the loader hands over: with
    one text loaded for each tab of [sheetTabs], [transformSheetData]
    returns, and the roster it builds has one station for each line feed
    of the master text, in the order of the rows. *)
Theorem loaded_sheets_always_transform (texts : list string) :
  length texts = length sheetTabs ->
  exists (master : string) (stations : list Station.t)
         (dateContent : gmap string DateContent.t),
    texts !! 0 = Some master
    /\ transformSheetData (allSheets_of texts) = Some (stations, dateContent)
    /\ stations = map station_of (Csv.csvToObjects master)
    /\ length stations = line_feeds master.
Proof.
  intros Hlen.
  destruct texts as [|master [|feb22 [|feb23 [|feb24 [|feb25 [|extra texts]]]]]];
    try discriminate.
  destruct (allSheets_of_lookup master feb22 feb23 feb24 feb25)
    as (Hm & H22 & H23 & H24 & H25).
  eexists master, _, _. split; [reflexivity|].
  unfold transformSheetData, sheetTabs. rewrite Hm.
  simpl foldl. unfold add_tab. simpl String.eqb.
  rewrite H22, H23, H24, H25.
  split; [reflexivity|]. split; [reflexivity|].
  rewrite length_map. apply csvToObjects_length.
Qed.

Lemma loaded_sheets_always_transform_witness :
  exists (master : string) (stations : list Station.t)
         (dateContent : gmap string DateContent.t),
    [master_text; feb22_text; feb23_text; feb24_text; feb25_text] !! 0 = Some master
    /\ transformSheetData sample_sheets = Some (stations, dateContent)
    /\ stations = map station_of (Csv.csvToObjects master)
    /\ length stations = line_feeds master.
Proof.
  apply (loaded_sheets_always_transform
           [master_text; feb22_text; feb23_text; feb24_text; feb25_text]).
  reflexivity.
Defined.

(** X7. When [transformSheetData] returns, [dateContent] has an entry for
    each tab of [sheetTabs] other than the master tab and for nothing
    else, and the entry of a tab is built from the records of that tab
    alone. *)
Theorem date_contents_are_the_date_tabs
        allSheets stations dateContent (d : string) :
  transformSheetData allSheets = Some (stations, dateContent) ->
  (is_Some (dateContent !! d) <-> d ∈ sheetTabs /\ d <> "Master")
  /\ (forall c, dateContent !! d = Some c ->
                exists dateData, allSheets !! d = Some dateData
                                 /\ c = date_content d dateData).
Proof.
  intros Ht.
  destruct (transformSheetData_dateContent _ _ _ Ht)
    as (feb22 & feb23 & feb24 & feb25 & H22 & H23 & H24 & H25 & ->).
  unfold sheetTabs.
  destruct (decide (d = "Feb25")) as [->|N25].
  { rewrite lookup_insert_eq. split.
    - split; [intros _; split; [set_solver | discriminate] | intros _; now eexists].
    - intros c [= <-]. now exists feb25. }
  rewrite lookup_insert_ne by congruence.
  destruct (decide (d = "Feb24")) as [->|N24].
  { rewrite lookup_insert_eq. split.
    - split; [intros _; split; [set_solver | discriminate] | intros _; now eexists].
    - intros c [= <-]. now exists feb24. }
  rewrite lookup_insert_ne by congruence.
  destruct (decide (d = "Feb23")) as [->|N23].
  { rewrite lookup_insert_eq. split.
    - split; [intros _; split; [set_solver | discriminate] | intros _; now eexists].
    - intros c [= <-]. now exists feb23. }
  rewrite lookup_insert_ne by congruence.
  destruct (decide (d = "Feb22")) as [->|N22].
  { rewrite lookup_insert_eq. split.
    - split; [intros _; split; [set_solver | discriminate] | intros _; now eexists].
    - intros c [= <-]. now exists feb22. }
  rewrite lookup_insert_ne by congruence.
  rewrite lookup_empty. split; [|discriminate].
  split; [intros [? ?]; discriminate|].
  intros [Hin Hne]. exfalso.
  repeat (apply elem_of_cons in Hin as [Hin | Hin]; [congruence|]).
  now apply elem_of_nil in Hin.
Qed.

Lemma date_contents_are_the_date_tabs_witness :
  (is_Some (sample_dateContent !! "Master") <-> "Master" ∈ sheetTabs /\ "Master" <> "Master")
  /\ (forall c, sample_dateContent !! "Master" = Some c ->
                exists dateData, sample_sheets !! "Master" = Some dateData
                                 /\ c = date_content "Master" dateData).
Proof.
  apply (date_contents_are_the_date_tabs sample_sheets sample_stations
           sample_dateContent "Master").
  vm_compute. reflexivity.
Defined.

Lemma nonblank_is_truthy (k : string) :
  truthy (Some k) && negb (String.eqb (Text.trim k) "")
  = negb (String.eqb (Text.trim k) "").
Proof. destruct k; reflexivity. Qed.

Lemma populate_own_proto (stations : Stations.t) (stationData : gmap string string) :
  Stations.own stations !! "__proto__" = None ->
  Stations.own (populate stations stationData) !! "__proto__" = None.
Proof.
  intros H. unfold populate.
  destruct (stationData !! "id") as [i|]; [|assumption].
  destruct (_ && _); [|assumption]. unfold Stations.set.
  destruct (String.eqb i "__proto__") eqn:E; [assumption|]. simpl.
  apply String.eqb_neq in E. now rewrite lookup_insert_ne.
Qed.

Lemma foldl_populate_own_proto (dateData : list (gmap string string))
      (stations : Stations.t) :
  Stations.own stations !! "__proto__" = None ->
  Stations.own (foldl populate stations dateData) !! "__proto__" = None.
Proof.
  revert stations. induction dateData as [|r l IH]; intros acc H; [assumption|].
  simpl. apply IH. now apply populate_own_proto.
Qed.

(** The entry read under [k] once a record was filed: that of the record
    when the record carries [k], not blank, and the one read before
    otherwise. *)
Lemma populate_lookup (stations : Stations.t)
      (stationData : gmap string string) (k : string) :
  Stations.own stations !! "__proto__" = None ->
  filed_entry (populate stations stationData) k
  = if bool_decide (stationData !! "id" = Some k)
       && negb (String.eqb (Text.trim k) "")
    then Some {| Entry.description :=
                   or_default (stationData !! "description") "No description available";
                 Entry.audioUrl := or_default (stationData !! "audioUrl") "#" |}
    else filed_entry stations k.
Proof.
  intros Hproto. unfold populate. destruct (stationData !! "id") as [i|] eqn:Hid.
  2:{ now rewrite bool_decide_eq_false_2 by discriminate. }
  rewrite nonblank_is_truthy.
  destruct (decide (i = k)) as [->|Hne].
  - rewrite bool_decide_eq_true_2 by reflexivity. rewrite andb_true_l.
    destruct (negb (String.eqb (Text.trim k) "")); [|reflexivity].
    unfold filed_entry, Stations.get, Stations.set.
    destruct (String.eqb k "__proto__") eqn:E; simpl.
    + apply String.eqb_eq in E. subst k. rewrite Hproto. reflexivity.
    + now rewrite lookup_insert_eq.
  - rewrite bool_decide_eq_false_2 by congruence. rewrite andb_false_l.
    destruct (negb _); [|reflexivity].
    unfold filed_entry, Stations.get, Stations.set.
    destruct (String.eqb i "__proto__") eqn:E; simpl.
    + apply String.eqb_eq in E. subst i.
      destruct (Stations.own stations !! k); [reflexivity|].
      replace (String.eqb k "__proto__") with false
        by (symmetry; apply String.eqb_neq; congruence).
      destruct (String.eqb k "description"), (String.eqb k "audioUrl"),
        (Stations.prototype stations), (inherited k); reflexivity.
    + now rewrite lookup_insert_ne.
Qed.

Lemma foldl_populate_lookup_other (dateData : list (gmap string string))
      (stations : Stations.t) (k : string) :
  Stations.own stations !! "__proto__" = None ->
  Forall (fun r => r !! "id" <> Some k) dateData ->
  filed_entry (foldl populate stations dateData) k = filed_entry stations k.
Proof.
  revert stations. induction dateData as [|r l IH]; intros acc Hp H; [reflexivity|].
  apply Forall_cons in H as [Hr H]. simpl.
  rewrite IH by (try apply populate_own_proto; assumption).
  rewrite populate_lookup by assumption. now rewrite bool_decide_eq_false_2.
Qed.

Lemma foldl_populate_is_Some (dateData : list (gmap string string))
      (stations : Stations.t) (k : string) :
  Stations.own stations !! "__proto__" = None ->
  is_Some (filed_entry (foldl populate stations dateData) k)
  <-> is_Some (filed_entry stations k)
      \/ exists r, r ∈ dateData /\ r !! "id" = Some k /\ Text.trim k <> "".
Proof.
  revert stations. induction dateData as [|r l IH]; intros acc Hp.
  - simpl. split; [auto|]. intros [H | (r & Hr & _)]; [exact H|].
    now apply elem_of_nil in Hr.
  - simpl. rewrite IH by now apply populate_own_proto.
    rewrite populate_lookup by assumption.
    destruct (bool_decide (r !! "id" = Some k)) eqn:Hid; simpl andb.
    + apply bool_decide_eq_true in Hid.
      destruct (String.eqb (Text.trim k) "") eqn:Htrim; simpl negb.
      * apply String.eqb_eq in Htrim. split.
        -- intros [H | (r' & Hr' & H1 & H2)]; [now left | done].
        -- intros [H | (r' & Hr' & H1 & H2)]; [now left | done].
      * apply String.eqb_neq in Htrim. split.
        -- intros _. right. exists r. split; [left | done].
        -- intros _. left. now eexists.
    + apply bool_decide_eq_false in Hid. split.
      * intros [H | (r' & Hr' & H1 & H2)]; [now left|].
        right. exists r'. split; [now right | done].
      * intros [H | (r' & Hr' & H1 & H2)]; [now left|].
        apply elem_of_cons in Hr' as [-> | Hr']; [done|].
        right. now exists r'.
Qed.

(** X8. A read of the station mapping of a date yields an entry for
    exactly the identifiers that some record of the tab carries in its
    [id] field and that are not blank (not empty, not made of white space
    only): a record with a blank or absent identifier adds nothing, and
    what the mapping inherits is no entry. *)
Theorem date_entries_are_the_nonblank_ids
        (tabName : string) (dateData : list (gmap string string)) (k : string) :
  is_Some (filed_entry (DateContent.stations (date_content tabName dateData)) k)
  <-> exists r, r ∈ dateData /\ r !! "id" = Some k /\ Text.trim k <> "".
Proof.
  simpl. rewrite foldl_populate_is_Some by reflexivity.
  split; [intros [[e He] | H]; [|exact H] | now right].
  unfold filed_entry, Stations.get in He. simpl in He.
  rewrite lookup_empty in He. destruct (inherited k); discriminate.
Qed.

(** X9. Among the records of a tab that carry the same non-blank
    identifier the last one wins: the entry read under the identifier is
    built from that record alone, its description and its audio reference
    being those of the record, or [No description available] and [#] where
    the record has none or an empty one. *)
Theorem last_record_of_an_id_wins
        (tabName : string) (before after : list (gmap string string))
        (r : gmap string string) (k : string) :
  r !! "id" = Some k ->
  Text.trim k <> "" ->
  Forall (fun r' => r' !! "id" <> Some k) after ->
  Stations.get (DateContent.stations (date_content tabName (before ++ r :: after))) k
  = Some (Stations.EntryValue
            {| Entry.description :=
                 or_default (r !! "description") "No description available";
               Entry.audioUrl := or_default (r !! "audioUrl") "#" |})
  /\ (r !! "description" = None \/ r !! "description" = Some "" ->
      or_default (r !! "description") "No description available"
      = "No description available")
  /\ (r !! "audioUrl" = None \/ r !! "audioUrl" = Some "" ->
      or_default (r !! "audioUrl") "#" = "#").
Proof.
  intros Hid Htrim Hafter. split.
  - assert (filed_entry (DateContent.stations (date_content tabName (before ++ r :: after))) k
            = Some {| Entry.description :=
                        or_default (r !! "description") "No description available";
                      Entry.audioUrl := or_default (r !! "audioUrl") "#" |}) as H.
    { simpl. rewrite foldl_app. simpl foldl.
      assert (Stations.own (foldl populate Stations.empty before) !! "__proto__" = None)
        as Hp by now apply foldl_populate_own_proto.
      rewrite foldl_populate_lookup_other
        by (try apply populate_own_proto; assumption).
      rewrite populate_lookup by assumption.
      rewrite bool_decide_eq_true_2 by assumption.
      apply String.eqb_neq in Htrim. now rewrite Htrim. }
    unfold filed_entry in H.
    destruct (Stations.get _ k) as [[e| |]|]; try discriminate. congruence.
  - split; intros [-> | ->]; reflexivity.
Qed.

Lemma last_record_of_an_id_wins_witness :
  Stations.get
    (DateContent.stations
       (date_content "Feb22"
          ([ <["description" := "Old"]> (<["id" := "s1"]> ∅) ]
           ++ <["id" := "s1"]> ∅ :: [ <["id" := "s2"]> ∅ ]))) "s1"
  = Some (Stations.EntryValue
            {| Entry.description := "No description available"; Entry.audioUrl := "#" |}).
Proof.
  destruct (last_record_of_an_id_wins "Feb22"
              [ <["description" := "Old"]> (<["id" := "s1"]> ∅) ]
              [ <["id" := "s2"]> ∅ ] (<["id" := "s1"]> ∅) "s1") as [H _].
  - reflexivity.
  - discriminate.
  - repeat constructor. vm_compute. discriminate.
  - rewrite H. vm_compute. reflexivity.
Defined.

Lemma or_default_nonempty (v : option string) (d : string) :
  d <> "" -> or_default v d <> "".
Proof.
  intros Hd. unfold or_default. destruct (truthy v) eqn:Hv; [|exact Hd].
  destruct v as [s|]; [|discriminate]. now apply truthy_Some in Hv.
Qed.

Lemma populate_entries (stations : Stations.t) (stationData : gmap string string) :
  (forall k e, filed_entry stations k = Some e ->
               Entry.description e <> "" /\ Entry.audioUrl e <> "") ->
  Stations.own stations !! "__proto__" = None ->
  forall k e, filed_entry (populate stations stationData) k = Some e ->
              Entry.description e <> "" /\ Entry.audioUrl e <> "".
Proof.
  intros H Hp k e. rewrite populate_lookup by assumption.
  destruct (_ && _); [|apply H].
  intros [= <-]. simpl. split; apply or_default_nonempty; discriminate.
Qed.

Lemma foldl_populate_entries (dateData : list (gmap string string))
      (stations : Stations.t) :
  (forall k e, filed_entry stations k = Some e ->
               Entry.description e <> "" /\ Entry.audioUrl e <> "") ->
  Stations.own stations !! "__proto__" = None ->
  forall k e, filed_entry (foldl populate stations dateData) k = Some e ->
              Entry.description e <> "" /\ Entry.audioUrl e <> "".
Proof.
  revert stations. induction dateData as [|r l IH]; intros acc H Hp; [exact H|].
  simpl. apply IH; [now apply populate_entries | now apply populate_own_proto].
Qed.

(** X10. No entry read from the station mapping of a date has an empty
    description or an empty audio reference: a missing or empty field of
    the record was replaced by its placeholder. *)
Theorem date_entries_are_never_empty
        (tabName : string) (dateData : list (gmap string string))
        (k : string) (e : Entry.t) :
  Stations.get (DateContent.stations (date_content tabName dateData)) k
  = Some (Stations.EntryValue e) ->
  Entry.description e <> "" /\ Entry.audioUrl e <> "".
Proof.
  intros H.
  apply (foldl_populate_entries dateData Stations.empty) with (k := k).
  - intros k' e'. unfold filed_entry, Stations.get. simpl.
    rewrite lookup_empty. destruct (inherited k'); discriminate.
  - reflexivity.
  - unfold filed_entry. simpl in H. now rewrite H.
Qed.

Lemma date_entries_are_never_empty_witness :
  Entry.description {| Entry.description := "No description available";
                       Entry.audioUrl := "#" |} <> ""
  /\ Entry.audioUrl {| Entry.description := "No description available";
                       Entry.audioUrl := "#" |} <> "".
Proof.
  apply (date_entries_are_never_empty "Feb22" [ <["id" := "s1"]> ∅ ] "s1").
  vm_compute. reflexivity.
Defined.

(** X11. A master text that ends in a line feed adds one last station to
    the roster, made from the record of the empty last row: its
    identifier is empty or absent and its latitude and longitude are
    NaN. *)
Theorem trailing_line_feed_adds_a_blank_station (csv : string) :
  exists station : Station.t,
    last (map station_of (Csv.csvToObjects (csv ++ String Csv.newline ""))) = Some station
    /\ truthy (Station.id station) = false
    /\ isNaN (Station.lat station) = true
    /\ isNaN (Station.lng station) = true.
Proof.
  destruct (header_names_first csv) as [first Hfirst].
  rewrite (csvToObjects_trailing_newline csv first Hfirst).
  rewrite map_app. simpl map.
  exists (station_of (assign_text first "" ∅)). split; [apply last_snoc|].
  assert (forall key : string,
             assign_text first "" ∅ !! key = Some ""
             \/ assign_text first "" ∅ !! key = None) as Hkey.
  { intros key. unfold assign_text.
    destruct (String.eqb first "__proto__"); [right; apply lookup_empty|].
    destruct (decide (first = key)) as [->|Hne].
    - left. apply lookup_insert_eq.
    - right. rewrite lookup_insert_ne by assumption. apply lookup_empty. }
  unfold station_of. simpl.
  split; [|split].
  - destruct (Hkey "id") as [-> | ->]; reflexivity.
  - destruct (Hkey "lat") as [-> | ->]; reflexivity.
  - destruct (Hkey "lng") as [-> | ->]; reflexivity.
Qed.

(** X12. The options of the date selector are the dates of [dateContent]:
    when [transformSheetData] returns, every option that
    [setupDateSelector] offers names a date that [dateContent] knows, its
    text is the title of that date, the default [Feb22] is one of the
    options, and [dateContent] knows no date that is not offered. *)
Theorem date_options_are_the_known_dates allSheets stations dateContent :
  transformSheetData allSheets = Some (stations, dateContent) ->
  Forall (fun o => exists c, dateContent !! option_value o = Some c
                            /\ DateContent.title c = option_text o)
         setupDateSelector_options
  /\ "Feb22" ∈ map option_value setupDateSelector_options
  /\ (forall d, is_Some (dateContent !! d) -> d ∈ map option_value setupDateSelector_options).
Proof.
  intros Ht.
  destruct (transformSheetData_dateContent _ _ _ Ht)
    as (feb22 & feb23 & feb24 & feb25 & H22 & H23 & H24 & H25 & ->).
  split; [|split].
  - unfold setupDateSelector_options, sheetTabs. simpl.
    repeat constructor; simpl; eexists;
      (split; [repeat (rewrite lookup_insert_eq || rewrite lookup_insert_ne by discriminate);
               reflexivity | reflexivity]).
  - vm_compute. set_solver.
  - intros d Hd.
    change (map option_value setupDateSelector_options)
      with ["Feb22"; "Feb23"; "Feb24"; "Feb25"].
    destruct (decide (d = "Feb25")) as [->|N25]; [set_solver|].
    destruct (decide (d = "Feb24")) as [->|N24]; [set_solver|].
    destruct (decide (d = "Feb23")) as [->|N23]; [set_solver|].
    destruct (decide (d = "Feb22")) as [->|N22]; [set_solver|].
    rewrite !lookup_insert_ne, lookup_empty in Hd by congruence.
    now destruct Hd.
Qed.

Lemma date_options_are_the_known_dates_witness :
  Forall (fun o => exists c, sample_dateContent !! option_value o = Some c
                            /\ DateContent.title c = option_text o)
         setupDateSelector_options
  /\ "Feb22" ∈ map option_value setupDateSelector_options
  /\ (forall d, is_Some (sample_dateContent !! d) ->
                d ∈ map option_value setupDateSelector_options).
Proof.
  apply (date_options_are_the_known_dates sample_sheets sample_stations sample_dateContent).
  vm_compute. reflexivity.
Defined.

End MoreTransform.

(** ** The station list and the selection *)

Section MoreSelection.
Variable stations : list Station.t.
Variable dateContent : gmap string DateContent.t.

Lemma map_mark_active_stations (v : option string) (items : list StationItem) :
  map dataset_station (map (mark_active v) items) = map dataset_station items.
Proof. induction items as [|x items IH]; [reflexivity|]. simpl. now rewrite IH. Qed.

(** X13. A request that selects a station (it names a station of the
    roster, and the read under the selected date yields a truthy value)
    moves the highlight to exactly the items of the station list that
    carry its identifier: afterwards an item is active if and only if its
    [data-station] attribute is the identifier requested, and the list
    holds the same items in the same order. *)
Theorem selection_highlights_exactly_the_selected
        (o : PlayOutcome) (stationId : option string) (s : State)
        (position : nat) (station : Station.t) (dynamicData : Stations.Value)
        (el : Element) (items : list StationItem) :
  find (fun st => bool_decide (Station.id st = stationId)) stations
  = Some (position, station) ->
  dynamicData_of dateContent (selectDate (page s)) stationId
  = ReadValue (Some dynamicData) ->
  Stations.present (Some dynamicData) = true ->
  currentStationEl (page s) = Some el ->
  stationList (page s) = Some items ->
  exists items',
    stationList (page (state_after (selectStation stations dateContent o stationId s)))
    = Some items'
    /\ map dataset_station items' = map dataset_station items
    /\ forall item, item ∈ items' ->
                    (active item = true <-> Some (dataset_station item) = stationId).
Proof.
  intros Hfind Hdyn Hpresent Hel Hitems.
  destruct (selectStation_selects stations dateContent o _ s _ _ _ _
              Hfind Hdyn Hpresent Hel)
    as (_ & _ & _ & Hlist & _).
  rewrite Hitems in Hlist. exists (map (mark_active stationId) items).
  split; [exact Hlist|]. split; [apply map_mark_active_stations|].
  intros item Hin. apply list_elem_of_In, in_map_iff in Hin as (item0 & <- & _).
  simpl. apply bool_decide_eq_true.
Qed.

Lemma omap_rendered_item_stations (dsc : DateContent.t) (l : list Station.t) :
  map dataset_station (omap (rendered_item dsc) l)
  = map (fun st => prop_key (Station.id st)) (List.filter (has_content dsc) l).
Proof.
  induction l as [|st l IH]; [reflexivity|].
  assert (omap (rendered_item dsc) (st :: l)
          = match rendered_item dsc st with
            | Some item => item :: omap (rendered_item dsc) l
            | None => omap (rendered_item dsc) l
            end) as -> by reflexivity.
  simpl List.filter. unfold rendered_item at 1, has_content at 1. cbv zeta.
  destruct (Stations.present
              (Stations.get (DateContent.stations dsc) (prop_key (Station.id st))))
    eqn:Hpresent.
  - destruct (Stations.get (DateContent.stations dsc) (prop_key (Station.id st)));
      [|discriminate].
    simpl. now rewrite IH.
  - exact IH.
Qed.

Lemma selectStation_list_stations (o : PlayOutcome) (v : option string) (s : State)
      (items : list StationItem) :
  stationList (page s) = Some items ->
  exists items',
    stationList (page (state_after (selectStation stations dateContent o v s)))
    = Some items'
    /\ map dataset_station items' = map dataset_station items.
Proof.
  intros Hitems.
  destruct (selectStation_cases stations dateContent o v s)
    as [-> | [-> | (position & station & dyn & Hfind & Hdyn & Hpresent)]];
    [now exists items | now exists items |].
  exists (map (mark_active v) items). split; [|apply map_mark_active_stations].
  destruct (currentStationEl (page s)) as [el|] eqn:Hel.
  - destruct (selectStation_selects stations dateContent o v s _ _ _ _
                Hfind Hdyn Hpresent Hel)
      as (_ & _ & _ & Hlist & _). now rewrite Hlist, Hitems.
  - destruct (selectStation_throws stations dateContent o v s _ _ _
                Hfind Hdyn Hpresent Hel)
      as (_ & _ & Hlist & _). now rewrite Hlist, Hitems.
Qed.

(** X14. On a known date, whatever the station list held before, the
    handler of the date change rebuilds it as the stations of the roster
    for which the read of the station mapping of the date is truthy (an
    entry, or what the mapping inherits under the identifier), in roster
    order, one item for each: the [data-station] attributes of the items
    are the identifiers of those stations. *)
Theorem station_list_is_roster_with_content
        (o : PlayOutcome) (s : State) (dateSpecificContent : DateContent.t)
        (items : list StationItem) :
  dateContent !! selectDate (page s) = Some dateSpecificContent ->
  stationList (page s) = Some items ->
  exists items',
    stationList (page (state_after (changePanelContent stations dateContent o s)))
    = Some items'
    /\ map dataset_station items'
       = map (fun st => prop_key (Station.id st))
             (List.filter (has_content dateSpecificContent) stations).
Proof.
  intros Hdate Hitems.
  destruct (changePanelContent_known stations dateContent o s _ _ Hdate Hitems)
    as (out & _ & ->).
  rewrite state_after_after_output.
  pose proof (rendered_page_page stations dateSpecificContent s) as (_ & _ & Hl1).
  set (s1 := rendered_page stations dateSpecificContent s) in *.
  rewrite <- omap_rendered_item_stations.
  unfold maintain_selection, reading. cbv zeta.
  destruct (_ && _).
  - destruct (selectStation_list_stations o (selectedStationId s1) s1 _ Hl1)
      as (items' & H1 & H2). now exists items'.
  - destruct (0 <? length stations)%nat; [|now eexists].
    destruct (find _ stations) as [[position station]|]; [|now eexists].
    destruct (selectStation_list_stations o (Station.id station) s1 _ Hl1)
      as (items' & H1 & H2). now exists items'.
Qed.

(** X15. On a page without the station list, the handler of a change to a
    known date sets the texts of the context, reports the missing list on
    the console and stops there: it ends normally, updates no popup,
    selects no station and leaves the selected identifier as it was, even
    when stations of the roster have content under the date. *)
Theorem missing_station_list_stops_the_date_change
        (o : PlayOutcome) (s : State) (dateSpecificContent : DateContent.t) :
  dateContent !! selectDate (page s) = Some dateSpecificContent ->
  stationList (page s) = None ->
  completion (changePanelContent stations dateContent o s) = Normal
  /\ effects (changePanelContent stations dateContent o s)
     = [ConsoleLog ("Loading content for " ++ selectDate (page s) ++ ":");
        ConsoleError "Station list div not found!"]
  /\ selectedStationId (state_after (changePanelContent stations dateContent o s))
     = selectedStationId s
  /\ contextTitle (page (state_after (changePanelContent stations dateContent o s)))
     = fmap (fun _ => DateContent.title dateSpecificContent) (contextTitle (page s)).
Proof.
  intros Hdate Hlist.
  unfold changePanelContent, reading. cbv zeta. rewrite Hdate.
  rewrite seq_emit, seq_modify.
  destruct s as [[sd ce de ifs ctt ctx sl] au tr vc].
  cbn in Hlist. subst sl. repeat split.
Qed.

End MoreSelection.

Lemma station_list_is_roster_with_content_witness :
  exists items',
    stationList (page (state_after
      (changePanelContent sample_stations sample_dateContent PlayFulfilled
                          (sample_on "Feb24"))))
    = Some items'
    /\ map dataset_station items' = ["s1"; "s2"].
Proof.
  edestruct (station_list_is_roster_with_content
               sample_stations sample_dateContent PlayFulfilled (sample_on "Feb24"))
    as (items' & H1 & H2).
  - vm_compute. reflexivity.
  - vm_compute. reflexivity.
  - exists items'. split; [exact H1|]. rewrite H2. vm_compute. reflexivity.
Defined.

Lemma missing_station_list_stops_the_date_change_witness :
  effects (changePanelContent sample_stations sample_dateContent PlayFulfilled
             (on_page (set_stationList None) (player_at_rest 1)))
  = [ConsoleLog "Loading content for Feb22:";
     ConsoleError "Station list div not found!"].
Proof.
  edestruct (missing_station_list_stops_the_date_change
               sample_stations sample_dateContent PlayFulfilled
               (on_page (set_stationList None) (player_at_rest 1)))
    as (_ & H & _).
  - vm_compute. reflexivity.
  - reflexivity.
  - exact H.
Defined.

Lemma selection_highlights_exactly_the_selected_witness :
  exists items',
    stationList (page (state_after
      (selectStation sample_stations sample_dateContent PlayFulfilled (Some "s2")
                     (sample_on "Feb24"))))
    = Some items'
    /\ forall item, item ∈ items' ->
                    (active item = true <-> Some (dataset_station item) = Some "s2").
Proof.
  edestruct (selection_highlights_exactly_the_selected
               sample_stations sample_dateContent PlayFulfilled (Some "s2")
               (sample_on "Feb24")) as (items' & H1 & _ & H2).
  - vm_compute. reflexivity.
  - vm_compute. reflexivity.
  - reflexivity.
  - vm_compute. reflexivity.
  - vm_compute. reflexivity.
  - exists items'. split; [exact H1 | exact H2].
Defined.

Section MoreHandlers.
Variable stations : list Station.t.
Variable dateContent : gmap string DateContent.t.

Lemma mark_active_twice (v : option string) (items : list StationItem) :
  map (mark_active v) (map (mark_active v) items) = map (mark_active v) items.
Proof. induction items as [|x items IH]; [reflexivity|]. simpl. now rewrite IH. Qed.

(** X16. Requesting the same station twice in a row, with the same answer
    of the platform to the playback, leaves the state that the first
    request left: the second request repeats the calls to the audio
    element and the map and changes nothing else. *)
Theorem selecting_twice_is_selecting_once
        (o : PlayOutcome) (stationId : option string) (s : State) :
  state_after (selectStation stations dateContent o stationId
                 (state_after (selectStation stations dateContent o stationId s)))
  = state_after (selectStation stations dateContent o stationId s).
Proof.
  destruct (selectStation_cases stations dateContent o stationId s)
    as [Hs | [Hs | (position & station & dyn & Hfind & Hdyn & Hpresent)]].
  1,2: rewrite Hs; change (state_after (_, s, _)) with s; now rewrite Hs.
  remember (state_after (selectStation stations dateContent o stationId s)) as s1 eqn:Hs1.
  destruct s as [[sd ce de ifs ctt ctx sl] [sr lp vl ct] [pb wp ip pr] vc].
  cbn [page selectDate] in Hdyn.
  unfold selectStation, reading in Hs1. cbv zeta in Hs1.
  cbn [page selectDate] in Hs1. rewrite Hfind, Hdyn, Hpresent in Hs1.
  unfold selectStation, reading. cbv zeta. rewrite Hfind.
  set (nan := isNaN (Station.lat station) || isNaN (Station.lng station)) in *.
  clearbody nan.
  destruct nan, ce as [el|], sl as [items|], o;
    cbv -[map mark_active prop_key Stations.description Stations.audioUrl] in Hs1;
    subst s1;
    cbn [page selectDate]; rewrite Hdyn, Hpresent;
    cbv -[map mark_active prop_key Stations.description Stations.audioUrl];
    rewrite ?mark_active_twice; reflexivity.
Qed.

(** X17. The handlers never write the date selector: after a request to
    select a station it holds what it held, and after a date was chosen it
    holds the date chosen, whether [dateContent] knows that date or not
    and however the handler ends. *)
Theorem date_selector_holds_the_last_choice (o : PlayOutcome) (e : Event) (s : State) :
  selectDate (page (state_after (handle stations dateContent o e s)))
  = match e with
    | DateChosen date => date
    | StationRequested _ => selectDate (page s)
    end.
Proof.
  destruct e as [date | stationId]; simpl handle.
  - unfold selectDate_change. rewrite seq_modify.
    set (s1 := on_page (set_selectDate date) s).
    assert (selectDate (page s1) = date) as Hs1
        by now destruct s as [[sd ce de ifs ctt ctx sl] au tr vc].
    transitivity (selectDate (page s1)); [|exact Hs1]. clearbody s1. clear Hs1.
    destruct (dateContent !! selectDate (page s1)) as [dsc|] eqn:Hdate.
    2:{ destruct (inherited (selectDate (page s1))) eqn:Hi.
        - now destruct (changePanelContent_inherited stations dateContent o s1 Hdate Hi)
            as (H & _).
        - now rewrite changePanelContent_unknown by assumption. }
    destruct (stationList (page s1)) as [items|] eqn:Hitems.
    + now apply (changePanelContent_keeps_selectDate stations dateContent o s1 dsc items).
    + unfold changePanelContent, reading. cbv zeta. rewrite Hdate.
      rewrite seq_emit, seq_modify.
      destruct s1 as [[sd ce de ifs ctt ctx sl] au tr vc].
      cbn in Hitems. subst sl. reflexivity.
  - now destruct (selectStation_outcome stations dateContent o stationId s) as (H & _).
Qed.

(** X18. After a station was selected and its playback started, the play
    button is labelled [Pause] while the variable [isPlaying] that its
    listener reads still has the value it had: on a player that was not
    flagged as playing, the next click on the button does not pause, it
    calls [play] again and leaves the label [Pause]. *)
Theorem click_after_autoplay_does_not_pause
        (stationId : option string) (s : State)
        (position : nat) (station : Station.t) (dynamicData : Stations.Value)
        (el : Element) :
  find (fun st => bool_decide (Station.id st = stationId)) stations
  = Some (position, station) ->
  dynamicData_of dateContent (selectDate (page s)) stationId
  = ReadValue (Some dynamicData) ->
  Stations.present (Some dynamicData) = true ->
  currentStationEl (page s) = Some el ->
  isPlaying (transport s) = false ->
  playBtn (transport (state_after
    (selectStation stations dateContent PlayFulfilled stationId s))) = "Pause"
  /\ isPlaying (transport (state_after
       (selectStation stations dateContent PlayFulfilled stationId s))) = false
  /\ effects (Player.playBtn_click PlayFulfilled
                (state_after (selectStation stations dateContent PlayFulfilled stationId s)))
     = [AudioPlay]
  /\ playBtn (transport (state_after
       (Player.playBtn_click PlayFulfilled
          (state_after (selectStation stations dateContent PlayFulfilled stationId s)))))
     = "Pause".
Proof.
  intros Hfind Hdyn Hpresent Hel Hplaying.
  destruct s as [[sd ce de ifs ctt ctx sl] au [pb wp ip pr] vc].
  cbn [page selectDate currentStationEl transport isPlaying] in Hdyn, Hel, Hplaying.
  subst ce ip.
  unfold selectStation, reading. cbv zeta. cbn [page selectDate].
  rewrite Hfind, Hdyn, Hpresent.
  destruct (isNaN (Station.lat station) || isNaN (Station.lng station));
    cbn; repeat split.
Qed.

End MoreHandlers.

Lemma click_after_autoplay_does_not_pause_witness :
  effects (Player.playBtn_click PlayFulfilled
             (state_after (selectStation sample_stations sample_dateContent PlayFulfilled
                                         (Some "s1") (player_at_rest 1))))
  = [AudioPlay].
Proof.
  edestruct (click_after_autoplay_does_not_pause
               sample_stations sample_dateContent (Some "s1") (player_at_rest 1))
    as (_ & _ & H & _).
  - vm_compute. reflexivity.
  - vm_compute. reflexivity.
  - reflexivity.
  - reflexivity.
  - reflexivity.
  - exact H.
Defined.

(** ** The transport and the volume *)

(** X19. Each click on the play button flips the variable [isPlaying],
    whatever the platform answers to [play]: when [play] returns a
    promise, two clicks in a row end normally, leave [isPlaying] as it
    was, pause the audio once and call [play] once, and the button is
    labelled for the state the player was in before. *)
Theorem two_clicks_on_play_restore_the_flag (o1 o2 : PlayOutcome) (s : State) :
  o1 <> PlayNoPromise ->
  o2 <> PlayNoPromise ->
  completion ((Player.playBtn_click o1 ;; Player.playBtn_click o2) s) = Normal
  /\ isPlaying (transport (state_after
       ((Player.playBtn_click o1 ;; Player.playBtn_click o2) s)))
     = isPlaying (transport s)
  /\ playBtn (transport (state_after
       ((Player.playBtn_click o1 ;; Player.playBtn_click o2) s)))
     = (if isPlaying (transport s) then "Pause" else "Play")
  /\ length (List.filter (fun e => match e with AudioPlay => true | _ => false end)
               (effects ((Player.playBtn_click o1 ;; Player.playBtn_click o2) s))) = 1
  /\ length (List.filter (fun e => match e with AudioPause => true | _ => false end)
               (effects ((Player.playBtn_click o1 ;; Player.playBtn_click o2) s))) = 1.
Proof.
  intros H1 H2.
  destruct s as [pg au [pb wp [|] pr] vc]; destruct o1, o2; try done; repeat split.
Qed.

Lemma two_clicks_on_play_restore_the_flag_witness :
  isPlaying (transport (state_after
    ((Player.playBtn_click PlayRejected ;; Player.playBtn_click PlayFulfilled)
       (player_at_rest 1)))) = false
  /\ playBtn (transport (state_after
       ((Player.playBtn_click PlayRejected ;; Player.playBtn_click PlayFulfilled)
          (player_at_rest 1)))) = "Play".
Proof.
  destruct (two_clicks_on_play_restore_the_flag PlayRejected PlayFulfilled
              (player_at_rest 1)) as (_ & H1 & H2 & _); [discriminate | discriminate |].
  split; [exact H1 | exact H2].
Defined.

(** X20. Moving the volume slider while the player is muted: to a value
    greater than zero it unmutes the player at that volume, and the volume
    remembered by the mute is kept; to zero it leaves the player muted. *)
Theorem slider_unmutes_only_above_zero (value : float) (s : State) :
  isMuted (volumeControl s) = true ->
  completion (Player.volumeSlider_input value s) = Normal
  /\ volume (audio (state_after (Player.volumeSlider_input value s))) = value
  /\ lastVolume (volumeControl (state_after (Player.volumeSlider_input value s)))
     = lastVolume (volumeControl s)
  /\ isMuted (volumeControl (state_after (Player.volumeSlider_input value s)))
     = negb (PrimFloat.ltb 0 value)
  /\ (isMuted (volumeControl (state_after (Player.volumeSlider_input value s))) = true ->
      volumeBtn (volumeControl (state_after (Player.volumeSlider_input value s)))
      = IconMuted).
Proof.
  destruct s as [pg [sr lp v ct] tr [btn sl pn tm mt lv]].
  simpl. intros ->.
  unfold Player.volumeSlider_input, Player.updateVolumeButton,
    seq, reading, modify, skip, completion, state_after.
  cbn -[PrimFloat.ltb PrimFloat.eqb].
  destruct (PrimFloat.ltb 0 value) eqn:Hpos; cbn -[PrimFloat.ltb PrimFloat.eqb].
  - repeat split. discriminate.
  - repeat split.
Qed.

Lemma slider_unmutes_only_above_zero_witness :
  isMuted (volumeControl (state_after
    (Player.volumeSlider_input 0.5
       (state_after (Player.volumeBtn_click (player_at_rest 1)))))) = false
  /\ isMuted (volumeControl (state_after
       (Player.volumeSlider_input 0
          (state_after (Player.volumeBtn_click (player_at_rest 1)))))) = true.
Proof.
  split.
  - destruct (slider_unmutes_only_above_zero 0.5
                (state_after (Player.volumeBtn_click (player_at_rest 1))))
      as (_ & _ & _ & H & _); [reflexivity | exact H].
  - destruct (slider_unmutes_only_above_zero 0
                (state_after (Player.volumeBtn_click (player_at_rest 1))))
      as (_ & _ & _ & H & _); [reflexivity | exact H].
Defined.

(** The icon of the volume button, as [updateVolumeButton] chooses it. *)
Lemma updateVolumeButton_icon (s : State) :
  volumeBtn (volumeControl (state_after (Player.updateVolumeButton s))) = IconMuted
  <-> isMuted (volumeControl s) = true \/ PrimFloat.eqb (volume (audio s)) 0 = true.
Proof.
  destruct s as [pg [sr lp v ct] tr [btn sl pn tm mt lv]].
  unfold Player.updateVolumeButton, modify, state_after.
  cbn -[PrimFloat.ltb PrimFloat.eqb].
  destruct mt, (PrimFloat.eqb v 0), (PrimFloat.ltb v 0.5);
    cbn; split; auto; try discriminate; intros [H | H]; discriminate.
Qed.

(** X21. After a click on the volume button, and after a move of the
    volume slider, the button shows the muted icon exactly when the player
    is flagged as muted or the volume of the audio is zero. *)
Theorem volume_icon_agrees_with_the_state (value : float) (s : State) :
  (volumeBtn (volumeControl (state_after (Player.volumeBtn_click s))) = IconMuted
   <-> isMuted (volumeControl (state_after (Player.volumeBtn_click s))) = true
       \/ PrimFloat.eqb (volume (audio (state_after (Player.volumeBtn_click s)))) 0 = true)
  /\ (volumeBtn (volumeControl (state_after (Player.volumeSlider_input value s))) = IconMuted
      <-> isMuted (volumeControl (state_after (Player.volumeSlider_input value s))) = true
          \/ PrimFloat.eqb (volume (audio (state_after (Player.volumeSlider_input value s)))) 0
             = true).
Proof.
  destruct s as [pg [sr lp v ct] tr [btn sl pn tm mt lv]].
  split.
  - unfold Player.volumeBtn_click, Player.updateVolumeButton, Player.showVolumePanel,
      seq, reading, modify, emit, skip, state_after.
    cbv -[PrimFloat.ltb PrimFloat.eqb].
    destruct mt, tm; cbv -[PrimFloat.ltb PrimFloat.eqb];
      repeat match goal with
             | |- context [if ?c then _ else _] => destruct c eqn:?
             end;
      cbv -[PrimFloat.ltb PrimFloat.eqb];
      split; auto; try discriminate; intros [H | H]; congruence.
  - unfold Player.volumeSlider_input, Player.updateVolumeButton,
      seq, reading, modify, emit, skip, state_after.
    cbv -[PrimFloat.ltb PrimFloat.eqb].
    destruct mt; cbv -[PrimFloat.ltb PrimFloat.eqb];
      repeat match goal with
             | |- context [if ?c then _ else _] => destruct c eqn:?
             end;
      cbv -[PrimFloat.ltb PrimFloat.eqb];
      split; auto; try discriminate; intros [H | H]; congruence.
Qed.

Section MoreInvariants.
Variable stations : list Station.t.
Variable dateContent : gmap string DateContent.t.

(** X22. In every state of the running application the selected
    identifier, when there is one, is the identifier of a station of the
    roster: no request and no date change ever selects anything else. *)
Theorem selected_id_names_a_roster_station (s : State) (c : string) :
  Ready stations dateContent s ->
  selectedStationId s = Some c ->
  exists station, station ∈ stations /\ prop_key (Station.id station) = c.
Proof.
  intros Hready Hc.
  exact (Ready_names_a_station stations dateContent s Hready c Hc).
Qed.

End MoreInvariants.

Lemma selected_id_names_a_roster_station_witness :
  exists station, station ∈ sample_stations /\ prop_key (Station.id station) = "s1".
Proof.
  apply (selected_id_names_a_roster_station sample_stations sample_dateContent
           sample_ready "s1").
  - unfold sample_ready.
    apply Ready_initial; [now eexists | reflexivity].
  - vm_compute. reflexivity.
Defined.

Lemma forEach_add_marker_placed (l : list Station.t) (i : nat) (s : State) :
  Forall has_position l ->
  exists out, forEach_from i l add_marker s = (Normal, s, out) /\ selected_by out = [].
Proof.
  revert i. induction l as [|x l IH]; intros i Hl.
  - now exists [].
  - apply Forall_cons in Hl as [Hx Hl]. simpl forEach_from. unfold add_marker at 1.
    unfold has_position in Hx. rewrite Hx.
    destruct (IH (S i) Hl) as (out & Hrun & Hout).
    rewrite seq_emit, Hrun. now exists (MarkerAddTo i :: out).
Qed.

Lemma forEach_add_marker_throws (l : list Station.t) (i : nat) (s : State) :
  ~ Forall has_position l ->
  exists out, forEach_from i l add_marker s = (Thrown "Error", s, out).
Proof.
  revert i. induction l as [|x l IH]; intros i Hl.
  - exfalso. apply Hl. constructor.
  - simpl forEach_from. unfold add_marker at 1.
    destruct (isNaN (Station.lat x) || isNaN (Station.lng x)) eqn:Hx.
    + now exists [].
    + destruct (IH (S i)) as (out & Hrun).
      * intros H. apply Hl. now constructor.
      * rewrite seq_emit, Hrun. now exists (MarkerAddTo i :: out).
Qed.

(** X23. Start-up.  When a station of the roster has a coordinate that is
    not a number, [initializeApplication] throws at its marker and leaves
    the page as it was: no player, no date, no station list.  When every
    station has a position, with the roster and the date contents built by
    [transformSheetData], no identifier of the roster being read through
    the prototype of a station mapping, on a page that has its station
    list and the element that shows the selected station, nothing being
    selected yet, it ends normally with the date selector on [Feb22], a
    date that [dateContent] knows, and with the first station of the
    roster, in roster order, that has an entry under that date as the
    selected station, or with no station selected when there is none. *)
Theorem start_up_selects_the_first_station_of_feb22
        (allSheets : gmap string (list (gmap string string)))
        (stations : list Station.t) (dateContent : gmap string DateContent.t)
        (o : PlayOutcome) (s0 : State) (items : list StationItem) (el : Element) :
  Transform.transformSheetData allSheets = Some (stations, dateContent) ->
  plain_roster stations dateContent ->
  stationList (page s0) = Some items ->
  currentStationEl (page s0) = Some el ->
  dataset_id el = None ->
  (~ placed stations ->
   completion (initializeApplication stations dateContent o s0) = Thrown "Error"
   /\ state_after (initializeApplication stations dateContent o s0) = s0)
  /\ (placed stations ->
      exists dateSpecificContent,
        dateContent !! "Feb22" = Some dateSpecificContent
        /\ completion (initializeApplication stations dateContent o s0) = Normal
        /\ selectDate (page (state_after (initializeApplication stations dateContent o s0)))
           = "Feb22"
        /\ (forall position station,
              first_with_content stations dateSpecificContent position station ->
              selectedStationId
                (state_after (initializeApplication stations dateContent o s0))
              = Some (prop_key (Station.id station))
              /\ selected_by (effects (initializeApplication stations dateContent o s0))
                 = [position])
        /\ ((forall station, station ∈ stations ->
               entry_under dateSpecificContent (prop_key (Station.id station)) = None) ->
            selectedStationId
              (state_after (initializeApplication stations dateContent o s0))
            = None
            /\ selected_by (effects (initializeApplication stations dateContent o s0))
               = [])).
Proof.
  intros Ht Hplain Hitems Hel Hnone. split.
  - intros Hplaced. unfold initializeApplication, forEach.
    destruct (forEach_add_marker_throws stations 0 s0 Hplaced) as (out & Hrun).
    rewrite (seq_thrown _ _ _ _ _ _ Hrun). split; reflexivity.
  - intros Hplaced.
    destruct (transformSheetData_dateContent _ _ _ Ht)
      as (feb22 & feb23 & feb24 & feb25 & _ & _ & _ & _ & Hdc).
    assert (dateContent !! "Feb22" = Some (Transform.date_content "Feb22" feb22)) as Hdate.
    { rewrite Hdc.
      repeat (rewrite lookup_insert_eq || rewrite lookup_insert_ne by discriminate).
      reflexivity. }
    exists (Transform.date_content "Feb22" feb22). split; [exact Hdate|].
    unfold initializeApplication, forEach.
    destruct (forEach_add_marker_placed stations 0 s0 Hplaced) as (out & Hrun & Hout).
    rewrite (seq_normal _ _ _ _ _ Hrun).
    rewrite completion_after_output, state_after_after_output, effects_after_output.
    rewrite selected_by_app, Hout. simpl app.
    unfold Player.initializeAudioPlayer.
    repeat (rewrite seq_assoc || rewrite seq_modify).
    match goal with
    | |- context [changePanelContent stations dateContent o ?s] => set (s1 := s)
    end.
    assert (selectDate (page s1) = "Feb22" /\ stationList (page s1) = Some items
            /\ currentStationEl (page s1) = Some el) as (Hd1 & Hl1 & He1).
    { destruct s0 as [[sd ce de ifs ctt ctx sl] au tr vc]. cbn in *. auto. }
    clearbody s1. rewrite <- Hd1 in Hdate.
    destruct (changePanelContent_selection stations dateContent o s1 _ items el
                Hdate Hl1 He1) as (Hnormal & _ & Hfallback & Hnothing).
    { exact (transformSheetData_no_empty_id allSheets stations dateContent Ht _ _ Hdate). }
    { intros st Hst. exact (Hplain st _ _ Hst Hdate). }
    { intros c Hc. congruence. }
    split; [now apply Hnormal|]. split.
    + rewrite (changePanelContent_keeps_selectDate stations dateContent o s1 _ items
                 Hdate Hl1).
      exact Hd1.
    + split.
      * intros position station Hfirst.
        destruct (Hfallback position station) as [H1 H2];
          [intros c Hc; congruence | exact Hfirst |].
        split; [exact H1 | now apply H2].
      * intros Hno. rewrite <- Hnone. apply Hnothing; [|exact Hno].
        intros c Hc. congruence.
Qed.

Lemma start_up_selects_the_first_station_of_feb22_witness :
  exists dateSpecificContent,
    sample_dateContent !! "Feb22" = Some dateSpecificContent
    /\ selectDate (page sample_ready) = "Feb22"
    /\ (forall position station,
          first_with_content sample_stations dateSpecificContent position station ->
          selectedStationId sample_ready = Some (prop_key (Station.id station))).
Proof.
  edestruct (start_up_selects_the_first_station_of_feb22
               sample_sheets sample_stations sample_dateContent PlayRejected
               (player_at_rest 1)) as (_ & H).
  - vm_compute. reflexivity.
  - exact sample_plain.
  - reflexivity.
  - reflexivity.
  - reflexivity.
  - destruct (H sample_placed) as (dsc & H1 & _ & H2 & H3 & _).
    exists dsc. split; [exact H1|]. split; [exact H2|].
    intros position station Hfirst. exact (proj1 (H3 position station Hfirst)).
Defined.

(** X24. The listeners of the play button and of the end of the track keep
    the label of the button in step with the variable [isPlaying]: when
    the label is the one for the value of the variable, it still is after
    any sequence of clicks on the button and ends of track, whatever the
    platform answers to each call of [play], also when a listener ends by
    an exception.  (A selection of a station is what takes them out of
    step.) *)
Theorem clicks_and_track_ends_keep_label_and_flag_in_step
        (es : list TransportEvent) (s : State) :
  label_follows_flag s ->
  label_follows_flag (after_events es s).
Proof.
  revert s. induction es as [|e es IH]; intros s Hs; [exact Hs|].
  apply IH. clear IH es.
  destruct s as [pg au [pb wp ip pr] vc].
  unfold label_follows_flag in *. cbn in Hs.
  destruct e as [o | o], o, ip; cbn; congruence.
Qed.

Lemma clicks_and_track_ends_keep_label_and_flag_in_step_witness :
  label_follows_flag
    (after_events [PlayClicked PlayRejected; TrackEnded PlayRejected;
                   PlayClicked PlayNoPromise; PlayClicked PlayFulfilled]
                  (player_at_rest 1)).
Proof.
  apply (clicks_and_track_ends_keep_label_and_flag_in_step
           [PlayClicked PlayRejected; TrackEnded PlayRejected;
            PlayClicked PlayNoPromise; PlayClicked PlayFulfilled]
           (player_at_rest 1)).
  reflexivity.
Defined.
